(** * A to-do list with localStorage: the state machine of [src/app/page.tsx]

    The component [TodoApp] keeps three pieces of React state ([todos],
    [inputValue], [selectedDate]) and mirrors [todos] into
    [localStorage] under the key ['todos'].  This development embeds the
    handlers of that component (addTodo, toggleTodo, deleteTodo, the
    clear-completed click, isOverdue, isDueToday and the two effects that
    load and save the list) and the part of the ECMAScript run time they
    call: strings of UTF-16 code units, [String.prototype.trim], time
    values and the calendar of ECMA-262 section 21.4, the date strings,
    [JSON.stringify] and [JSON.parse].

    What ECMA-262 leaves to the implementation is a parameter
    ([JsHost]): the local time zone, the date formats an engine accepts
    beyond the ISO format, and the conversion of a non-primitive value
    handed to [new Date(v)].  The clock is an input: every handler that
    reads it takes the reading as an argument.

    React runs a handler to completion and renders before the next one,
    so the component is a state machine whose steps are the handlers.
    The task objects are never written after their creation ([toggleTodo]
    builds new ones), so they are values; the Date objects they refer to
    live in a heap, because [isOverdue] writes into the one it is
    given. *)

From Stdlib Require Import ZArith NArith List Bool Ascii String Lia.
From stdpp Require Import base option list gmap.

Local Open Scope Z_scope.

(** ** Strings

    A JavaScript string is a sequence of UTF-16 code units. *)

Abbreviation JsString := (list N).

(** A literal of the source, code unit by code unit. *)
Definition js (s : string) : JsString :=
  List.map N_of_ascii (list_ascii_of_string s).

(** WhiteSpace and LineTerminator of ECMA-262 (sections 12.2 and 12.3),
    the code points [String.prototype.trim] strips. *)
Definition isWhiteSpace (c : N) : bool :=
  ((c =? 0x09) || (c =? 0x0A) || (c =? 0x0B) || (c =? 0x0C) || (c =? 0x0D)
   || (c =? 0x20) || (c =? 0xA0) || (c =? 0x1680)
   || ((0x2000 <=? c) && (c <=? 0x200A))
   || (c =? 0x2028) || (c =? 0x2029) || (c =? 0x202F) || (c =? 0x205F)
   || (c =? 0x3000) || (c =? 0xFEFF))%N.

Fixpoint trimStart (s : JsString) : JsString :=
  match s with
  | c :: s' => if isWhiteSpace c then trimStart s' else s
  | [] => []
  end.

Definition trimEnd (s : JsString) : JsString := rev (trimStart (rev s)).

(** [s.trim()] *)
Definition trim (s : JsString) : JsString := trimEnd (trimStart s).

(** ToBoolean of a string: the empty string is the only falsy one. *)
Definition truthy_string (s : JsString) : bool :=
  match s with [] => false | _ => true end.

(** ** Decimal numerals *)

Definition digit_unit (d : Z) : N := (48 + Z.to_N d)%N.

Fixpoint decimal_digits (fuel : nat) (n : Z) : JsString :=
  match fuel with
  | O => []
  | S fuel' =>
      if n <? 10 then [digit_unit n]
      else decimal_digits fuel' (n / 10) ++ [digit_unit (n mod 10)]
  end.

(** The decimal numeral of a non-negative integer, most significant digit
    first. *)
Definition decimal (n : Z) : JsString :=
  decimal_digits (S (Z.to_nat (Z.log2 n))) n.

(** ToZeroPaddedDecimalString(n, minLength) *)
Definition ToZeroPaddedDecimalString (n : Z) (minLength : nat) : JsString :=
  let ds := decimal n in
  replicate (minLength - length ds) 48%N ++ ds.

Definition isDigit (c : N) : bool := ((48 <=? c) && (c <=? 57))%N.

Definition digit_value (c : N) : Z := Z.of_N c - 48.

(** The number a run of decimal digits denotes. *)
Definition digits_value (ds : JsString) : Z :=
  fold_left (fun acc c => 10 * acc + digit_value c) ds 0.

(** ** Time values (ECMA-262 21.4.1)

    A time value is an integral number of milliseconds since the epoch,
    or NaN; [None] is NaN. *)

Abbreviation TimeValue := (option Z).

Definition msPerDay : Z := 86400000.
Definition msPerHour : Z := 3600000.
Definition msPerMinute : Z := 60000.
Definition msPerSecond : Z := 1000.

Definition Day (t : Z) : Z := t / msPerDay.
Definition TimeWithinDay (t : Z) : Z := t mod msPerDay.

Definition isLeapYear (y : Z) : bool :=
  ((y mod 4 =? 0) && negb (y mod 100 =? 0)) || (y mod 400 =? 0).

Definition DaysInYear (y : Z) : Z := if isLeapYear y then 366 else 365.

Definition DayFromYear (y : Z) : Z :=
  365 * (y - 1970) + (y - 1969) / 4 - (y - 1901) / 100 + (y - 1601) / 400.

Definition TimeFromYear (y : Z) : Z := msPerDay * DayFromYear y.

(** The year of a day number: the largest [y] with [DayFromYear y <= d].
    The mean year of the 400-year cycle gives an estimate that is off by
    at most one. *)
Definition YearFromDay (d : Z) : Z :=
  let y := 1970 + (400 * d) / 146097 in
  if DayFromYear (y + 1) <=? d then y + 1
  else if d <? DayFromYear y then y - 1
  else y.

Definition YearFromTime (t : Z) : Z := YearFromDay (Day t).

Definition InLeapYear (t : Z) : Z :=
  if isLeapYear (YearFromTime t) then 1 else 0.

Definition DayWithinYear (t : Z) : Z := Day t - DayFromYear (YearFromTime t).

(** The day of the year on which month [m] (0 = January) begins. *)
Definition month_start (m leap : Z) : Z :=
  if m =? 0 then 0
  else if m =? 1 then 31
  else if m =? 2 then 59 + leap
  else if m =? 3 then 90 + leap
  else if m =? 4 then 120 + leap
  else if m =? 5 then 151 + leap
  else if m =? 6 then 181 + leap
  else if m =? 7 then 212 + leap
  else if m =? 8 then 243 + leap
  else if m =? 9 then 273 + leap
  else if m =? 10 then 304 + leap
  else 334 + leap.

Definition MonthFromTime (t : Z) : Z :=
  let d := DayWithinYear t in
  let leap := InLeapYear t in
  if d <? 31 then 0
  else if d <? 59 + leap then 1
  else if d <? 90 + leap then 2
  else if d <? 120 + leap then 3
  else if d <? 151 + leap then 4
  else if d <? 181 + leap then 5
  else if d <? 212 + leap then 6
  else if d <? 243 + leap then 7
  else if d <? 273 + leap then 8
  else if d <? 304 + leap then 9
  else if d <? 334 + leap then 10
  else 11.

Definition DateFromTime (t : Z) : Z :=
  DayWithinYear t - month_start (MonthFromTime t) (InLeapYear t) + 1.

Definition WeekDay (t : Z) : Z := (Day t + 4) mod 7.

Definition HourFromTime (t : Z) : Z := (t / msPerHour) mod 24.
Definition MinFromTime (t : Z) : Z := (t / msPerMinute) mod 60.
Definition SecFromTime (t : Z) : Z := (t / msPerSecond) mod 60.
Definition msFromTime (t : Z) : Z := t mod msPerSecond.

Definition MakeTime (hour min sec ms : Z) : Z :=
  hour * msPerHour + min * msPerMinute + sec * msPerSecond + ms.

(** MakeDay for a month in 0..11 and a day of the month. *)
Definition MakeDay (year month date : Z) : Z :=
  DayFromYear year + month_start month (if isLeapYear year then 1 else 0)
  + date - 1.

Definition MakeDate (day time : Z) : Z := day * msPerDay + time.

Definition DaysInMonth (year month : Z) : Z :=
  if month =? 11 then 31
  else let leap := if isLeapYear year then 1 else 0 in
       month_start (month + 1) leap - month_start month leap.

Definition TimeClip (t : Z) : TimeValue :=
  if Z.abs t <=? 8640000000000000 then Some t else None.

(** ** Values

    The values the program handles at run time.  A Number is written by
    a decimal numeral that denotes it: [VNum m e] is the Number value
    for [m * 10^e], that is, the binary64 value nearest to it
    ([binary64] below); what reads a Number reads that value.  Two
    numerals may denote one Number, so [=] on values is finer than the
    equality of the language; nothing here compares two Numbers that
    were read from a text.  A Date object is a reference into the heap
    of Date objects, the only objects this program mutates in place. *)

Abbreviation loc := positive.

#[warnings="-register-all"]
Inductive JsVal :=
| VUndefined
| VNull
| VBool (b : bool)
| VNum (m e : Z)
| VStr (s : JsString)
| VDate (l : loc)
| VArr (items : list JsVal)
| VObj (props : list (JsString * JsVal)).

(** *** Number values (ECMA-262 6.1.6.1)

    A Number that is not NaN: [Finite k q] is [k * 2^q], or an
    infinity. *)
Inductive Number :=
| Finite (k q : Z)
| Infinite (negative : bool).

(** The Number value for the decimal [m * 10^e]: the binary64 value
    nearest to it, the one with an even significand when two are as
    near, an infinity from [2^1024 - 2^970] on.  The quotient
    [v = n / d] lies in [[2^x, 2^(x+1))] and is rounded to a multiple
    of [2^q], with 53 bits at most, [q] no less than -1074. *)
Definition binary64 (m e : Z) : Number :=
  if m =? 0 then Finite 0 0
  else
    let n := Z.abs m * 10 ^ Z.max e 0 in
    let d := 10 ^ Z.max (- e) 0 in
    let x0 := Z.log2 n - Z.log2 d in
    let x := if n * 2 ^ Z.max (- x0) 0 <? d * 2 ^ Z.max x0 0
             then x0 - 1 else x0 in
    let q := Z.max (x - 52) (-1074) in
    let n' := n * 2 ^ Z.max (- q) 0 in
    let d' := d * 2 ^ Z.max q 0 in
    let k := n' / d' in
    let r := n' mod d' in
    let k := if (d' <? 2 * r) || ((d' =? 2 * r) && Z.odd k)
             then k + 1 else k in
    if (0 <=? q) && (2 ^ 1024 <=? k * 2 ^ q) then Infinite (m <? 0)
    else Finite (if m <? 0 then - k else k) q.

(** TimeClip (ECMA-262 21.4.1.31) of a Number: NaN when it is not
    finite or beyond 8.64e15, its integer part otherwise. *)
Definition TimeClip_Number (x : Number) : TimeValue :=
  match x with
  | Infinite _ => None
  | Finite k q =>
      if Z.abs k * 2 ^ Z.max q 0 <=? 8640000000000000 * 2 ^ Z.max (- q) 0
      then Some (if 0 <=? q then k * 2 ^ q else Z.quot k (2 ^ (- q)))
      else None
  end.

(** *** Conversion of an object to a primitive (ECMA-262 7.1.1)

    [new Date(v)] and [Array.prototype.join] convert an object with
    OrdinaryToPrimitive, which calls [valueOf] and [toString] when they
    are callable and throws a TypeError when neither gives a primitive.
    No value [JSON.parse] makes is callable, so an own property of one
    of these names hides the inherited method.  A plain object is
    converted by the inherited [toString], to ["[object Object]"], and
    the conversion throws when the object has an own property
    [toString]; an array is converted by [join], which converts its
    elements (but [null] and [undefined]) the same way. *)
Definition has_own (k : JsString) (props : list (JsString * JsVal)) : bool :=
  existsb (fun p => bool_decide (fst p = k)) props.

Fixpoint ToPrimitive_throws (v : JsVal) : bool :=
  match v with
  | VObj props => has_own (js "toString") props
  | VArr items => existsb ToPrimitive_throws items
  | _ => false
  end.

(** The heap of Date objects: the [[DateValue]] slot of each. *)
Abbreviation Heap := (gmap loc TimeValue).

Definition alloc (h : Heap) (tv : TimeValue) : loc * Heap :=
  let l := fresh (dom h) in (l, <[l := tv]> h).

(** [[DateValue]] of the object at [l]; a dangling reference reads NaN. *)
Definition thisTimeValue (h : Heap) (l : loc) : TimeValue :=
  default None (h !! l).

(** ** The host

    What ECMA-262 leaves to the implementation. *)
Class JsHost := {
  (** LocalTZA(t, isUTC): the offset of local time, in milliseconds *)
  LocalTZA : Z -> bool -> Z;
  (** [Date.parse] on a string that is not in one of the forms
      [parse_iso] recognises *)
  Date_parse_other : JsString -> TimeValue;
  (** [Date.parse] on the text of an array, its elements converted to
      strings and joined by commas (the text of a Number is not
      modelled) *)
  Date_parse_joined : list JsVal -> TimeValue
}.

Section Dates.
Context {host : JsHost}.

Definition LocalTime (t : Z) : Z := t + LocalTZA t true.
Definition UTC (t : Z) : Z := t - LocalTZA t false.

(** *** Date strings *)

Definition weekday_name (d : Z) : JsString :=
  js (if d =? 0 then "Sun" else if d =? 1 then "Mon" else if d =? 2 then "Tue"
      else if d =? 3 then "Wed" else if d =? 4 then "Thu"
      else if d =? 5 then "Fri" else "Sat").

Definition month_name (m : Z) : JsString :=
  js (if m =? 0 then "Jan" else if m =? 1 then "Feb" else if m =? 2 then "Mar"
      else if m =? 3 then "Apr" else if m =? 4 then "May"
      else if m =? 5 then "Jun" else if m =? 6 then "Jul"
      else if m =? 7 then "Aug" else if m =? 8 then "Sep"
      else if m =? 9 then "Oct" else if m =? 10 then "Nov" else "Dec").

(** DateString(tv) of ECMA-262 21.4.4.41.2, as "Mon Jan 15 2024". *)
Definition DateString (tv : Z) : JsString :=
  let yv := YearFromTime tv in
  weekday_name (WeekDay tv) ++ js " " ++ month_name (MonthFromTime tv)
  ++ js " " ++ ToZeroPaddedDecimalString (DateFromTime tv) 2 ++ js " "
  ++ (if 0 <=? yv then [] else js "-")
  ++ ToZeroPaddedDecimalString (Z.abs yv) 4.

(** [d.toDateString()] for a Date whose time value is [tv] *)
Definition toDateString (tv : TimeValue) : JsString :=
  match tv with
  | None => js "Invalid Date"
  | Some t => DateString (LocalTime t)
  end.

(** [d.toISOString()] for a finite time value:
    YYYY-MM-DDTHH:mm:ss.sssZ, the year with a sign and six digits outside
    0..9999. *)
Definition toISOString (t : Z) : JsString :=
  let yv := YearFromTime t in
  (if (0 <=? yv) && (yv <=? 9999) then ToZeroPaddedDecimalString yv 4
   else js (if 0 <=? yv then "+" else "-")
        ++ ToZeroPaddedDecimalString (Z.abs yv) 6)
  ++ js "-" ++ ToZeroPaddedDecimalString (MonthFromTime t + 1) 2
  ++ js "-" ++ ToZeroPaddedDecimalString (DateFromTime t) 2
  ++ js "T" ++ ToZeroPaddedDecimalString (HourFromTime t) 2
  ++ js ":" ++ ToZeroPaddedDecimalString (MinFromTime t) 2
  ++ js ":" ++ ToZeroPaddedDecimalString (SecFromTime t) 2
  ++ js "." ++ ToZeroPaddedDecimalString (msFromTime t) 3
  ++ js "Z".

(** *** Date.parse *)

Definition take_digits (k : nat) (s : JsString) : option (Z * JsString) :=
  let ds := take k s in
  if (length ds =? k)%nat && forallb isDigit ds
  then Some (digits_value ds, drop k s) else None.

Definition expect (c : N) (s : JsString) : option JsString :=
  match s with
  | c' :: s' => if (c' =? c)%N then Some s' else None
  | [] => None
  end.

Definition parse_iso_year (s : JsString) : option (Z * JsString) :=
  match s with
  | c :: s' =>
      if (c =? 43)%N then take_digits 6 s'
      else if (c =? 45)%N then
        '(y, r) ← take_digits 6 s';
        if y =? 0 then None else Some (- y, r)
      else take_digits 4 s
  | [] => None
  end.

(** The calendar date at the head of an ISO string, as a day number. *)
Definition parse_iso_date (s : JsString) : option (Z * JsString) :=
  '(y, s) ← parse_iso_year s;
  s ← expect 45 s;
  '(m, s) ← take_digits 2 s;
  s ← expect 45 s;
  '(d, s) ← take_digits 2 s;
  if (1 <=? m) && (m <=? 12) && (1 <=? d) && (d <=? DaysInMonth y (m - 1))
  then Some (MakeDay y (m - 1) d, s) else None.

(** "THH:mm:ss.sssZ", the time of day [toISOString] writes. *)
Definition parse_iso_time (s : JsString) : option Z :=
  s ← expect 84 s;
  '(h, s) ← take_digits 2 s;
  s ← expect 58 s;
  '(mi, s) ← take_digits 2 s;
  s ← expect 58 s;
  '(sec, s) ← take_digits 2 s;
  s ← expect 46 s;
  '(ms, s) ← take_digits 3 s;
  s ← expect 90 s;
  match s with
  | [] => if (h <=? 23) && (mi <=? 59) && (sec <=? 59)
          then Some (MakeTime h mi sec ms) else None
  | _ => None
  end.

(** The two forms of the Date Time String Format this program produces:
    the date-only form of an [<input type="date">] value, which denotes
    midnight UTC, and the form [toISOString] writes. *)
Definition parse_iso (s : JsString) : option Z :=
  '(day, s) ← parse_iso_date s;
  match s with
  | [] => Some (MakeDate day 0)
  | _ => time ← parse_iso_time s; Some (MakeDate day time)
  end.

Definition Date_parse (s : JsString) : TimeValue :=
  match parse_iso s with
  | Some t => TimeClip t
  | None => Date_parse_other s
  end.

(** The time value of [new Date(v)] (ECMA-262 21.4.2.1), when the
    conversion of [v] to a primitive returns: that of a Date, the parse
    of a string or of the string an object is converted to, the
    Number of the other primitives, clipped. *)
Definition Date_value (h : Heap) (v : JsVal) : TimeValue :=
  match v with
  | VUndefined => None
  | VNull => TimeClip 0
  | VBool b => TimeClip (if b then 1 else 0)
  | VNum m e => TimeClip_Number (binary64 m e)
  | VStr s => Date_parse s
  | VDate l => thisTimeValue h l
  | VArr items => Date_parse_joined items
  | VObj _ => Date_parse (js "[object Object]")
  end.

(** [new Date(v)]: a TypeError ([None]) when [v] cannot be converted to
    a primitive, a new Date object otherwise. *)
Definition new_Date (h : Heap) (v : JsVal) : option (loc * Heap) :=
  if ToPrimitive_throws v then None else Some (alloc h (Date_value h v)).

(** [d.setHours(0, 0, 0, 0)] on a time value: local midnight of the local
    day of [tv] (ECMA-262 21.4.4.22). *)
Definition setHours0 (tv : TimeValue) : TimeValue :=
  match tv with
  | None => None
  | Some t =>
      let t := LocalTime t in
      let date := MakeDate (Day t) (MakeTime 0 0 0 0) in
      TimeClip (UTC date)
  end.

(** [a < b] on two Date objects compares their time values; a
    comparison with NaN is false. *)
Definition date_lt (a b : TimeValue) : bool :=
  match a, b with
  | Some x, Some y => x <? y
  | _, _ => false
  end.

End Dates.

(** An engine in a zone at a fixed offset from UTC that knows no date
    format beyond the ISO ones, and reads no date in the text of an
    array. *)
Definition fixed_offset_host (tza : Z) : JsHost :=
  {| LocalTZA := fun _ _ => tza;
     Date_parse_other := fun _ => None;
     Date_parse_joined := fun _ => None |}.

(** Indian Standard Time, UTC+05:30. *)
Definition IST : JsHost := fixed_offset_host 19800000.

(** ** JSON text

    *** JSON.parse (ECMA-262 25.5.1, the grammar of ECMA-404) *)

Definition isJsonWhiteSpace (c : N) : bool :=
  ((c =? 0x20) || (c =? 0x09) || (c =? 0x0A) || (c =? 0x0D))%N.

Fixpoint skip_ws (s : JsString) : JsString :=
  match s with
  | c :: s' => if isJsonWhiteSpace c then skip_ws s' else s
  | [] => []
  end.

Definition hex_value (c : N) : option N :=
  if ((48 <=? c) && (c <=? 57))%N then Some (c - 48)%N
  else if ((65 <=? c) && (c <=? 70))%N then Some (c - 55)%N
  else if ((97 <=? c) && (c <=? 102))%N then Some (c - 87)%N
  else None.

(** The code unit of the escape [\uXXXX]. *)
Definition unicode_escape (a b c d : N) : option N :=
  a ← hex_value a; b ← hex_value b; c ← hex_value c; d ← hex_value d;
  Some (((a * 16 + b) * 16 + c) * 16 + d)%N.

(** The code unit of a one-letter escape. *)
Definition simple_escape (c : N) : option N :=
  if (c =? 34)%N then Some 34%N            (* quotation mark *)
  else if (c =? 92)%N then Some 92%N       (* reverse solidus *)
  else if (c =? 47)%N then Some 47%N       (* solidus *)
  else if (c =? 98)%N then Some 8%N        (* b: backspace *)
  else if (c =? 102)%N then Some 12%N      (* f: form feed *)
  else if (c =? 110)%N then Some 10%N      (* n: line feed *)
  else if (c =? 114)%N then Some 13%N      (* r: carriage return *)
  else if (c =? 116)%N then Some 9%N       (* t: tab *)
  else None.

(** The characters of a string literal after its opening quote, up to
    and including the closing quote. *)
Fixpoint parse_chars (s : JsString) (acc : JsString)
  : option (JsString * JsString) :=
  match s with
  | [] => None
  | c :: r =>
      if (c =? 34)%N then Some (rev acc, r)
      else if (c =? 92)%N then
        match r with
        | [] => None
        | e :: r1 =>
            if (e =? 117)%N then
              match r1 with
              | a :: b :: c' :: d :: r2 =>
                  match unicode_escape a b c' d with
                  | Some u => parse_chars r2 (u :: acc)
                  | None => None
                  end
              | _ => None
              end
            else
              match simple_escape e with
              | Some u => parse_chars r1 (u :: acc)
              | None => None
              end
        end
      else if (c <? 0x20)%N then None
      else parse_chars r (c :: acc)
  end.

Definition parse_string (s : JsString) : option (JsString * JsString) :=
  match s with
  | c :: r => if (c =? 34)%N then parse_chars r [] else None
  | [] => None
  end.

(** The longest run of decimal digits at the head of [s]. *)
Fixpoint span_digits (s : JsString) : JsString * JsString :=
  match s with
  | c :: r =>
      if isDigit c then let '(ds, r') := span_digits r in (c :: ds, r')
      else ([], s)
  | [] => ([], [])
  end.

Definition parse_sign (s : JsString) : bool * JsString :=
  match s with
  | c :: r => if (c =? 45)%N then (true, r) else (false, s)
  | [] => (false, s)
  end.

(** A fraction, if there is one: a point and at least one digit. *)
Definition parse_fraction (s : JsString) : option (JsString * JsString) :=
  match s with
  | c :: r =>
      if (c =? 46)%N then
        let '(fs, r') := span_digits r in
        match fs with [] => None | _ => Some (fs, r') end
      else Some ([], s)
  | [] => Some ([], s)
  end.

(** An exponent, if there is one: [e] or [E], an optional sign and at
    least one digit. *)
Definition parse_exponent (s : JsString) : option (Z * JsString) :=
  match s with
  | c :: r =>
      if ((c =? 101) || (c =? 69))%N then
        let '(eneg, r) :=
          match r with
          | c' :: r' => if (c' =? 45)%N then (true, r')
                        else if (c' =? 43)%N then (false, r')
                        else (false, r)
          | [] => (false, r)
          end in
        let '(es, r') := span_digits r in
        match es with
        | [] => None
        | _ => let v := digits_value es in Some (if eneg then - v else v, r')
        end
      else Some (0, s)
  | [] => Some (0, s)
  end.

(** A number literal after its sign: an integer part without a leading
    zero, an optional fraction and an optional exponent.  The value
    made is the numeral as it is written, which denotes the Number
    nearest to it; the sign of a zero is not kept. *)
Definition parse_unsigned (neg : bool) (s : JsString)
  : option (JsVal * JsString) :=
  let '(int, s) := span_digits s in
  match int with
  | [] => None
  | d :: ds =>
      if (d =? 48)%N && negb (length ds =? 0)%nat then None
      else
        '(frac, s) ← parse_fraction s;
        '(ex, s) ← parse_exponent s;
        let m := digits_value (int ++ frac) in
        Some (VNum (if neg then - m else m) (ex - Z.of_nat (length frac)), s)
  end.

Definition parse_number (s : JsString) : option (JsVal * JsString) :=
  let '(neg, s) := parse_sign s in parse_unsigned neg s.

Definition expect_word (w : JsString) (s : JsString) : option JsString :=
  if decide (take (length w) s = w) then Some (drop (length w) s) else None.

(** CreateDataProperty on a list of own properties: an existing key keeps
    its place and takes the new value.  Properties are kept in the order
    of their creation; that an engine enumerates integer-like keys first
    is not modelled, the program never reading the order. *)
Fixpoint set_prop (k : JsString) (v : JsVal) (props : list (JsString * JsVal))
  : list (JsString * JsVal) :=
  match props with
  | [] => [(k, v)]
  | (k', v') :: ps =>
      if decide (k' = k) then (k, v) :: ps else (k', v') :: set_prop k v ps
  end.

Fixpoint parse_value (fuel : nat) (s : JsString) : option (JsVal * JsString) :=
  match fuel with
  | O => None
  | S fuel =>
      match s with
      | [] => None
      | c :: r =>
          if (c =? 110)%N then r ← expect_word (js "null") s; Some (VNull, r)
          else if (c =? 116)%N then
            r ← expect_word (js "true") s; Some (VBool true, r)
          else if (c =? 102)%N then
            r ← expect_word (js "false") s; Some (VBool false, r)
          else if (c =? 34)%N then
            '(str, r) ← parse_string s; Some (VStr str, r)
          else if (c =? 91)%N then
            match skip_ws r with
            | 93%N :: r' => Some (VArr [], r')
            | r' => parse_elements fuel r' []
            end
          else if (c =? 123)%N then
            match skip_ws r with
            | 125%N :: r' => Some (VObj [], r')
            | r' => parse_members fuel r' []
            end
          else parse_number s
      end
  end
with parse_elements (fuel : nat) (s : JsString) (acc : list JsVal)
  : option (JsVal * JsString) :=
  match fuel with
  | O => None
  | S fuel =>
      '(v, r) ← parse_value fuel (skip_ws s);
      match skip_ws r with
      | 44%N :: r' => parse_elements fuel r' (v :: acc)
      | 93%N :: r' => Some (VArr (rev (v :: acc)), r')
      | _ => None
      end
  end
with parse_members (fuel : nat) (s : JsString) (acc : list (JsString * JsVal))
  : option (JsVal * JsString) :=
  match fuel with
  | O => None
  | S fuel =>
      '(k, r) ← parse_string (skip_ws s);
      r ← expect 58 (skip_ws r);
      '(v, r) ← parse_value fuel (skip_ws r);
      match skip_ws r with
      | 44%N :: r' => parse_members fuel r' (set_prop k v acc)
      | 125%N :: r' => Some (VObj (set_prop k v acc), r')
      | _ => None
      end
  end.

(** [JSON.parse(text)]; [None] is a thrown SyntaxError. *)
Definition JSON_parse (text : JsString) : option JsVal :=
  '(v, r) ← parse_value (2 * length text + 2) (skip_ws text);
  match skip_ws r with
  | [] => Some v
  | _ => None
  end.

(** *** JSON.stringify (ECMA-262 25.5.2) *)

Definition isLeadingSurrogate (c : N) : bool :=
  ((0xD800 <=? c) && (c <=? 0xDBFF))%N.
Definition isTrailingSurrogate (c : N) : bool :=
  ((0xDC00 <=? c) && (c <=? 0xDFFF))%N.

Definition hex_digit (n : N) : N := if (n <? 10)%N then (48 + n)%N else (87 + n)%N.

(** UnicodeEscape(C): a reverse solidus, [u] and four lower-case
    hexadecimal digits. *)
Definition UnicodeEscape (c : N) : JsString :=
  [92; 117; hex_digit (c / 4096 mod 16); hex_digit (c / 256 mod 16);
   hex_digit (c / 16 mod 16); hex_digit (c mod 16)]%N.

Fixpoint quote_units (s : JsString) : JsString :=
  match s with
  | [] => []
  | c :: r =>
      if (c =? 0x08)%N then [92; 98]%N ++ quote_units r
      else if (c =? 0x09)%N then [92; 116]%N ++ quote_units r
      else if (c =? 0x0A)%N then [92; 110]%N ++ quote_units r
      else if (c =? 0x0C)%N then [92; 102]%N ++ quote_units r
      else if (c =? 0x0D)%N then [92; 114]%N ++ quote_units r
      else if (c =? 0x22)%N then [92; 34]%N ++ quote_units r
      else if (c =? 0x5C)%N then [92; 92]%N ++ quote_units r
      else if (c <? 0x20)%N then UnicodeEscape c ++ quote_units r
      else if isLeadingSurrogate c then
        match r with
        | d :: r' =>
            if isTrailingSurrogate d then c :: d :: quote_units r'
            else UnicodeEscape c ++ quote_units r
        | [] => UnicodeEscape c
        end
      else if isTrailingSurrogate c then UnicodeEscape c ++ quote_units r
      else c :: quote_units r
  end.

(** QuoteJSONString(value) *)
Definition QuoteJSONString (s : JsString) : JsString :=
  [34%N] ++ quote_units s ++ [34%N].

(** Number::toString of an integer below 10^21 in magnitude, as the ids
    of this program are (clock readings). *)
Definition Number_toString (n : Z) : JsString :=
  if n <? 0 then js "-" ++ decimal (- n) else decimal n.

Fixpoint join (sep : JsString) (parts : list JsString) : JsString :=
  match parts with
  | [] => []
  | [x] => x
  | x :: rest => x ++ sep ++ join sep rest
  end.

(** SerializeJSONObject on the properties in their order; a property
    whose value is [undefined] ([None]) is left out. *)
Definition SerializeJSONObject (members : list (JsString * option JsString))
  : JsString :=
  js "{"
  ++ join (js ",")
       (omap (fun '(k, v) => text ← v; Some (QuoteJSONString k ++ js ":" ++ text))
             members)
  ++ js "}".

Definition SerializeJSONArray (items : list JsString) : JsString :=
  js "[" ++ join (js ",") items ++ js "]".

(** ** The component *)

(** [interface Todo] *)
Record Todo := {
  id : Z;
  title : JsString;
  completed : bool;
  createdAt : loc;
  dueDate : option loc
}.

(** The object a [Todo] is at run time, with its properties in the order
    of the object literal in [addTodo]. *)
Definition Todo_value (t : Todo) : JsVal :=
  VObj [(js "id", VNum (id t) 0);
        (js "title", VStr (title t));
        (js "completed", VBool (completed t));
        (js "createdAt", VDate (createdAt t));
        (js "dueDate", match dueDate t with
                       | Some l => VDate l
                       | None => VUndefined
                       end)].

(** The React state of [TodoApp] and the Date objects it refers to. *)
Record State := {
  heap : Heap;
  todos : list Todo;
  inputValue : JsString;
  selectedDate : JsString
}.

Definition set_todos (f : list Todo -> list Todo) (st : State) : State :=
  {| heap := heap st; todos := f (todos st);
     inputValue := inputValue st; selectedDate := selectedDate st |}.

Section Component.
Context {host : JsHost}.

(** [addTodo]; [now_id] is the reading of [Date.now()] and [now_created]
    the reading of [new Date()] that follows it. *)
Definition addTodo (now_id now_created : Z) (st : State) : State :=
  if decide (trim (inputValue st) <> []) then
    let '(c, h) := alloc (heap st) (Some now_created) in
    let '(d, h) := if truthy_string (selectedDate st)
                   then let '(l, h) := alloc h (Date_parse (selectedDate st)) in
                        (Some l, h)
                   else (None, h) in
    let newTodo := {| id := now_id;
                      title := trim (inputValue st);
                      completed := false;
                      createdAt := c;
                      dueDate := d |} in
    {| heap := h; todos := newTodo :: todos st;
       inputValue := []; selectedDate := [] |}
  else st.

Definition toggleTodo (id0 : Z) (st : State) : State :=
  set_todos
    (List.map (fun todo =>
       if id todo =? id0
       then {| id := id todo; title := title todo;
               completed := negb (completed todo);
               createdAt := createdAt todo; dueDate := dueDate todo |}
       else todo))
    st.

Definition deleteTodo (id0 : Z) (st : State) : State :=
  set_todos (List.filter (fun todo => negb (id todo =? id0))) st.

(** The click handler of the clear-completed button. *)
Definition clearCompleted (st : State) : State :=
  set_todos (List.filter (fun todo => negb (completed todo))) st.

Definition completedCount (st : State) : nat :=
  length (List.filter (fun todo => completed todo) (todos st)).

Definition totalCount (st : State) : nat := length (todos st).

(** [isOverdue(dueDate)] at clock reading [now]: the answer and the heap
    it leaves.  [today] is a Date local to the call; [dueDate] is the
    caller's object, and [setHours] writes into it. *)
Definition isOverdue (dueDate : option loc) (now : Z) (h : Heap) : bool * Heap :=
  match dueDate with
  | None => (false, h)
  | Some l =>
      let today := setHours0 (Some now) in
      let due := setHours0 (thisTimeValue h l) in
      (date_lt due today, <[l := due]> h)
  end.

(** ToBoolean *)
Definition truthy (v : JsVal) : bool :=
  match v with
  | VUndefined | VNull => false
  | VBool b => b
  | VNum m e =>
      match binary64 m e with
      | Finite k _ => negb (k =? 0)
      | Infinite _ => true
      end
  | VStr s => truthy_string s
  | VDate _ | VArr _ | VObj _ => true
  end.

(** [isOverdue] as it runs on a value that need not be a Date, the types
    of the source being erased at run time: a falsy value is answered
    with [false], a Date as above, and on anything else the call
    [dueDate.setHours(...)] throws a TypeError ([None]), no other value
    having a method of that name. *)
Definition isOverdue_untyped (dueDate : JsVal) (now : Z) (h : Heap)
  : option (bool * Heap) :=
  if truthy dueDate then
    match dueDate with
    | VDate l => Some (isOverdue (Some l) now h)
    | _ => None
    end
  else Some (false, h).

(** [isDueToday(dueDate)] at clock reading [now]. *)
Definition isDueToday (dueDate : option loc) (now : Z) (h : Heap) : bool :=
  match dueDate with
  | None => false
  | Some l =>
      bool_decide (toDateString (thisTimeValue h l) = toDateString (Some now))
  end.

(** *** Persistence

    The item of [localStorage] under the key ['todos']; [None] when
    [getItem] returns [null]. *)

(** [Date.prototype.toJSON] then SerializeJSONProperty: the ISO string,
    quoted, or [null] for an invalid Date. *)
Definition Date_toJSON (h : Heap) (l : loc) : JsString :=
  match thisTimeValue h l with
  | Some t => QuoteJSONString (toISOString t)
  | None => js "null"
  end.

Definition stringify_todo (h : Heap) (t : Todo) : JsString :=
  SerializeJSONObject
    [(js "id", Some (Number_toString (id t)));
     (js "title", Some (QuoteJSONString (title t)));
     (js "completed", Some (js (if completed t then "true" else "false")));
     (js "createdAt", Some (Date_toJSON h (createdAt t)));
     (js "dueDate", Date_toJSON h <$> dueDate t)].

(** [JSON.stringify(todos)] *)
Definition JSON_stringify (h : Heap) (ts : list Todo) : JsString :=
  SerializeJSONArray (List.map (stringify_todo h) ts).

(** The save effect: the text written under ['todos']. *)
Definition saveTodos (st : State) : option JsString :=
  Some (JSON_stringify (heap st) (todos st)).

Fixpoint lookup_prop (k : JsString) (props : list (JsString * JsVal)) : JsVal :=
  match props with
  | [] => VUndefined
  | (k', v) :: ps => if decide (k' = k) then v else lookup_prop k ps
  end.

(** [todo.createdAt]: a TypeError ([None]) on [null] and [undefined],
    the own property of an object, and [undefined] on the other values,
    which have no property of that name. *)
Definition get_createdAt (todo : JsVal) : option JsVal :=
  match todo with
  | VUndefined | VNull => None
  | VObj props => Some (lookup_prop (js "createdAt") props)
  | _ => Some VUndefined
  end.

(** The own enumerable properties [{...todo}] copies: those of an
    object, the indexed elements of an array, the code units of a
    string, none of the other values. *)
Definition spread (todo : JsVal) : list (JsString * JsVal) :=
  match todo with
  | VObj props => props
  | VArr items => imap (fun i v => (decimal (Z.of_nat i), v)) items
  | VStr s => imap (fun i c => (decimal (Z.of_nat i), VStr [c])) s
  | _ => []
  end.

(** The callback of [parsedTodos.map]:
    [{...todo, createdAt: new Date(todo.createdAt)}]. *)
Definition revive (h : Heap) (todo : JsVal) : option (Heap * JsVal) :=
  c ← get_createdAt todo;
  '(l, h) ← new_Date h c;
  Some (h, VObj (set_prop (js "createdAt") (VDate l) (spread todo))).

Fixpoint revive_all (h : Heap) (items : list JsVal) : option (Heap * list JsVal) :=
  match items with
  | [] => Some (h, [])
  | todo :: rest =>
      '(h, v) ← revive h todo;
      '(h, vs) ← revive_all h rest;
      Some (h, v :: vs)
  end.

(** The body of the [try] block: [None] when it throws, the argument of
    [setTodos] otherwise.  Only an array has a [map] method. *)
Definition try_load (h : Heap) (savedTodos : JsString)
  : option (Heap * list JsVal) :=
  parsedTodos ← JSON_parse savedTodos;
  match parsedTodos with
  | VArr items => revive_all h items
  | _ => None
  end.

(** The load effect, run once on mount when [todos] is [[]]: the heap
    and the value of [todos] it leaves.  A thrown error is caught and
    logged, and [todos] keeps its initial value; the Date objects made
    before the throw are then referred to by nothing, and are left out
    of the heap. *)
Definition loadTodos (h : Heap) (item : option JsString) : Heap * list JsVal :=
  match item with
  | None => (h, [])
  | Some savedTodos =>
      if truthy_string savedTodos then
        match try_load h savedTodos with
        | Some (h', todosWithDates) => (h', todosWithDates)
        | None => (h, [])
        end
      else (h, [])
  end.

End Component.

Definition initial : State :=
  {| heap := ∅; todos := []; inputValue := []; selectedDate := [] |}.

(** Typing into the two inputs ([onChange]). *)
Definition setInputValue (s : JsString) (st : State) : State :=
  {| heap := heap st; todos := todos st; inputValue := s;
     selectedDate := selectedDate st |}.

Definition setSelectedDate (s : JsString) (st : State) : State :=
  {| heap := heap st; todos := todos st; inputValue := inputValue st;
     selectedDate := s |}.

(** *** The operations as the user performs them *)

(** One use of the form: the text typed into the title box, the value of
    the date box (empty when no date is picked), and the two readings of
    the clock [addTodo] takes. *)
Record Submission := {
  typed : JsString;
  picked : JsString;
  at_id : Z;
  at_created : Z
}.

(** Type a title, pick a date, press ADD. *)
Definition add {host : JsHost} (e : Submission) (st : State) : State :=
  addTodo (at_id e) (at_created e)
    (setSelectedDate (picked e) (setInputValue (typed e) st)).

Definition add_all {host : JsHost} (es : list Submission) (st : State) : State :=
  fold_left (fun st e => add e st) es st.

Definition ids (st : State) : list Z := List.map id (todos st).

(** The instant a task's due date denotes in a heap, when it has one. *)
Definition dueInstant (h : Heap) (t : Todo) : option TimeValue :=
  thisTimeValue h <$> dueDate t.

Definition is_Date (v : JsVal) : bool :=
  match v with VDate _ => true | _ => false end.

(** The property [k] of a record. *)
Definition prop (k : string) (v : JsVal) : JsVal :=
  match v with
  | VObj props => lookup_prop (js k) props
  | _ => VUndefined
  end.

(** *** What is stored

    The JSON value [JSON.stringify] writes for a Date and for a task. *)
Definition Date_json (h : Heap) (l : loc) : JsVal :=
  match thisTimeValue h l with
  | Some t => VStr (toISOString t)
  | None => VNull
  end.

Definition stored_record (h : Heap) (t : Todo) : JsVal :=
  VObj ([(js "id", VNum (id t) 0);
         (js "title", VStr (title t));
         (js "completed", VBool (completed t));
         (js "createdAt", Date_json h (createdAt t))]
        ++ match dueDate t with
           | Some l => [(js "dueDate", Date_json h l)]
           | None => []
           end).

(** *** The stored layout

    Section 6 of the specification: the item holds an array of task
    records, each with a number [id], a string [title], a boolean
    [completed], a textual [createdAt] and a [dueDate] that is textual,
    [null] or left out. *)
Definition is_task_record (v : JsVal) : bool :=
  match v with
  | VObj props =>
      match lookup_prop (js "id") props, lookup_prop (js "title") props,
            lookup_prop (js "completed") props,
            lookup_prop (js "createdAt") props,
            lookup_prop (js "dueDate") props with
      | VNum _ _, VStr _, VBool _, VStr _, (VStr _ | VNull | VUndefined) => true
      | _, _, _, _, _ => false
      end
  | _ => false
  end.

Definition schema_ok (v : JsVal) : bool :=
  match v with
  | VArr items => forallb is_task_record items
  | _ => false
  end.

(** A stored item that is absent, does not parse, or parses to something
    that is not an array of task records. *)
Definition malformed (item : option JsString) : bool :=
  match item with
  | None => true
  | Some s =>
      match JSON_parse s with
      | None => true
      | Some v => negb (schema_ok v)
      end
  end.

(** The stored items the load effect turns down: no item, the empty
    string, a text that is not JSON, a JSON value that is not an array,
    an array with a [null] in it, an array with an element whose
    [createdAt] cannot be converted to a primitive. *)
Inductive rejected : option JsString -> Prop :=
| rejected_absent : rejected None
| rejected_empty : rejected (Some [])
| rejected_syntax s : JSON_parse s = None -> rejected (Some s)
| rejected_not_array s v :
    JSON_parse s = Some v -> (forall items, v <> VArr items) ->
    rejected (Some s)
| rejected_null s items :
    JSON_parse s = Some (VArr items) -> In VNull items -> rejected (Some s)
| rejected_createdAt s items v :
    JSON_parse s = Some (VArr items) -> In v items ->
    ToPrimitive_throws (prop "createdAt" v) = true -> rejected (Some s).

(** *** Reading back what was written *)

(** The code units that may follow a value in an array or an object. *)
Definition is_sep (c : N) : bool := ((c =? 44) || (c =? 93) || (c =? 125))%N.

(** [txt] is the text of the value [v]: in front of a separator, it is
    read back as [v]. *)
Definition parses (txt : JsString) (v : JsVal) : Prop :=
  (forall r, skip_ws (txt ++ r) = txt ++ r)
  /\ forall f c r, is_sep c = true ->
       parse_value (S f) (txt ++ c :: r) = Some (v, c :: r).

(** The instant of creation of [t] is a time value in range. *)
Definition created_in_range (h : Heap) (t : Todo) : Prop :=
  exists z, thisTimeValue h (createdAt t) = Some z
            /\ Z.abs z <= 8640000000000000.

(** The record loaded for the task [t] of heap [h], in the heap [h']
    the load effect leaves: the fields as they were, [createdAt] a Date
    of the same instant, [dueDate] the stored text. *)
Definition reloaded (h h' : Heap) (t : Todo) (v : JsVal) : Prop :=
  prop "id" v = VNum (id t) 0
  /\ prop "title" v = VStr (title t)
  /\ prop "completed" v = VBool (completed t)
  /\ (exists l, prop "createdAt" v = VDate l
                /\ thisTimeValue h' l = thisTimeValue h (createdAt t))
  /\ prop "dueDate" v = match dueDate t with
                        | Some d => Date_json h d
                        | None => VUndefined
                        end.

(** *** Scenarios *)

Definition submit (text date : string) (now : Z) : Submission :=
  {| typed := js text; picked := js date; at_id := now; at_created := now |}.

(** "A" then "B", a millisecond apart, no dates. *)
Definition A_then_B {host : JsHost} : State :=
  add_all [submit "A" "" 1; submit "B" "" 2] initial.

(** "A" and "B" submitted within the same millisecond. *)
Definition same_millisecond {host : JsHost} : State :=
  add_all [submit "A" "" 1705300000000; submit "B" "" 1705300000000] initial.

(** "A", due on 15 January 2024, submitted that day at 06:26:40 UTC. *)
Definition with_due_date {host : JsHost} : State :=
  add (submit "A" "2024-01-15" 1705300000000) initial.

(** A stored item that is an array holding one empty record. *)
Definition empty_record_item : option JsString := Some (js "[{}]").

(** A stored item that is cut off after its first character. *)
Definition truncated_item : option JsString := Some (js "[").

(** ** The rest of the component

    *** The keyboard *)

(** [handleKeyPress]: Enter in the title box does what the ADD button
    does, any other key does nothing. *)
Definition handleKeyPress {host : JsHost} (key : JsString)
  (now_id now_created : Z) (st : State) : State :=
  if decide (key = js "Enter") then addTodo now_id now_created st else st.

(** *** What is rendered

    The part of the markup that is computed: which panels are there, and
    for every row its colours, its check box and its labels.  The text
    [formatDate] prints is left out ([toLocaleDateString] is defined by
    the locale data of the engine); it reads the Date and writes
    nothing. *)

Inductive Tone := Green | Red | Yellow | Blue.

(** The readings of the clock taken while one row is rendered, one for
    each call of [isOverdue] and [isDueToday] in the markup of the row:
    for the border, for the colour of the date badge and for the two
    labels. *)
Record RowClock := {
  border_overdue : Z;
  border_today : Z;
  badge_overdue : Z;
  badge_today : Z;
  label_overdue : Z;
  label_today : Z
}.

Record Badge := {
  badge_tone : Tone;
  overdue_label : bool;   (* ' (Overdue)' *)
  today_label : bool      (* ' (Today)' *)
}.

Record Row := {
  key : Z;
  border : Tone;
  checked : bool;
  struck : bool;          (* line-through *)
  text : JsString;
  badge : option Badge
}.

Record View := {
  stats_panel : option (nat * nat * nat);   (* total, completed, remaining *)
  placeholder : bool;                       (* "No tasks yet!" *)
  rows : list Row;
  clear_button : option nat                 (* Clear Completed (n) *)
}.

Section Render.
Context {host : JsHost}.

(** The chain
    [todo.completed ? green : isOverdue(todo.dueDate) ? red
     : isDueToday(todo.dueDate) ? yellow : blue],
    which the markup evaluates twice for a row. *)
Definition tone (done : bool) (dueDate : option loc) (now_overdue now_today : Z)
  (h : Heap) : Tone * Heap :=
  if done then (Green, h)
  else
    let '(over, h) := isOverdue dueDate now_overdue h in
    if over then (Red, h)
    else if isDueToday dueDate now_today h then (Yellow, h)
    else (Blue, h).

(** One row, its attributes and children in the order of the markup. *)
Definition renderRow (clk : RowClock) (todo : Todo) (h : Heap) : Row * Heap :=
  let '(b, h) := tone (completed todo) (dueDate todo)
                   (border_overdue clk) (border_today clk) h in
  let '(bd, h) :=
    match dueDate todo with
    | None => (None, h)
    | Some _ =>
        let '(bt, h) := tone (completed todo) (dueDate todo)
                          (badge_overdue clk) (badge_today clk) h in
        let '(over, h) := isOverdue (dueDate todo) (label_overdue clk) h in
        let today := isDueToday (dueDate todo) (label_today clk) h in
        (Some {| badge_tone := bt;
                 overdue_label := over && negb (completed todo);
                 today_label := today && negb (completed todo) |}, h)
    end in
  ({| key := id todo; border := b; checked := completed todo;
      struck := completed todo; text := title todo; badge := bd |}, h).

(** [todos.map((todo) => ...)]: the rows from first to last; [clock i] is
    the clock of the row at index [i]. *)
Fixpoint renderRows (clock : nat -> RowClock) (i : nat) (ts : list Todo)
  (h : Heap) : list Row * Heap :=
  match ts with
  | [] => ([], h)
  | todo :: rest =>
      let '(r, h) := renderRow (clock i) todo h in
      let '(rs, h) := renderRows clock (S i) rest h in
      (r :: rs, h)
  end.

(** One evaluation of the component function: what it shows and the
    state it leaves. *)
Definition render (clock : nat -> RowClock) (st : State) : View * State :=
  let '(rs, h) := renderRows clock 0 (todos st) (heap st) in
  ({| stats_panel :=
        if (0 <? totalCount st)%nat
        then Some (totalCount st, completedCount st,
                   (totalCount st - completedCount st)%nat)
        else None;
      placeholder := (length (todos st) =? 0)%nat;
      rows := rs;
      clear_button :=
        if (0 <? completedCount st)%nat then Some (completedCount st) else None |},
   {| heap := h; todos := todos st;
      inputValue := inputValue st; selectedDate := selectedDate st |}).

(** *** Mounting

    Both effects run after the first render, in the order of their
    declaration, the save effect with the [todos] of that render, which
    is [[]]: what the load effect leaves for [todos], and what
    [localStorage] holds afterwards. *)
Definition mount (h : Heap) (item : option JsString)
  : (Heap * list JsVal) * option JsString :=
  (loadTodos h item, saveTodos initial).

(** *** The component as a state machine *)

Inductive Event :=
| ChangeTitle (s : JsString)                       (* typing in the title box *)
| ChangeDate (s : JsString)                        (* the date box *)
| ClickAdd (now_id now_created : Z)
| KeyPress (k : JsString) (now_id now_created : Z)
| Toggle (id0 : Z)
| Delete (id0 : Z)
| ClearCompleted
| Rendering (clock : nat -> RowClock).

Definition step (e : Event) (st : State) : State :=
  match e with
  | ChangeTitle s => setInputValue s st
  | ChangeDate s => setSelectedDate s st
  | ClickAdd now_id now_created => addTodo now_id now_created st
  | KeyPress k now_id now_created => handleKeyPress k now_id now_created st
  | Toggle id0 => toggleTodo id0 st
  | Delete id0 => deleteTodo id0 st
  | ClearCompleted => clearCompleted st
  | Rendering clock => snd (render clock st)
  end.

Definition run (es : list Event) (st : State) : State :=
  fold_left (fun st e => step e st) es st.

(** The two readings of the clock an event has ready for [addTodo], when
    it calls [addTodo]. *)
Definition adds (e : Event) : option (Z * Z) :=
  match e with
  | ClickAdd now_id now_created => Some (now_id, now_created)
  | KeyPress k now_id now_created =>
      if decide (k = js "Enter") then Some (now_id, now_created) else None
  | _ => None
  end.

(** [addTodo] reads the clock only when the title is not blank. *)
Definition takes (e : Event) (st : State) : option (Z * Z) :=
  match adds e with
  | Some p => if decide (trim (inputValue st) <> []) then Some p else None
  | None => None
  end.

(** The readings [addTodo] takes while the events run, in order: what
    [Date.now()] returns, and the instant of [new Date()]. *)
Fixpoint readings (es : list Event) (st : State) : list (Z * Z) :=
  match es with
  | [] => []
  | e :: es =>
      match takes e st with Some p => [p] | None => [] end
      ++ readings es (step e st)
  end.

End Render.

Fixpoint increasing_from (lo : Z) (rs : list Z) : Prop :=
  match rs with
  | [] => True
  | r :: rs => lo < r /\ increasing_from r rs
  end.

(** Each reading of the clock is later than the one before. *)
Definition increasing (rs : list Z) : Prop :=
  match rs with
  | [] => True
  | r :: rs => increasing_from r rs
  end.

(** Each number is greater than all that follow. *)
Fixpoint strictly_decreasing (l : list Z) : Prop :=
  match l with
  | [] => True
  | x :: l => Forall (fun y => y < x) l /\ strictly_decreasing l
  end.

(** The Date objects a task refers to. *)
Definition date_locs (t : Todo) : list loc :=
  createdAt t :: match dueDate t with Some l => [l] | None => [] end.

Definition all_date_locs (st : State) : list loc :=
  flat_map date_locs (todos st).

(** Every Date object referred to exists, and none is referred to
    twice. *)
Definition dates_unshared (st : State) : Prop :=
  NoDup (all_date_locs st)
  /\ Forall (fun l => is_Some (heap st !! l)) (all_date_locs st).

(** A state whose tasks were all created at instants in range, in Date
    objects of their own. *)
Definition reloadable (st : State) : Prop :=
  dates_unshared st /\ Forall (created_in_range (heap st)) (todos st).

(** What the load effect makes of the element [v] of a stored array, in
    the heap [h'] it leaves, having started in [h]: an object with the
    properties [{...v}] copies, but [createdAt], which is a new Date
    made of [v.createdAt]. *)
Definition revived {host : JsHost} (h h' : Heap) (v v' : JsVal) : Prop :=
  exists l ps,
    v' = VObj ps
    /\ lookup_prop (js "createdAt") ps = VDate l
    /\ h !! l = None
    /\ (is_Date (prop "createdAt" v) = false ->
        thisTimeValue h' l = Date_value h (prop "createdAt" v))
    /\ forall k, k <> js "createdAt" ->
         lookup_prop k ps = lookup_prop k (spread v).

(** A title as [addTodo] stores it: not empty, no white space at either
    end. *)
Definition trimmed_title (s : JsString) : Prop :=
  s <> []
  /\ (forall c, head s = Some c -> isWhiteSpace c = false)
  /\ (forall c, last s = Some c -> isWhiteSpace c = false).

(** The number of tasks that are not completed. *)
Definition openCount (st : State) : nat :=
  length (List.filter (fun todo => negb (completed todo)) (todos st)).

(** A zone in which the local midnight of every day falls on that
    day. *)
Definition midnight_on_its_day (host : JsHost) : Prop :=
  forall d, Day (LocalTime (UTC (d * msPerDay))) = d.

(** The value of an [<input type="date">] for the day [d] of month [m]
    (1 to 12) of year [y]: YYYY-MM-DD. *)
Definition date_input_value (y m d : Z) : JsString :=
  ToZeroPaddedDecimalString y 4 ++ js "-"
  ++ ToZeroPaddedDecimalString m 2 ++ js "-"
  ++ ToZeroPaddedDecimalString d 2.

(** A clock that reads [now] at every call. *)
Definition frozen_clock (now : Z) : RowClock :=
  {| border_overdue := now; border_today := now;
     badge_overdue := now; badge_today := now;
     label_overdue := now; label_today := now |}.

(** Five hours behind Greenwich, all year. *)
Definition EST : JsHost := fixed_offset_host (-18000000).

(** *** More scenarios *)

(** A stored array of one record whose [createdAt] is an object with a
    property named [toString]. *)
Definition unconvertible_item : option JsString :=
  Some (js "[{" ++ QuoteJSONString (js "createdAt") ++ js ":{"
        ++ QuoteJSONString (js "toString") ++ js ":1}}]").

(** The form with "A" typed and 15 January 2024 picked, before ADD. *)
Definition form_filled : State :=
  setSelectedDate (js "2024-01-15") (setInputValue (js "A") initial).

(** The task [with_due_date] holds, open or completed. *)
Definition task_A (done : bool) : Todo :=
  {| id := 1705300000000; title := js "A"; completed := done;
     createdAt := 1%positive; dueDate := Some 2%positive |}.

(** "A" typed and added with the button, "B" typed and added with the
    Enter key a millisecond later. *)
Definition typing_A_then_B : list Event :=
  [ChangeTitle (js "A"); ClickAdd 1 1;
   ChangeTitle (js "B"); KeyPress (js "Enter") 2 2].

(** * Properties *)

(** ** Decimal numerals *)

Lemma digits_value_snoc ds c :
  digits_value (ds ++ [c]) = 10 * digits_value ds + digit_value c.
Proof. unfold digits_value. now rewrite fold_left_app. Qed.

Lemma digit_value_unit d : 0 <= d -> digit_value (digit_unit d) = d.
Proof. intros Hd. unfold digit_value, digit_unit. lia. Qed.

Lemma isDigit_unit d : 0 <= d < 10 -> isDigit (digit_unit d) = true.
Proof.
  intros Hd. unfold isDigit, digit_unit.
  apply andb_true_iff. split; apply N.leb_le; lia.
Qed.

Lemma decimal_digits_value fuel n :
  0 <= n < 2 ^ Z.of_nat fuel -> digits_value (decimal_digits fuel n) = n.
Proof.
  revert n. induction fuel as [|fuel IH]; intros n Hn.
  - simpl in *. unfold digits_value. simpl. lia.
  - simpl decimal_digits. destruct (Z.ltb_spec n 10) as [Hlt|Hge].
    + unfold digits_value. simpl. rewrite digit_value_unit; lia.
    + rewrite digits_value_snoc, IH, digit_value_unit.
      * pose proof (Z.div_mod n 10). lia.
      * apply Z.mod_pos_bound. lia.
      * rewrite Nat2Z.inj_succ, Z.pow_succ_r in Hn by lia.
        split; [apply Z.div_pos; lia|].
        apply Z.div_lt_upper_bound; lia.
Qed.

Lemma decimal_value n : 0 <= n -> digits_value (decimal n) = n.
Proof.
  intros Hn. unfold decimal. apply decimal_digits_value.
  split; [exact Hn|].
  rewrite Nat2Z.inj_succ, Z2Nat.id by apply Z.log2_nonneg.
  destruct (Z.eq_dec n 0) as [->|Hne]; [reflexivity|].
  apply Z.log2_spec. lia.
Qed.

Lemma decimal_digits_isDigit fuel n :
  0 <= n -> forallb isDigit (decimal_digits fuel n) = true.
Proof.
  revert n. induction fuel as [|fuel IH]; intros n Hn; [reflexivity|].
  simpl decimal_digits. destruct (Z.ltb_spec n 10) as [Hlt|Hge].
  - simpl. rewrite isDigit_unit; [reflexivity | lia].
  - rewrite forallb_app, IH by (apply Z.div_pos; lia).
    simpl. rewrite isDigit_unit; [reflexivity|].
    apply Z.mod_pos_bound. lia.
Qed.

Lemma decimal_digits_nonempty fuel n : decimal_digits (S fuel) n <> [].
Proof.
  simpl. destruct (n <? 10); [discriminate|].
  intros H. apply app_eq_nil in H. destruct H as [_ H]. discriminate.
Qed.

Lemma digits_value_zeros k ds :
  digits_value (replicate k 48%N ++ ds) = digits_value ds.
Proof. induction k as [|k IH]; [reflexivity | exact IH]. Qed.

Lemma padded_value n k :
  0 <= n -> digits_value (ToZeroPaddedDecimalString n k) = n.
Proof.
  intros Hn. unfold ToZeroPaddedDecimalString.
  rewrite digits_value_zeros. now apply decimal_value.
Qed.

Lemma padded_isDigit n k :
  0 <= n -> forallb isDigit (ToZeroPaddedDecimalString n k) = true.
Proof.
  intros Hn. unfold ToZeroPaddedDecimalString, decimal.
  rewrite forallb_app, decimal_digits_isDigit by exact Hn.
  rewrite andb_true_r. induction (_ - _)%nat; [reflexivity | assumption].
Qed.

Lemma padded_nonempty n k : ToZeroPaddedDecimalString n k <> [].
Proof.
  unfold ToZeroPaddedDecimalString, decimal. intros H.
  apply app_eq_nil in H. destruct H as [_ H].
  now apply decimal_digits_nonempty in H.
Qed.

(** A zero-padded numeral determines its number. *)
Lemma padded_inj n m k :
  0 <= n -> 0 <= m ->
  ToZeroPaddedDecimalString n k = ToZeroPaddedDecimalString m k -> n = m.
Proof.
  intros Hn Hm H. apply (f_equal digits_value) in H.
  now rewrite !padded_value in H by assumption.
Qed.

(** Two runs of digits, each followed by a code unit that is not a
    digit: the runs end at the same place. *)
Lemma digits_run_unique a b x y r r' :
  forallb isDigit a = true -> forallb isDigit b = true ->
  isDigit x = false -> isDigit y = false ->
  a ++ x :: r = b ++ y :: r' -> a = b /\ r = r'.
Proof.
  revert b. induction a as [|c a IH]; intros [|d b] Ha Hb Hx Hy H; simpl in *.
  - now inversion H.
  - inversion H; subst. apply andb_true_iff in Hb. destruct Hb. congruence.
  - inversion H; subst. apply andb_true_iff in Ha. destruct Ha. congruence.
  - inversion H; subst.
    apply andb_true_iff in Ha. apply andb_true_iff in Hb.
    destruct Ha as [_ Ha]. destruct Hb as [_ Hb].
    destruct (IH b Ha Hb Hx Hy H2) as [-> ->]. now split.
Qed.

(** ** The calendar *)

(** [YearFromDay] is the year of ECMA-262: the largest [y] whose first
    day is not after [d]. *)
Lemma YearFromDay_spec d :
  DayFromYear (YearFromDay d) <= d < DayFromYear (YearFromDay d + 1).
Proof.
  unfold YearFromDay.
  set (y := 1970 + 400 * d / 146097).
  destruct (Z.leb_spec (DayFromYear (y + 1)) d) as [H1|H1].
  - split; [exact H1|].
    unfold DayFromYear in *. subst y.
    Z.to_euclidean_division_equations; lia.
  - destruct (Z.ltb_spec d (DayFromYear y)) as [H2|H2].
    + split; [|replace (y - 1 + 1) with y by lia; exact H2].
      unfold DayFromYear in *. subst y.
      Z.to_euclidean_division_equations; lia.
    + split; [exact H2 | exact H1].
Qed.

Lemma DayFromYear_succ y : DayFromYear (y + 1) = DayFromYear y + DaysInYear y.
Proof.
  unfold DayFromYear, DaysInYear, isLeapYear.
  destruct (Z.eqb_spec (y mod 4) 0), (Z.eqb_spec (y mod 100) 0),
    (Z.eqb_spec (y mod 400) 0); simpl;
    Z.to_euclidean_division_equations; lia.
Qed.

Lemma DayWithinYear_bounds t : 0 <= DayWithinYear t < 365 + InLeapYear t.
Proof.
  unfold DayWithinYear, InLeapYear, YearFromTime.
  pose proof (YearFromDay_spec (Day t)) as H.
  rewrite DayFromYear_succ in H. unfold DaysInYear in H.
  destruct (isLeapYear _); lia.
Qed.

Lemma MonthFromTime_bounds t : 0 <= MonthFromTime t <= 11.
Proof. unfold MonthFromTime. repeat case_match; lia. Qed.

Lemma DateFromTime_bounds t : 1 <= DateFromTime t <= 31.
Proof.
  pose proof (DayWithinYear_bounds t) as H.
  unfold DateFromTime, MonthFromTime, month_start.
  assert (InLeapYear t = 0 \/ InLeapYear t = 1) as Hl
    by (unfold InLeapYear; destruct (isLeapYear _); auto).
  repeat match goal with
         | |- context [?a <? ?b] => destruct (Z.ltb_spec a b)
         end; simpl; lia.
Qed.

(** The day number is determined by the year, the month and the day of
    the month. *)
Lemma Day_from_civil t :
  Day t = MakeDay (YearFromTime t) (MonthFromTime t) (DateFromTime t).
Proof. unfold MakeDay, DateFromTime, DayWithinYear, InLeapYear. lia. Qed.

(** ** Date strings *)

Lemma weekday_name_shape w :
  exists a b c, weekday_name w = [a; b; c] /\ a <> 73%N.
Proof.
  unfold weekday_name.
  repeat case_match; (do 3 eexists; split; [reflexivity | discriminate]).
Qed.

Lemma month_name_shape m : exists a b c, month_name m = [a; b; c].
Proof. unfold month_name. repeat case_match; (do 3 eexists; reflexivity). Qed.

Lemma month_name_inj m1 m2 :
  0 <= m1 <= 11 -> 0 <= m2 <= 11 -> month_name m1 = month_name m2 -> m1 = m2.
Proof.
  intros H1 H2. unfold month_name.
  repeat match goal with
         | |- context [?a =? ?b] => destruct (Z.eqb_spec a b)
         end; intros H; try discriminate H; lia.
Qed.

Lemma signed_year_inj y1 y2 :
  (if 0 <=? y1 then [] else js "-") ++ ToZeroPaddedDecimalString (Z.abs y1) 4
  = (if 0 <=? y2 then [] else js "-") ++ ToZeroPaddedDecimalString (Z.abs y2) 4 ->
  y1 = y2.
Proof.
  pose proof (padded_isDigit (Z.abs y1) 4 (Z.abs_nonneg _)) as D1.
  pose proof (padded_isDigit (Z.abs y2) 4 (Z.abs_nonneg _)) as D2.
  pose proof (padded_nonempty (Z.abs y1) 4) as N1.
  pose proof (padded_nonempty (Z.abs y2) 4) as N2.
  destruct (Z.leb_spec 0 y1) as [P1|P1], (Z.leb_spec 0 y2) as [P2|P2];
    simpl; intros H.
  - apply padded_inj in H; lia.
  - destruct (ToZeroPaddedDecimalString (Z.abs y1) 4) as [|c r]; [done|].
    inversion H; subst. discriminate D1.
  - destruct (ToZeroPaddedDecimalString (Z.abs y2) 4) as [|c r]; [done|].
    inversion H; subst. discriminate D2.
  - inversion H as [H']. apply padded_inj in H'; lia.
Qed.

(** The date string of a time value determines its day. *)
Lemma DateString_inj t1 t2 : DateString t1 = DateString t2 -> Day t1 = Day t2.
Proof.
  unfold DateString. intros H.
  destruct (weekday_name_shape (WeekDay t1)) as (a1 & b1 & c1 & W1 & _).
  destruct (weekday_name_shape (WeekDay t2)) as (a2 & b2 & c2 & W2 & _).
  destruct (month_name_shape (MonthFromTime t1)) as (d1 & e1 & f1 & M1).
  destruct (month_name_shape (MonthFromTime t2)) as (d2 & e2 & f2 & M2).
  rewrite W1, W2, M1, M2 in H. simpl in H.
  injection H as _ _ _ Hd He Hf Hrest. subst d2 e2 f2.
  rename Hrest into H.
  assert (MonthFromTime t1 = MonthFromTime t2) as HM.
  { apply month_name_inj; try apply MonthFromTime_bounds. congruence. }
  pose proof (DateFromTime_bounds t1) as B1.
  pose proof (DateFromTime_bounds t2) as B2.
  apply digits_run_unique in H;
    [| apply padded_isDigit; lia | apply padded_isDigit; lia | done | done].
  destruct H as [HD HY].
  apply padded_inj in HD; [| lia | lia].
  apply signed_year_inj in HY.
  rewrite (Day_from_civil t1), (Day_from_civil t2). congruence.
Qed.

Lemma DateString_valid t : DateString t <> js "Invalid Date".
Proof.
  unfold DateString.
  destruct (weekday_name_shape (WeekDay t)) as (a & b & c & W & Ha).
  rewrite W. simpl. intros H. injection H as -> _. now apply Ha.
Qed.

Section DateFacts.
Context {host : JsHost}.

Lemma toDateString_eq a b :
  toDateString (Some a) = toDateString (Some b) ->
  Day (LocalTime a) = Day (LocalTime b).
Proof. apply DateString_inj. Qed.

(** Two instants with the same date string have the same local
    midnight. *)
Lemma toDateString_setHours0 a b :
  toDateString a = toDateString (Some b) -> setHours0 a = setHours0 (Some b).
Proof.
  destruct a as [a|]; simpl; intros H.
  - now rewrite (DateString_inj _ _ H).
  - symmetry in H. now apply DateString_valid in H.
Qed.

Lemma date_lt_irrefl a : date_lt a a = false.
Proof. destruct a as [a|]; simpl; [apply Z.ltb_irrefl | reflexivity]. Qed.

(** C5. For every task with a due date and every reading of the clock,
    [isOverdue] and [isDueToday], asked of the same task at the same
    instant, are never both true: a due date on today's local calendar
    day has today's local midnight, which is not before itself. *)
Theorem isOverdue_isDueToday_exclusive (h : Heap) (l : loc) (now : Z) :
  fst (isOverdue (Some l) now h) && isDueToday (Some l) now h = false.
Proof.
  apply not_true_is_false. intros H.
  apply andb_true_iff in H. destruct H as [Hover Hdue].
  simpl in Hover, Hdue.
  apply bool_decide_eq_true in Hdue.
  apply toDateString_setHours0 in Hdue.
  simpl in Hdue. rewrite Hdue in Hover. simpl in Hover.
  rewrite date_lt_irrefl in Hover. discriminate.
Qed.

Lemma setHours0_midnight t :
  setHours0 (Some t) = TimeClip (UTC (Day (LocalTime t) * msPerDay)).
Proof.
  unfold setHours0, MakeDate, MakeTime. do 2 f_equal. lia.
Qed.

Lemma TimeClip_Some t u : TimeClip t = Some u -> u = t.
Proof. unfold TimeClip. destruct (_ <=? _); congruence. Qed.

(** The rows are rendered by asking [isOverdue] first and [isDueToday]
    second, of the Date that [isOverdue] has just moved to local
    midnight.  The two answers still exclude each other in every zone
    where the local midnight of a day falls on that day. *)
Lemma isDueToday_after_isOverdue (h : Heap) (l : loc) (now : Z) :
  (forall d, Day (LocalTime (UTC (d * msPerDay))) = d) ->
  fst (isOverdue (Some l) now h)
  && isDueToday (Some l) now (snd (isOverdue (Some l) now h)) = false.
Proof.
  intros Hmid. apply not_true_is_false. intros H.
  apply andb_true_iff in H. destruct H as [Hover Hdue].
  cbn [isOverdue isDueToday fst snd] in Hover, Hdue.
  apply bool_decide_eq_true in Hdue.
  unfold thisTimeValue in Hdue at 1. rewrite lookup_insert_eq in Hdue.
  cbn [default] in Hdue.
  destruct (thisTimeValue h l) as [t|]; [|discriminate Hover].
  rewrite !setHours0_midnight in Hover. rewrite setHours0_midnight in Hdue.
  destruct (TimeClip (UTC (Day (LocalTime t) * msPerDay))) as [u|] eqn:Eu;
    [|discriminate Hover].
  apply TimeClip_Some in Eu as Hu. subst u.
  apply toDateString_eq in Hdue. rewrite Hmid in Hdue.
  rewrite <- Hdue, Eu in Hover. simpl in Hover.
  rewrite Z.ltb_irrefl in Hover. discriminate.
Qed.

End DateFacts.

(** A zone at a fixed offset is such a zone. *)
Lemma fixed_offset_midnight tza d :
  Day (LocalTime (host := fixed_offset_host tza)
         (UTC (host := fixed_offset_host tza) (d * msPerDay))) = d.
Proof.
  unfold LocalTime, UTC, Day. simpl.
  replace (d * msPerDay - tza + tza) with (d * msPerDay) by lia.
  apply Z.div_mul. discriminate.
Qed.

(** ** The handlers *)

Section Handlers.
Context {host : JsHost}.

Lemma addTodo_todos now_id now_created st :
  trim (inputValue st) <> [] ->
  exists c d h,
    addTodo now_id now_created st
    = {| heap := h;
         todos := {| id := now_id; title := trim (inputValue st);
                     completed := false; createdAt := c; dueDate := d |}
                  :: todos st;
         inputValue := []; selectedDate := [] |}.
Proof.
  intros Hne. unfold addTodo. rewrite decide_True by exact Hne.
  destruct (alloc (heap st) _) as [c h].
  destruct (truthy_string _).
  - destruct (alloc h _) as [l h']. now exists c, (Some l), h'.
  - now exists c, None, h.
Qed.

(** C6. A title that is empty once trimmed: [addTodo] returns the state
    it was given, the collection included, whatever the date box holds;
    it has no other outcome that could signal an error. *)
Theorem addTodo_blank now_id now_created st :
  trim (inputValue st) = [] -> addTodo now_id now_created st = st.
Proof. intros Hb. unfold addTodo. now rewrite decide_False by congruence. Qed.

Lemma toggleTodo_absent x ts :
  Forall (fun t => id t <> x) ts ->
  List.map (fun todo =>
       if id todo =? x
       then {| id := id todo; title := title todo;
               completed := negb (completed todo);
               createdAt := createdAt todo; dueDate := dueDate todo |}
       else todo) ts = ts.
Proof.
  induction 1 as [|t ts Ht _ IH]; [reflexivity|].
  simpl. rewrite IH. destruct (Z.eqb_spec (id t) x); [contradiction | reflexivity].
Qed.

Lemma deleteTodo_absent x ts :
  Forall (fun t => id t <> x) ts ->
  List.filter (fun todo => negb (id todo =? x)) ts = ts.
Proof.
  induction 1 as [|t ts Ht _ IH]; [reflexivity|].
  simpl. rewrite IH. destruct (Z.eqb_spec (id t) x); [contradiction | reflexivity].
Qed.

Lemma set_todos_id f st : f (todos st) = todos st -> set_todos f st = st.
Proof. intros H. unfold set_todos. rewrite H. now destruct st. Qed.

(** C7. An id that no task of the collection carries: [deleteTodo] and
    [toggleTodo] both return the state unchanged. *)
Theorem delete_toggle_absent x st :
  Forall (fun t => id t <> x) (todos st) ->
  deleteTodo x st = st /\ toggleTodo x st = st.
Proof.
  intros H. split; apply set_todos_id.
  - now apply deleteTodo_absent.
  - now apply toggleTodo_absent.
Qed.

Lemma add_todos e st :
  trim (typed e) <> [] ->
  exists t, todos (add e st) = t :: todos st
            /\ title t = trim (typed e) /\ id t = at_id e
            /\ completed t = false.
Proof.
  intros Hne. unfold add.
  destruct (addTodo_todos (at_id e) (at_created e)
              (setSelectedDate (picked e) (setInputValue (typed e) st)) Hne)
    as (c & d & h & ->).
  simpl. eexists. repeat split; reflexivity.
Qed.

(** C8. Submitting titles that are not blank, one after the other: the
    tasks created stand in front of the tasks that were there, the last
    created first, each with its trimmed title. *)
Theorem add_all_newest_first es st :
  Forall (fun e => trim (typed e) <> []) es ->
  exists new,
    todos (add_all es st) = new ++ todos st
    /\ List.map title new = rev (List.map (fun e => trim (typed e)) es).
Proof.
  intros H. revert st. induction H as [|e es He _ IH]; intros st.
  - exists []. now split.
  - simpl. destruct (add_todos e st He) as (t & Ht & Htitle & _).
    destruct (IH (add e st)) as (new & Hnew & Htitles).
    exists (new ++ [t]). split.
    + rewrite Hnew, Ht, <- app_assoc. reflexivity.
    + rewrite map_app, Htitles. simpl. now rewrite Htitle.
Qed.

End Handlers.

(** ** Removing tasks *)

Lemma filter_sublist {A} (f : A -> bool) (l : list A) :
  sublist (List.filter f l) l.
Proof.
  induction l as [|x l IH]; simpl; [constructor|].
  destruct (f x); now constructor.
Qed.

(** C9. The clear-completed click keeps the tasks that are not
    completed, as they are and in their order, removes the others and
    leaves the Date objects alone.  After adding A and B, toggling A and
    clearing, B alone is left, not completed. *)
Theorem clearCompleted_exact :
  (forall st t, In t (todos (clearCompleted st))
                <-> In t (todos st) /\ completed t = false)
  /\ (forall st, sublist (todos (clearCompleted st)) (todos st))
  /\ (forall st, heap (clearCompleted st) = heap st)
  /\ (forall host : JsHost,
        List.map (fun t => (title t, completed t))
          (todos (clearCompleted (toggleTodo 1 A_then_B)))
        = [(js "B", false)]).
Proof.
  split; [|split; [|split]].
  - intros st t. simpl. rewrite filter_In, negb_true_iff. tauto.
  - intros st. apply filter_sublist.
  - reflexivity.
  - reflexivity.
Qed.

Lemma filter_length_count (x : Z) (ts : list Todo) :
  length ts
  = (length (List.filter (fun todo => negb (id todo =? x)%Z) ts)
     + count_occ Z.eq_dec (List.map id ts) x)%nat.
Proof.
  induction ts as [|t ts IH]; [reflexivity|].
  simpl. destruct (Z.eqb_spec (id t) x) as [E|E]; simpl.
  - destruct (Z.eq_dec (id t) x); [lia | contradiction].
  - destruct (Z.eq_dec (id t) x); [contradiction | lia].
Qed.

(** C10. [deleteTodo] removes every task that carries the id, however
    many there are, and no other.  With A and B created in the same
    millisecond, one deletion removes both. *)
Theorem deleteTodo_removes_all :
  (forall x st t, In t (todos (deleteTodo x st))
                  <-> In t (todos st) /\ id t <> x)
  /\ (forall x st,
        length (todos st)
        = (length (todos (deleteTodo x st))
           + count_occ Z.eq_dec (ids st) x)%nat)
  /\ (forall host : JsHost,
        ids same_millisecond = [1705300000000; 1705300000000]
        /\ todos (deleteTodo 1705300000000 same_millisecond) = []).
Proof.
  split; [|split].
  - intros x st t. simpl. rewrite filter_In, negb_true_iff, Z.eqb_neq. tauto.
  - intros x st. apply filter_length_count.
  - intros host. split; reflexivity.
Qed.

(** ** Ids *)

Section Ids.
Context {host : JsHost}.

(** The id of a task is the reading of the clock at its creation. *)
Lemma add_all_ids es st :
  Forall (fun e => trim (typed e) <> []) es ->
  ids (add_all es st) = rev (List.map at_id es) ++ ids st.
Proof.
  intros H. revert st. induction H as [|e es He _ IH]; intros st.
  - reflexivity.
  - simpl. rewrite IH. destruct (add_todos e st He) as (t & Ht & _ & Hid & _).
    unfold ids at 1. rewrite Ht. simpl. rewrite Hid, <- app_assoc. reflexivity.
Qed.

(** Ids are distinct as long as no two readings of the clock agree. *)
Lemma add_all_ids_NoDup es :
  Forall (fun e => trim (typed e) <> []) es ->
  List.NoDup (List.map at_id es) -> List.NoDup (ids (add_all es initial)).
Proof.
  intros H Hnd. rewrite add_all_ids by exact H.
  unfold ids. simpl. rewrite app_nil_r. now apply List.NoDup_rev.
Qed.

(** C2. Two tasks created within one millisecond carry the same id:
    the ids of the collection are not pairwise distinct. *)
Theorem same_millisecond_same_id :
  ids same_millisecond = [1705300000000; 1705300000000]
  /\ ~ List.NoDup (ids same_millisecond).
Proof.
  assert (ids same_millisecond = [1705300000000; 1705300000000]) as E
    by reflexivity.
  split; [exact E|]. rewrite E. intros H.
  apply List.NoDup_cons_iff in H. destruct H as [H _]. apply H. now left.
Qed.

End Ids.

(** ** What the handlers leave alone *)

Section Frame.
Context {host : JsHost}.

Lemma alloc_fresh (h : Heap) tv : h !! fst (alloc h tv) = None.
Proof. unfold alloc. simpl. apply not_elem_of_dom, is_fresh. Qed.

Lemma alloc_keeps (h : Heap) tv l :
  is_Some (h !! l) -> snd (alloc h tv) !! l = h !! l.
Proof.
  intros Hl. unfold alloc. simpl. apply lookup_insert_ne.
  intros E. rewrite <- E in Hl.
  pose proof (alloc_fresh h tv) as Hf. unfold alloc in Hf. simpl in Hf.
  rewrite Hf in Hl. now destruct Hl.
Qed.

(** [addTodo] keeps the tasks it finds and every Date object that
    exists. *)
Lemma addTodo_frame now_id now_created st :
  (exists new, todos (addTodo now_id now_created st) = new ++ todos st)
  /\ (forall l, is_Some (heap st !! l) ->
                 heap (addTodo now_id now_created st) !! l = heap st !! l).
Proof.
  unfold addTodo. destruct (decide _) as [Hne|Hb].
  - pose proof (alloc_keeps (heap st) (Some now_created)) as K1.
    destruct (alloc (heap st) _) as [c h1]. simpl in K1.
    destruct (truthy_string _).
    + pose proof (alloc_keeps h1 (Date_parse (selectedDate st))) as K2.
      destruct (alloc h1 _) as [l h2]. simpl in *. split.
      * now eexists [_].
      * intros l' Hl'. rewrite K2; [now apply K1|]. now rewrite K1.
    + simpl. split; [now eexists [_] | exact K1].
  - split; [now exists [] | reflexivity].
Qed.

(** [toggleTodo] writes no Date object and changes no field but
    [completed], and that one on the tasks with the id only. *)
Lemma toggleTodo_frame x st :
  heap (toggleTodo x st) = heap st
  /\ Forall2 (fun t t' =>
        id t' = id t /\ title t' = title t /\ createdAt t' = createdAt t
        /\ dueDate t' = dueDate t
        /\ completed t' = if id t =? x then negb (completed t) else completed t)
      (todos st) (todos (toggleTodo x st)).
Proof.
  split; [reflexivity|]. simpl.
  induction (todos st) as [|t ts IH]; simpl; constructor; [|exact IH].
  destruct (id t =? x); simpl; repeat split; reflexivity.
Qed.

Lemma deleteTodo_frame x st :
  heap (deleteTodo x st) = heap st
  /\ sublist (todos (deleteTodo x st)) (todos st).
Proof. split; [reflexivity | apply filter_sublist]. Qed.

(** [isOverdue] writes the local midnight of the due date into the Date
    object it is given, and nothing else. *)
Lemma isOverdue_heap l now (h : Heap) :
  snd (isOverdue (Some l) now h) !! l = Some (setHours0 (thisTimeValue h l))
  /\ forall l', l' <> l -> snd (isOverdue (Some l) now h) !! l' = h !! l'.
Proof.
  simpl. split.
  - apply lookup_insert_eq.
  - intros l' Hne. now apply lookup_insert_ne.
Qed.

End Frame.

(** C3. In a zone that is not on UTC, [isOverdue] changes the due date
    of the task it is asked about: the date picked, midnight UTC of
    15 January 2024, becomes midnight of that day in Indian Standard
    Time, five and a half hours earlier. *)
Theorem isOverdue_moves_dueDate :
  exists t,
    todos (with_due_date (host := IST)) = [t]
    /\ dueInstant (heap (with_due_date (host := IST))) t
       = Some (Some 1705276800000)
    /\ dueInstant
         (snd (isOverdue (host := IST) (dueDate t) 1705300000000
                 (heap (with_due_date (host := IST))))) t
       = Some (Some 1705257000000).
Proof. eexists. split; [reflexivity|]. split; reflexivity. Qed.

(** ** Reading back what was written *)

(** *** String literals *)

Lemma hex_value_digit n : (n < 16)%N -> hex_value (hex_digit n) = Some n.
Proof.
  intros Hn. unfold hex_value, hex_digit.
  destruct (N.ltb_spec n 10) as [H|H].
  - replace ((48 <=? 48 + n) && (48 + n <=? 57))%N with true
      by (symmetry; apply andb_true_iff; split; apply N.leb_le; lia).
    f_equal. lia.
  - replace ((48 <=? 87 + n) && (87 + n <=? 57))%N with false
      by (symmetry; apply andb_false_iff; right; apply N.leb_gt; lia).
    replace ((65 <=? 87 + n) && (87 + n <=? 70))%N with false
      by (symmetry; apply andb_false_iff; right; apply N.leb_gt; lia).
    replace ((97 <=? 87 + n) && (87 + n <=? 102))%N with true
      by (symmetry; apply andb_true_iff; split; apply N.leb_le; lia).
    f_equal. lia.
Qed.

Lemma unicode_escape_units c :
  (c < 65536)%N ->
  unicode_escape (hex_digit (c / 4096 mod 16)) (hex_digit (c / 256 mod 16))
    (hex_digit (c / 16 mod 16)) (hex_digit (c mod 16)) = Some c.
Proof.
  intros Hc. unfold unicode_escape.
  rewrite !hex_value_digit by (apply N.mod_lt; discriminate).
  simpl. f_equal. zify. Z.to_euclidean_division_equations. lia.
Qed.

Lemma rev_cons_app {A} (x : A) acc s : rev (x :: acc) ++ s = rev acc ++ x :: s.
Proof. simpl. now rewrite <- app_assoc. Qed.

Ltac snoc_done := simpl; rewrite <- ?app_assoc; reflexivity.

Lemma parse_chars_plain c r acc :
  (c =? 34)%N = false -> (c =? 92)%N = false -> (c <? 0x20)%N = false ->
  parse_chars (c :: r) acc = parse_chars r (c :: acc).
Proof. intros H1 H2 H3. simpl. now rewrite H1, H2, H3. Qed.

Lemma parse_chars_unicode c r acc :
  (c < 65536)%N ->
  parse_chars (UnicodeEscape c ++ r) acc = parse_chars r (c :: acc).
Proof.
  intros Hc. unfold UnicodeEscape.
  cbn [app parse_chars N.eqb Pos.eqb].
  now rewrite unicode_escape_units.
Qed.

Lemma parse_chars_quote n :
  forall s, (length s <= n)%nat -> forall acc rest,
  parse_chars (quote_units s ++ 34%N :: rest) acc = Some (rev acc ++ s, rest).
Proof.
  induction n as [|n IH]; intros [|c r] Hlen acc rest;
    try (simpl in Hlen; lia).
  - simpl. now rewrite app_nil_r.
  - simpl. now rewrite app_nil_r.
  - simpl in Hlen. assert (length r <= n)%nat as Hr by lia.
    cbn [quote_units].
    destruct (N.eqb_spec c 0x08) as [->|N1];
      [cbn; rewrite (IH r Hr); snoc_done|].
    destruct (N.eqb_spec c 0x09) as [->|N2];
      [cbn; rewrite (IH r Hr); snoc_done|].
    destruct (N.eqb_spec c 0x0A) as [->|N3];
      [cbn; rewrite (IH r Hr); snoc_done|].
    destruct (N.eqb_spec c 0x0C) as [->|N4];
      [cbn; rewrite (IH r Hr); snoc_done|].
    destruct (N.eqb_spec c 0x0D) as [->|N5];
      [cbn; rewrite (IH r Hr); snoc_done|].
    destruct (N.eqb_spec c 0x22) as [->|N6];
      [cbn; rewrite (IH r Hr); snoc_done|].
    destruct (N.eqb_spec c 0x5C) as [->|N7];
      [cbn; rewrite (IH r Hr); snoc_done|].
    destruct (N.ltb_spec c 0x20) as [L|L].
    { rewrite <- app_assoc, parse_chars_unicode by lia.
      rewrite (IH r Hr). snoc_done. }
    assert (parse_chars (c :: quote_units r ++ 34%N :: rest) acc
            = Some (rev acc ++ c :: r, rest)) as Hplain.
    { rewrite parse_chars_plain;
        [| now apply N.eqb_neq | now apply N.eqb_neq | now apply N.ltb_ge].
      rewrite (IH r Hr). snoc_done. }
    unfold isLeadingSurrogate, isTrailingSurrogate.
    destruct (N.leb_spec 0xD800 c) as [S1|S1],
             (N.leb_spec c 0xDBFF) as [S2|S2]; cbn [andb].
    + destruct r as [|d r'].
      * rewrite parse_chars_unicode by lia. simpl. snoc_done.
      * destruct (N.leb_spec 0xDC00 d) as [T1|T1],
                 (N.leb_spec d 0xDFFF) as [T2|T2]; cbn [andb].
        -- cbn [app].
           rewrite parse_chars_plain;
             [| apply N.eqb_neq; lia | apply N.eqb_neq; lia | apply N.ltb_ge; lia].
           rewrite parse_chars_plain;
             [| apply N.eqb_neq; lia | apply N.eqb_neq; lia | apply N.ltb_ge; lia].
           simpl in Hr. rewrite (IH r') by lia.
           snoc_done.
        -- rewrite <- app_assoc, parse_chars_unicode by lia.
           rewrite (IH _ Hr). snoc_done.
        -- rewrite <- app_assoc, parse_chars_unicode by lia.
           rewrite (IH _ Hr). snoc_done.
        -- rewrite <- app_assoc, parse_chars_unicode by lia.
           rewrite (IH _ Hr). snoc_done.
    + destruct (N.leb_spec 0xDC00 c) as [T1|T1],
               (N.leb_spec c 0xDFFF) as [T2|T2]; cbn [andb];
        try exact Hplain.
      rewrite <- app_assoc, parse_chars_unicode by lia.
      rewrite (IH r Hr). snoc_done.
    + destruct (N.leb_spec 0xDC00 c) as [T1|T1],
               (N.leb_spec c 0xDFFF) as [T2|T2]; cbn [andb];
        try exact Hplain.
      lia.
    + lia.
Qed.

Lemma parse_string_quote s rest :
  parse_string (QuoteJSONString s ++ rest) = Some (s, rest).
Proof.
  unfold QuoteJSONString. cbn [app parse_string N.eqb Pos.eqb].
  rewrite <- app_assoc. cbn [app].
  now rewrite (parse_chars_quote (length s) s (le_n _) [] rest).
Qed.

(** *** Numbers *)

Lemma span_digits_run ds c r :
  forallb isDigit ds = true -> isDigit c = false ->
  span_digits (ds ++ c :: r) = (ds, c :: r).
Proof.
  intros Hds Hc. induction ds as [|d ds IH]; simpl.
  - now rewrite Hc.
  - simpl in Hds. apply andb_true_iff in Hds. destruct Hds as [Hd Hds].
    now rewrite Hd, IH.
Qed.

Lemma decimal_digits_head fuel n :
  1 <= n < 2 ^ Z.of_nat fuel ->
  exists d ds, decimal_digits fuel n = d :: ds /\ d <> 48%N.
Proof.
  revert n. induction fuel as [|fuel IH]; intros n Hn.
  - simpl in Hn. lia.
  - simpl decimal_digits. destruct (Z.ltb_spec n 10) as [Hlt|Hge].
    + eexists _, []. split; [reflexivity|]. unfold digit_unit. lia.
    + destruct (IH (n / 10)) as (d & ds & E & Hd).
      * rewrite Nat2Z.inj_succ, Z.pow_succ_r in Hn by lia.
        split; [apply Z.div_le_lower_bound; lia|].
        apply Z.div_lt_upper_bound; lia.
      * rewrite E. now exists d, (ds ++ [digit_unit (n mod 10)]).
Qed.

(** A decimal numeral has no leading zero, unless it is "0". *)
Lemma decimal_head n :
  0 <= n ->
  exists d ds, decimal n = d :: ds
               /\ (d =? 48)%N && negb (length ds =? 0)%nat = false.
Proof.
  intros Hn. destruct (Z.eq_dec n 0) as [->|Hne].
  - now exists 48%N, [].
  - destruct (decimal_digits_head (S (Z.to_nat (Z.log2 n))) n)
      as (d & ds & E & Hd).
    + split; [lia|].
      rewrite Nat2Z.inj_succ, Z2Nat.id by apply Z.log2_nonneg.
      apply Z.log2_spec. lia.
    + exists d, ds. split; [exact E|].
      apply N.eqb_neq in Hd. now rewrite Hd.
Qed.

Lemma decimal_isDigit n : 0 <= n -> forallb isDigit (decimal n) = true.
Proof. intros Hn. now apply decimal_digits_isDigit. Qed.

Lemma is_sep_cases c : is_sep c = true -> c = 44%N \/ c = 93%N \/ c = 125%N.
Proof.
  unfold is_sep. intros H.
  repeat (apply orb_true_iff in H; destruct H as [H|H]);
    apply N.eqb_eq in H; auto.
Qed.

Lemma parse_unsigned_decimal n c r neg :
  0 <= n -> is_sep c = true ->
  parse_unsigned neg (decimal n ++ c :: r)
  = Some (VNum (if neg then - n else n) 0, c :: r).
Proof.
  intros Hn Hc.
  destruct (decimal_head n Hn) as (d & ds & E & Hz).
  pose proof (decimal_isDigit n Hn) as Hd.
  unfold parse_unsigned.
  rewrite span_digits_run;
    [| exact Hd
     | destruct (is_sep_cases c Hc) as [->|[->| ->]]; reflexivity].
  rewrite E at 1. rewrite Hz.
  replace (VNum (if neg then - n else n) 0)
    with (VNum (if neg then - digits_value (decimal n ++ [])
                else digits_value (decimal n ++ [])) (0 - Z.of_nat 0))
    by (rewrite app_nil_r, decimal_value by exact Hn; reflexivity).
  destruct (is_sep_cases c Hc) as [->|[->| ->]]; reflexivity.
Qed.

Lemma parse_number_toString n c r :
  is_sep c = true ->
  parse_number (Number_toString n ++ c :: r) = Some (VNum n 0, c :: r).
Proof.
  intros Hc. unfold Number_toString, parse_number.
  destruct (Z.ltb_spec n 0) as [Hneg|Hpos].
  - change (js "-" ++ decimal (- n)) with (45%N :: decimal (- n)).
    cbn [app parse_sign]. change (45 =? 45)%N with true. cbn iota.
    rewrite parse_unsigned_decimal by (lia || exact Hc).
    do 3 f_equal. lia.
  - destruct (decimal_head n Hpos) as (d & ds & E & _).
    pose proof (decimal_isDigit n Hpos) as Hd.
    assert (parse_sign (decimal n ++ c :: r) = (false, decimal n ++ c :: r))
      as ->.
    { rewrite E in *. unfold parse_sign. cbn [app].
      replace (d =? 45)%N with false; [reflexivity|].
      symmetry. apply N.eqb_neq. intros ->. discriminate Hd. }
    now apply parse_unsigned_decimal.
Qed.

(** *** Values, objects and arrays *)

Lemma Number_toString_head n :
  exists h tl, Number_toString n = h :: tl /\ (h = 45%N \/ isDigit h = true).
Proof.
  unfold Number_toString. destruct (Z.ltb_spec n 0) as [Hneg|Hpos].
  - exists 45%N, (decimal (- n)). split; [reflexivity | now left].
  - destruct (decimal_head n Hpos) as (d & ds & E & _).
    pose proof (decimal_isDigit n Hpos) as Hd. rewrite E in Hd.
    exists d, ds. split; [exact E|]. right.
    simpl in Hd. now apply andb_true_iff in Hd.
Qed.

Lemma number_head_tests h :
  h = 45%N \/ isDigit h = true ->
  isJsonWhiteSpace h = false
  /\ (h =? 110)%N = false /\ (h =? 116)%N = false /\ (h =? 102)%N = false
  /\ (h =? 34)%N = false /\ (h =? 91)%N = false /\ (h =? 123)%N = false.
Proof.
  intros [->|H]; [repeat split; reflexivity|].
  unfold isDigit in H. apply andb_true_iff in H. destruct H as [H1 H2].
  apply N.leb_le in H1. apply N.leb_le in H2. unfold isJsonWhiteSpace.
  repeat split; repeat (apply orb_false_iff; split); apply N.eqb_neq; lia.
Qed.

Lemma parses_number n : parses (Number_toString n) (VNum n 0).
Proof.
  destruct (Number_toString_head n) as (h & tl & E & Hh).
  destruct (number_head_tests h Hh) as (W & T1 & T2 & T3 & T4 & T5 & T6).
  split.
  - intros r. rewrite E. cbn [app skip_ws]. now rewrite W.
  - intros f c r Hc. rewrite <- (parse_number_toString n c r Hc).
    rewrite E. cbn [app parse_value]. now rewrite T1, T2, T3, T4, T5, T6.
Qed.

Lemma parses_string s : parses (QuoteJSONString s) (VStr s).
Proof.
  split.
  - intros r. reflexivity.
  - intros f c r Hc.
    pose proof (parse_string_quote s (c :: r)) as H.
    unfold QuoteJSONString in *. cbn [app parse_value] in *.
    change (34 =? 110)%N with false. change (34 =? 116)%N with false.
    change (34 =? 102)%N with false. change (34 =? 34)%N with true.
    cbn iota. now rewrite H.
Qed.

Lemma parses_bool (b : bool) : parses (js (if b then "true" else "false")) (VBool b).
Proof. split; intros; destruct b; reflexivity. Qed.

Lemma parses_null : parses (js "null") VNull.
Proof. split; intros; reflexivity. Qed.

Lemma member_more f k txt v r acc :
  parses txt v ->
  parse_members (S (S f)) (QuoteJSONString k ++ js ":" ++ txt ++ js "," ++ r) acc
  = parse_members (S f) r (set_prop k v acc).
Proof.
  intros [Hws Hp].
  change (js ":" ++ txt ++ js "," ++ r) with (58%N :: txt ++ 44%N :: r).
  cbn [parse_members].
  change (skip_ws (QuoteJSONString k ++ 58%N :: txt ++ 44%N :: r))
    with (QuoteJSONString k ++ 58%N :: txt ++ 44%N :: r).
  rewrite parse_string_quote. cbn [mbind option_bind].
  change (expect 58 (skip_ws (58%N :: txt ++ 44%N :: r)))
    with (Some (txt ++ 44%N :: r)).
  cbn [mbind option_bind].
  rewrite Hws, Hp by reflexivity. reflexivity.
Qed.

Lemma member_last f k txt v r acc :
  parses txt v ->
  parse_members (S (S f)) (QuoteJSONString k ++ js ":" ++ txt ++ js "}" ++ r) acc
  = Some (VObj (set_prop k v acc), r).
Proof.
  intros [Hws Hp].
  change (js ":" ++ txt ++ js "}" ++ r) with (58%N :: txt ++ 125%N :: r).
  cbn [parse_members].
  change (skip_ws (QuoteJSONString k ++ 58%N :: txt ++ 125%N :: r))
    with (QuoteJSONString k ++ 58%N :: txt ++ 125%N :: r).
  rewrite parse_string_quote. cbn [mbind option_bind].
  change (expect 58 (skip_ws (58%N :: txt ++ 125%N :: r)))
    with (Some (txt ++ 125%N :: r)).
  cbn [mbind option_bind].
  rewrite Hws, Hp by reflexivity. reflexivity.
Qed.

Lemma parses_date h l : parses (Date_toJSON h l) (Date_json h l).
Proof.
  unfold Date_toJSON, Date_json. destruct (thisTimeValue h l).
  - apply parses_string.
  - apply parses_null.
Qed.

Lemma parse_value_object f k rest :
  parse_value (S f) (js "{" ++ QuoteJSONString k ++ rest)
  = parse_members f (QuoteJSONString k ++ rest) [].
Proof. reflexivity. Qed.

Lemma parse_value_todo h t f c r :
  is_sep c = true ->
  parse_value (S (S (S (S (S (S (S f))))))) (stringify_todo h t ++ c :: r)
  = Some (stored_record h t, c :: r).
Proof.
  intros Hc. unfold stringify_todo, SerializeJSONObject, stored_record.
  destruct (dueDate t) as [d|];
    cbn [omap list_omap mbind option_bind fmap option_fmap option_map join];
    rewrite <- !app_assoc; rewrite parse_value_object.
  - rewrite (member_more _ _ _ _ _ _ (parses_number _)).
    rewrite (member_more _ _ _ _ _ _ (parses_string _)).
    rewrite (member_more _ _ _ _ _ _ (parses_bool _)).
    rewrite (member_more _ _ _ _ _ _ (parses_date _ _)).
    rewrite (member_last _ _ _ _ _ _ (parses_date _ _)).
    reflexivity.
  - rewrite (member_more _ _ _ _ _ _ (parses_number _)).
    rewrite (member_more _ _ _ _ _ _ (parses_string _)).
    rewrite (member_more _ _ _ _ _ _ (parses_bool _)).
    rewrite (member_last _ _ _ _ _ _ (parses_date _ _)).
    reflexivity.
Qed.

Lemma skip_ws_todo h t r : skip_ws (stringify_todo h t ++ r) = stringify_todo h t ++ r.
Proof. reflexivity. Qed.

Lemma stringify_todo_length h t : (8 <= length (stringify_todo h t))%nat.
Proof.
  unfold stringify_todo, SerializeJSONObject.
  cbn [omap list_omap mbind option_bind fmap option_fmap option_map join].
  destruct (dueDate t); cbn [fmap option_fmap option_map join];
    rewrite !length_app; simpl; lia.
Qed.

Lemma parse_value_todo_fuel h t f c r :
  (7 <= f)%nat -> is_sep c = true ->
  parse_value f (stringify_todo h t ++ c :: r) = Some (stored_record h t, c :: r).
Proof.
  intros Hf Hc. do 7 (destruct f as [|f]; [lia|]).
  now apply parse_value_todo.
Qed.

Lemma join_cons2 (sep x y : JsString) l r :
  join sep (x :: y :: l) ++ r = x ++ sep ++ join sep (y :: l) ++ r.
Proof. cbn [join]. now rewrite <- !app_assoc. Qed.

Lemma parse_elements_step f s acc :
  parse_elements (S f) s acc
  = '(v, r) ← parse_value f (skip_ws s);
    match skip_ws r with
    | 44%N :: r' => parse_elements f r' (v :: acc)
    | 93%N :: r' => Some (VArr (rev (v :: acc)), r')
    | _ => None
    end.
Proof. reflexivity. Qed.

Lemma parse_elements_todos h ts :
  forall t f acc r,
  (length ts + 7 <= f)%nat ->
  parse_elements (S f)
    (join (js ",") (List.map (stringify_todo h) (t :: ts)) ++ js "]" ++ r) acc
  = Some (VArr (rev acc ++ List.map (stored_record h) (t :: ts)), r).
Proof.
  induction ts as [|t' ts IH]; intros t f acc r Hf; rewrite parse_elements_step.
  - cbn [List.map join].
    change (js "]" ++ r) with (93%N :: r).
    rewrite skip_ws_todo, parse_value_todo_fuel by (reflexivity || lia).
    reflexivity.
  - cbn [List.map]. rewrite join_cons2.
    change (js "," ++ ?x) with (44%N :: x).
    rewrite skip_ws_todo, parse_value_todo_fuel
      by (reflexivity || (simpl in Hf; lia)).
    cbn [mbind option_bind skip_ws isJsonWhiteSpace N.eqb Pos.eqb orb].
    destruct f as [|f]; [simpl in Hf; lia|].
    change (stringify_todo h t' :: List.map (stringify_todo h) ts)
      with (List.map (stringify_todo h) (t' :: ts)).
    rewrite IH by (simpl in Hf; lia).
    cbn [rev List.map]. now rewrite <- app_assoc.
Qed.

Lemma parse_value_array f x l rest h t :
  x = stringify_todo h t ->
  parse_value (S f) (js "[" ++ join (js ",") (x :: l) ++ rest)
  = parse_elements f (join (js ",") (x :: l) ++ rest) [].
Proof. intros ->. destruct l; reflexivity. Qed.

Lemma join_length h ts :
  (8 * length ts <= length (join (js ",") (List.map (stringify_todo h) ts)))%nat.
Proof.
  induction ts as [|t [|t' ts] IH].
  - cbn [length]. lia.
  - pose proof (stringify_todo_length h t). cbn [List.map join length]. lia.
  - pose proof (stringify_todo_length h t).
    cbn [List.map] in *.
    change (join (js ",") (stringify_todo h t :: stringify_todo h t'
                           :: List.map (stringify_todo h) ts))
      with (stringify_todo h t ++ js ","
            ++ join (js ",") (stringify_todo h t'
                              :: List.map (stringify_todo h) ts)).
    rewrite !length_app. cbn [length] in *. lia.
Qed.

(** What [JSON.stringify] writes for a list of tasks, [JSON.parse] reads
    back as the array of their stored records. *)
Lemma JSON_parse_stringify h ts :
  JSON_parse (JSON_stringify h ts) = Some (VArr (List.map (stored_record h) ts)).
Proof.
  destruct ts as [|t ts]; [reflexivity|].
  unfold JSON_parse, JSON_stringify, SerializeJSONArray.
  pose proof (join_length h (t :: ts)) as Hlen.
  set (text := js "[" ++ join (js ",") (List.map (stringify_todo h) (t :: ts))
               ++ js "]") in *.
  assert (8 * length (t :: ts) + 2 <= length text)%nat as Htext.
  { unfold text. rewrite !length_app.
    change (length (js "[")) with 1%nat. change (length (js "]")) with 1%nat.
    lia. }
  destruct (2 * length text + 2)%nat as [|[|f]] eqn:Ef; [lia | lia |].
  change (skip_ws text) with text. unfold text.
  cbn [List.map].
  rewrite (parse_value_array _ _ _ _ h t eq_refl).
  change (js "]") with (js "]" ++ []).
  change (stringify_todo h t :: List.map (stringify_todo h) ts)
    with (List.map (stringify_todo h) (t :: ts)).
  rewrite parse_elements_todos by (cbn [length] in Htext; lia).
  reflexivity.
Qed.

(** *** ISO date strings *)

Lemma decimal_digits_length fuel : forall n k,
  0 <= n < 10 ^ Z.of_nat k -> (1 <= k)%nat ->
  (length (decimal_digits fuel n) <= k)%nat.
Proof.
  induction fuel as [|fuel IH]; intros n k Hn Hk; [simpl; lia|].
  simpl decimal_digits. destruct (Z.ltb_spec n 10) as [Hlt|Hge].
  - simpl. lia.
  - destruct k as [|[|k]]; [lia | simpl in Hn; lia |].
    rewrite length_app. cbn [length].
    assert (length (decimal_digits fuel (n / 10)) <= S k)%nat; [|lia].
    apply IH; [|lia].
    rewrite Nat2Z.inj_succ, Z.pow_succ_r in Hn by lia.
    split; [apply Z.div_pos; lia|].
    apply Z.div_lt_upper_bound; lia.
Qed.

Lemma padded_length n k :
  0 <= n < 10 ^ Z.of_nat k -> (1 <= k)%nat ->
  length (ToZeroPaddedDecimalString n k) = k.
Proof.
  intros Hn Hk. unfold ToZeroPaddedDecimalString.
  pose proof (decimal_digits_length (S (Z.to_nat (Z.log2 n))) n k Hn Hk) as H.
  fold (decimal n) in H. rewrite length_app, length_replicate. lia.
Qed.

Lemma take_digits_padded n k r :
  0 <= n < 10 ^ Z.of_nat k -> (1 <= k)%nat ->
  take_digits k (ToZeroPaddedDecimalString n k ++ r) = Some (n, r).
Proof.
  intros Hn Hk. unfold take_digits.
  pose proof (padded_length n k Hn Hk) as Hlen.
  rewrite take_app_length', drop_app_length' by (symmetry; exact Hlen).
  rewrite Hlen, Nat.eqb_refl, padded_isDigit, padded_value by lia.
  reflexivity.
Qed.

Lemma time_of_day t :
  MakeTime (HourFromTime t) (MinFromTime t) (SecFromTime t) (msFromTime t)
  = TimeWithinDay t.
Proof.
  unfold MakeTime, HourFromTime, MinFromTime, SecFromTime, msFromTime,
    TimeWithinDay, msPerDay, msPerHour, msPerMinute, msPerSecond.
  Z.to_euclidean_division_equations. lia.
Qed.

Lemma YearFromTime_range t :
  Z.abs t <= 8640000000000000 -> -271821 <= YearFromTime t <= 275760.
Proof.
  intros Ht. unfold YearFromTime.
  pose proof (YearFromDay_spec (Day t)) as [H1 H2].
  assert (-100000000 <= Day t <= 100000000) as Hd
    by (unfold Day, msPerDay; Z.to_euclidean_division_equations; lia).
  unfold DayFromYear in *.
  Z.to_euclidean_division_equations. lia.
Qed.

Lemma DateFromTime_in_month t :
  DateFromTime t <= DaysInMonth (YearFromTime t) (MonthFromTime t).
Proof.
  pose proof (DayWithinYear_bounds t) as H.
  unfold DateFromTime, DaysInMonth, MonthFromTime, month_start, InLeapYear in *.
  destruct (isLeapYear (YearFromTime t));
  repeat match goal with
         | |- context [?a <? ?b] => destruct (Z.ltb_spec a b)
         end; simpl; lia.
Qed.

Lemma padded_head n k :
  0 <= n ->
  exists d tl, ToZeroPaddedDecimalString n k = d :: tl /\ isDigit d = true.
Proof.
  intros Hn. pose proof (padded_isDigit n k Hn) as Hd.
  pose proof (padded_nonempty n k) as Hne.
  destruct (ToZeroPaddedDecimalString n k) as [|d tl]; [done|].
  exists d, tl. split; [reflexivity|].
  simpl in Hd. now apply andb_true_iff in Hd.
Qed.

Lemma parse_iso_year_written y rest :
  -999999 <= y <= 999999 ->
  parse_iso_year
    ((if (0 <=? y) && (y <=? 9999) then ToZeroPaddedDecimalString y 4
      else js (if 0 <=? y then "+" else "-")
           ++ ToZeroPaddedDecimalString (Z.abs y) 6) ++ rest)
  = Some (y, rest).
Proof.
  intros Hy.
  destruct (Z.leb_spec 0 y) as [H0|H0]; [destruct (Z.leb_spec y 9999) as [H1|H1]|];
    cbn [andb].
  - destruct (padded_head y 4 H0) as (d & tl & E & Hd).
    unfold parse_iso_year. rewrite E at 1. cbn [app].
    replace (d =? 43)%N with false
      by (symmetry; apply N.eqb_neq; intros ->; discriminate Hd).
    replace (d =? 45)%N with false
      by (symmetry; apply N.eqb_neq; intros ->; discriminate Hd).
    apply take_digits_padded; [simpl; lia | lia].
  - rewrite <- app_assoc. change (js "+" ++ ?x) with (43%N :: x).
    cbn [parse_iso_year N.eqb Pos.eqb].
    rewrite take_digits_padded by (simpl; lia). f_equal. f_equal. lia.
  - rewrite <- app_assoc. change (js "-" ++ ?x) with (45%N :: x).
    cbn [parse_iso_year N.eqb Pos.eqb].
    rewrite take_digits_padded by (simpl; lia). cbn [mbind option_bind].
    destruct (Z.eqb_spec (Z.abs y) 0); [lia|]. f_equal. f_equal. lia.
Qed.

Section IsoRoundTrip.
Context {host : JsHost}.

(** [Date.parse] reads what [toISOString] writes. *)
Lemma parse_iso_toISOString t :
  Z.abs t <= 8640000000000000 -> parse_iso (toISOString t) = Some t.
Proof.
  intros Ht. pose proof (YearFromTime_range t Ht) as Hy.
  pose proof (MonthFromTime_bounds t) as Hm.
  pose proof (DateFromTime_bounds t) as Hd.
  pose proof (DateFromTime_in_month t) as Hdm.
  assert (0 <= HourFromTime t < 24) as Hh by (apply Z.mod_pos_bound; lia).
  assert (0 <= MinFromTime t < 60) as Hmi by (apply Z.mod_pos_bound; lia).
  assert (0 <= SecFromTime t < 60) as Hs by (apply Z.mod_pos_bound; lia).
  assert (0 <= msFromTime t < 1000) as Hms by (apply Z.mod_pos_bound; reflexivity).
  unfold toISOString, parse_iso, parse_iso_date, parse_iso_time.
  rewrite parse_iso_year_written by lia.
  repeat change (js "-" ++ ?x) with (45%N :: x).
  repeat change (js ":" ++ ?x) with (58%N :: x).
  change (js "T" ++ ?x) with (84%N :: x).
  change (js "." ++ ?x) with (46%N :: x).
  change (js "Z") with [90%N].
  cbn [expect N.eqb Pos.eqb mbind option_bind].
  rewrite take_digits_padded by (simpl; lia).
  cbn [expect N.eqb Pos.eqb mbind option_bind].
  rewrite take_digits_padded by (simpl; lia).
  cbn [expect N.eqb Pos.eqb mbind option_bind].
  replace (MonthFromTime t + 1 - 1) with (MonthFromTime t) by lia.
  replace ((1 <=? MonthFromTime t + 1) && (MonthFromTime t + 1 <=? 12)
           && (1 <=? DateFromTime t)
           && (DateFromTime t <=? DaysInMonth (YearFromTime t) (MonthFromTime t)))
    with true
    by (symmetry; repeat (apply andb_true_iff; split); apply Z.leb_le; lia).
  cbn [expect N.eqb Pos.eqb mbind option_bind].
  rewrite take_digits_padded by (simpl; lia).
  cbn [expect N.eqb Pos.eqb mbind option_bind].
  rewrite take_digits_padded by (simpl; lia).
  cbn [expect N.eqb Pos.eqb mbind option_bind].
  rewrite take_digits_padded by (simpl; lia).
  cbn [expect N.eqb Pos.eqb mbind option_bind].
  rewrite take_digits_padded by (simpl; lia).
  cbn [expect N.eqb Pos.eqb mbind option_bind].
  replace ((HourFromTime t <=? 23) && (MinFromTime t <=? 59)
           && (SecFromTime t <=? 59))
    with true
    by (symmetry; repeat (apply andb_true_iff; split); apply Z.leb_le; lia).
  cbn [mbind option_bind]. f_equal.
  rewrite time_of_day, <- Day_from_civil.
  unfold MakeDate, Day, TimeWithinDay.
  pose proof (Z.div_mod t msPerDay). unfold msPerDay in *. lia.
Qed.

Lemma Date_parse_toISOString t :
  Z.abs t <= 8640000000000000 -> Date_parse (toISOString t) = Some t.
Proof.
  intros Ht. unfold Date_parse. rewrite parse_iso_toISOString by exact Ht.
  unfold TimeClip. now rewrite (proj2 (Z.leb_le _ _) Ht).
Qed.

End IsoRoundTrip.

(** *** Load after save *)

Section LoadAfterSave.
Context {host : JsHost}.

Lemma revive_stored h0 h t :
  created_in_range h t ->
  exists l v,
    revive h0 (stored_record h t) = Some (<[l := thisTimeValue h (createdAt t)]> h0, v)
    /\ h0 !! l = None
    /\ prop "id" v = VNum (id t) 0
    /\ prop "title" v = VStr (title t)
    /\ prop "completed" v = VBool (completed t)
    /\ prop "createdAt" v = VDate l
    /\ prop "dueDate" v = match dueDate t with
                          | Some d => Date_json h d
                          | None => VUndefined
                          end.
Proof.
  intros (z & Hz & Hr).
  exists (fresh (dom h0)).
  unfold revive, stored_record.
  assert (get_createdAt
            (VObj ([(js "id", VNum (id t) 0); (js "title", VStr (title t));
                    (js "completed", VBool (completed t));
                    (js "createdAt", Date_json h (createdAt t))]
                   ++ match dueDate t with
                      | Some l => [(js "dueDate", Date_json h l)]
                      | None => []
                      end))
          = Some (VStr (toISOString z))) as ->.
  { unfold Date_json. rewrite Hz. reflexivity. }
  unfold new_Date. cbn [ToPrimitive_throws mbind option_bind Date_value].
  rewrite Date_parse_toISOString by exact Hr.
  unfold alloc. rewrite Hz. cbn [mbind option_bind].
  eexists. split; [reflexivity|].
  split; [apply not_elem_of_dom, is_fresh|].
  generalize (Date_json h (createdAt t)). intros cj.
  destruct (dueDate t) as [d|]; [generalize (Date_json h d); intros dj|];
    repeat split; reflexivity.
Qed.

Lemma revive_keeps h0 v h1 v' l :
  revive h0 v = Some (h1, v') -> is_Some (h0 !! l) -> h1 !! l = h0 !! l.
Proof.
  unfold revive. destruct (get_createdAt v) as [c|]; [|discriminate].
  cbn [mbind option_bind]. unfold new_Date.
  destruct (ToPrimitive_throws c); [discriminate|].
  cbn [mbind option_bind]. intros H Hl.
  pose proof (alloc_keeps h0 (Date_value h0 c) l Hl) as K.
  destruct (alloc h0 (Date_value h0 c)) as [l' h']. simpl in *. congruence.
Qed.

Lemma revive_all_keeps items : forall h0 h1 vs l,
  revive_all h0 items = Some (h1, vs) -> is_Some (h0 !! l) -> h1 !! l = h0 !! l.
Proof.
  induction items as [|v items IH]; intros h0 h1 vs l H Hl; simpl in H.
  - congruence.
  - destruct (revive h0 v) as [[h' v']|] eqn:E; [|discriminate].
    cbn [mbind option_bind] in H.
    destruct (revive_all h' items) as [[h'' vs']|] eqn:E'; [|discriminate].
    cbn [mbind option_bind] in H. injection H as <- _.
    pose proof (revive_keeps _ _ _ _ l E Hl) as K.
    rewrite (IH _ _ _ l E'); [exact K|]. now rewrite K.
Qed.

Lemma revive_all_stored h ts : forall h0,
  Forall (created_in_range h) ts ->
  exists h' vs,
    revive_all h0 (List.map (stored_record h) ts) = Some (h', vs)
    /\ Forall2 (reloaded h h') ts vs.
Proof.
  induction ts as [|t ts IH]; intros h0 Hts.
  - exists h0, []. split; [reflexivity | constructor].
  - apply Forall_cons in Hts. destruct Hts as [Ht Hts].
    destruct (revive_stored h0 h t Ht)
      as (l & v & Hv & Hfresh & Pid & Ptitle & Pdone & Pcreated & Pdue).
    destruct (IH (<[l := thisTimeValue h (createdAt t)]> h0) Hts)
      as (h' & vs & Hvs & Hall).
    exists h', (v :: vs). split.
    + cbn [List.map revive_all]. rewrite Hv. cbn [mbind option_bind].
      rewrite Hvs. reflexivity.
    + constructor; [|exact Hall].
      repeat (split; [assumption|]). split; [|exact Pdue].
      exists l. split; [exact Pcreated|].
      unfold thisTimeValue at 1.
      rewrite (revive_all_keeps _ _ _ _ l Hvs)
        by (rewrite lookup_insert_eq; eauto).
      now rewrite lookup_insert_eq.
Qed.

(** Load after save, for every collection whose instants of creation
    are time values in range: a record comes back for each task, in
    order, with [id], [title] and [completed] as they were, [createdAt]
    a new Date of the same instant, and [dueDate], when there is one,
    the ISO text that was stored (or [null] for an invalid Date). *)
Lemma load_after_save h0 st :
  Forall (created_in_range (heap st)) (todos st) ->
  exists h' vs,
    loadTodos h0 (saveTodos st) = (h', vs)
    /\ Forall2 (reloaded (heap st) h') (todos st) vs.
Proof.
  intros Hts.
  destruct (revive_all_stored (heap st) (todos st) h0 Hts) as (h' & vs & Hvs & Hall).
  exists h', vs. split; [|exact Hall].
  unfold loadTodos, saveTodos.
  change (truthy_string (JSON_stringify (heap st) (todos st))) with true.
  cbn iota. unfold try_load. rewrite JSON_parse_stringify.
  cbn [mbind option_bind]. now rewrite Hvs.
Qed.

End LoadAfterSave.

(** ** Persistence *)

Lemma Todo_value_dueDate t :
  prop "dueDate" (Todo_value t) = VUndefined
  \/ is_Date (prop "dueDate" (Todo_value t)) = true.
Proof. destruct t as [i ti c cr [l|]]; [right | left]; reflexivity. Qed.

(** C1. A task with a due date, saved and loaded: [createdAt] comes back
    as a Date of the same instant, [dueDate] comes back as the text that
    was stored, not as a Date.  The record loaded is not a [Todo], and
    [isOverdue], asked about its due date, throws. *)
Theorem load_after_save_dueDate_text :
  exists h v,
    loadTodos (host := IST) ∅ (saveTodos (with_due_date (host := IST)))
    = (h, [v])
    /\ prop "id" v = VNum 1705300000000 0
    /\ prop "title" v = VStr (js "A")
    /\ prop "completed" v = VBool false
    /\ prop "createdAt" v = VDate 1
    /\ thisTimeValue h 1 = Some 1705300000000
    /\ prop "dueDate" v = VStr (js "2024-01-15T00:00:00.000Z")
    /\ is_Date (prop "dueDate" v) = false
    /\ (forall t, Todo_value t <> v)
    /\ isOverdue_untyped (host := IST) (prop "dueDate" v) 1705300000000 h
       = None.
Proof.
  do 2 eexists. split; [vm_compute; reflexivity|].
  repeat (split; [reflexivity|]). split; [|reflexivity].
  intros t E. destruct (Todo_value_dueDate t) as [H|H];
    rewrite E in H; discriminate H.
Qed.

Section Loading.
Context {host : JsHost}.

Lemma revive_all_null h items : In VNull items -> revive_all h items = None.
Proof.
  revert h. induction items as [|v items IH]; intros h Hin; [destruct Hin|].
  simpl. destruct Hin as [->|Hin]; [reflexivity|].
  destruct (revive h v) as [[h' v']|]; [|reflexivity].
  simpl. now rewrite IH.
Qed.

Lemma get_createdAt_Some v c :
  get_createdAt v = Some c -> c = prop "createdAt" v.
Proof. destruct v; simpl; congruence. Qed.

Lemma revive_throws h v :
  ToPrimitive_throws (prop "createdAt" v) = true -> revive h v = None.
Proof.
  intros Hv. unfold revive.
  destruct (get_createdAt v) as [c|] eqn:E; [|reflexivity].
  apply get_createdAt_Some in E. subst c.
  cbn [mbind option_bind]. unfold new_Date. now rewrite Hv.
Qed.

Lemma revive_all_throws h items v :
  In v items -> ToPrimitive_throws (prop "createdAt" v) = true ->
  revive_all h items = None.
Proof.
  intros Hin Hv. revert h.
  induction items as [|v0 items IH]; intros h; [destruct Hin|].
  cbn [revive_all]. destruct Hin as [->|Hin].
  - now rewrite revive_throws.
  - destruct (revive h v0) as [[h' v']|]; [|reflexivity].
    cbn [mbind option_bind]. now rewrite IH.
Qed.

(** C4, amended. A stored item that is absent, empty, not JSON, not an
    array, or an array with a [null] in it or with an element whose
    [createdAt] cannot be converted to a primitive: the load effect
    returns normally and leaves the collection empty. *)
Theorem load_rejected h item : rejected item -> loadTodos h item = (h, []).
Proof.
  intros [| |s Hs|s v Hs Hv|s items Hs Hin|s items v Hs Hin Hv]; simpl;
    try reflexivity.
  - destruct (truthy_string s); [|reflexivity].
    unfold try_load. now rewrite Hs.
  - destruct (truthy_string s); [|reflexivity].
    unfold try_load. rewrite Hs. simpl.
    destruct v; try reflexivity. now destruct (Hv items).
  - destruct (truthy_string s); [|reflexivity].
    unfold try_load. rewrite Hs. simpl.
    now rewrite revive_all_null.
  - destruct (truthy_string s); [|reflexivity].
    unfold try_load. rewrite Hs. simpl.
    now rewrite (revive_all_throws h items v).
Qed.

End Loading.

(** An array of one record without any of the fields of a task does not
    meet the stored layout, and the load effect makes a task of it. *)
Lemma load_keeps_malformed_records :
  malformed empty_record_item = true
  /\ snd (loadTodos (host := IST) ∅ empty_record_item)
     = [VObj [(js "createdAt", VDate 1)]]
  /\ snd (loadTodos (host := IST) ∅ empty_record_item) <> [].
Proof. split; [reflexivity|]. split; [reflexivity | discriminate]. Qed.

(** ** Instances *)

Lemma load_rejected_witness :
  rejected truncated_item
  /\ loadTodos (host := IST) ∅ truncated_item = (∅, []).
Proof.
  assert (rejected truncated_item) as R
    by (apply rejected_syntax; reflexivity).
  split; [exact R | exact (load_rejected (host := IST) ∅ truncated_item R)].
Defined.

Lemma addTodo_blank_witness :
  trim (js "  ") = []
  /\ addTodo (host := IST) 1 1 (setInputValue (js "  ") initial)
     = setInputValue (js "  ") initial
  /\ length (todos (addTodo (host := IST) 1 1
                      (setInputValue (js "  ") initial))) = 0%nat.
Proof.
  assert (addTodo (host := IST) 1 1 (setInputValue (js "  ") initial)
          = setInputValue (js "  ") initial) as E
    by (apply (addTodo_blank (host := IST) 1 1
                 (setInputValue (js "  ") initial)); reflexivity).
  split; [reflexivity|]. split; [exact E|]. rewrite E. reflexivity.
Defined.

Lemma delete_toggle_absent_witness :
  deleteTodo 3 (A_then_B (host := IST)) = A_then_B (host := IST)
  /\ toggleTodo 3 (A_then_B (host := IST)) = A_then_B (host := IST).
Proof.
  apply (delete_toggle_absent 3 (A_then_B (host := IST))).
  repeat constructor; discriminate.
Defined.

Lemma add_all_newest_first_witness :
  exists new,
    todos (A_then_B (host := IST)) = new ++ todos initial
    /\ List.map title new = [js "B"; js "A"].
Proof.
  apply (add_all_newest_first (host := IST)
           [submit "A" "" 1; submit "B" "" 2] initial).
  repeat constructor; discriminate.
Defined.

(** * More of the component

    ** Trimming *)

Lemma trimStart_head s c : head (trimStart s) = Some c -> isWhiteSpace c = false.
Proof.
  induction s as [|x s IH]; simpl; [discriminate|].
  destruct (isWhiteSpace x) eqn:E; [exact IH|].
  simpl. intros [= <-]. exact E.
Qed.

(** [trimStart] removes a prefix. *)
Lemma trimStart_suffix s : exists w, s = w ++ trimStart s.
Proof.
  induction s as [|x s [w IH]]; [now exists []|].
  simpl. destruct (isWhiteSpace x).
  - exists (x :: w). simpl. now f_equal.
  - now exists [].
Qed.

Lemma trimStart_fixed s :
  (forall c, head s = Some c -> isWhiteSpace c = false) -> trimStart s = s.
Proof.
  destruct s as [|x s]; [reflexivity|].
  intros H. simpl. now rewrite (H x eq_refl).
Qed.

Lemma last_rev {A} (l : list A) : last (rev l) = head l.
Proof. destruct l as [|x l]; [reflexivity|]. simpl. apply last_snoc. Qed.

Lemma trim_last s c : last (trim s) = Some c -> isWhiteSpace c = false.
Proof. unfold trim, trimEnd. rewrite last_rev. apply trimStart_head. Qed.

Lemma trim_head s c : head (trim s) = Some c -> isWhiteSpace c = false.
Proof.
  unfold trim, trimEnd.
  destruct (trimStart_suffix (rev (trimStart s))) as [w Hw].
  apply (f_equal (@rev N)) in Hw. rewrite rev_involutive, rev_app_distr in Hw.
  intros H. apply (trimStart_head s c). rewrite Hw, head_app, H. reflexivity.
Qed.

Lemma trim_trimmed s : trim s <> [] -> trimmed_title (trim s).
Proof.
  intros H. split; [exact H|]. split; [apply trim_head | apply trim_last].
Qed.

(** A title that is trimmed is left as it is by [trim]. *)
Lemma trim_fixed s :
  (forall c, head s = Some c -> isWhiteSpace c = false) ->
  (forall c, last s = Some c -> isWhiteSpace c = false) ->
  trim s = s.
Proof.
  intros Hh Hl. unfold trim, trimEnd. rewrite (trimStart_fixed s Hh).
  rewrite trimStart_fixed; [apply rev_involutive|].
  intros c Hc. apply Hl. now rewrite <- (rev_involutive s), last_rev.
Qed.

Lemma trim_idempotent s : trim (trim s) = trim s.
Proof. apply trim_fixed; [apply trim_head | apply trim_last]. Qed.

(** ** Counting *)

Lemma filter_split_length {A} (f : A -> bool) (l : list A) :
  (length (List.filter f l) + length (List.filter (fun x => negb (f x)) l)
   = length l)%nat.
Proof.
  induction l as [|x l IH]; [reflexivity|].
  simpl. destruct (f x); simpl; lia.
Qed.

(** X1. The three numbers of the statistics panel: the completed tasks
    never outnumber the tasks, and "Remaining", computed as
    [totalCount - completedCount], is the number of tasks that are not
    completed. *)
Theorem stats_remaining st :
  (completedCount st <= totalCount st)%nat
  /\ (totalCount st - completedCount st)%nat = openCount st.
Proof.
  unfold completedCount, totalCount, openCount.
  pose proof (filter_split_length (fun todo => completed todo) (todos st)) as H.
  cbv beta in H. lia.
Qed.

(** ** Adding *)

Section Adding.
Context {host : JsHost}.

(** X2. Pressing ADD twice adds once: the form is cleared by the first
    press, so the second finds an empty title. *)
Theorem addTodo_twice n1 n2 n3 n4 st :
  addTodo n3 n4 (addTodo n1 n2 st) = addTodo n1 n2 st.
Proof.
  destruct (decide (trim (inputValue st) <> [])) as [Hne|Hb].
  - destruct (addTodo_todos n1 n2 st Hne) as (c & d & h & ->).
    unfold addTodo at 1. cbn [inputValue]. now rewrite decide_False by auto.
  - assert (forall a b, addTodo a b st = st) as E
      by (intros a b; unfold addTodo; now rewrite decide_False by exact Hb).
    now rewrite !E.
Qed.

Lemma addTodo_new_task now_id now_created st :
  trim (inputValue st) <> [] ->
  exists t,
    todos (addTodo now_id now_created st) = t :: todos st
    /\ id t = now_id
    /\ title t = trim (inputValue st)
    /\ completed t = false
    /\ heap st !! createdAt t = None
    /\ thisTimeValue (heap (addTodo now_id now_created st)) (createdAt t)
       = Some now_created
    /\ match dueDate t with
       | Some l =>
           selectedDate st <> [] /\ heap st !! l = None /\ l <> createdAt t
           /\ thisTimeValue (heap (addTodo now_id now_created st)) l
              = Date_parse (selectedDate st)
       | None => selectedDate st = []
       end
    /\ inputValue (addTodo now_id now_created st) = []
    /\ selectedDate (addTodo now_id now_created st) = []
    /\ forall l, is_Some (heap st !! l) ->
         heap (addTodo now_id now_created st) !! l = heap st !! l.
Proof.
  intros Hne. unfold addTodo. rewrite decide_True by exact Hne.
  pose proof (alloc_fresh (heap st) (Some now_created)) as F1.
  pose proof (alloc_keeps (heap st) (Some now_created)) as K1.
  unfold alloc in *. cbn [fst snd] in *.
  set (c := fresh (dom (heap st))) in *.
  destruct (selectedDate st) as [|x s] eqn:Es; cbn [truthy_string].
  - eexists. cbn [todos heap inputValue selectedDate id title completed
                  createdAt dueDate].
    repeat (split; [reflexivity || exact F1|]).
    split; [unfold thisTimeValue; now rewrite lookup_insert_eq|].
    repeat (split; [reflexivity|]). exact K1.
  - pose proof (alloc_fresh (<[c := Some now_created]> (heap st))
                  (Date_parse (x :: s))) as F2.
    pose proof (alloc_keeps (<[c := Some now_created]> (heap st))
                  (Date_parse (x :: s))) as K2.
    unfold alloc in *. cbn [fst snd] in *.
    set (d := fresh (dom (<[c := Some now_created]> (heap st)))) in *.
    assert (d <> c) as Hdc
      by (intros E; rewrite E, lookup_insert_eq in F2; discriminate).
    eexists. cbn [todos heap inputValue selectedDate id title completed
                  createdAt dueDate].
    repeat (split; [reflexivity || exact F1|]).
    split.
    { unfold thisTimeValue. rewrite lookup_insert_ne by exact Hdc.
      now rewrite lookup_insert_eq. }
    split.
    { split; [discriminate|]. split.
      - rewrite lookup_insert_ne in F2 by auto. exact F2.
      - split; [exact Hdc|]. unfold thisTimeValue. now rewrite lookup_insert_eq. }
    repeat (split; [reflexivity|]).
    intros l Hl. rewrite K2; [now apply K1|]. now rewrite K1.
Qed.

(** X3. What a successful [addTodo] does: one task in front, with the
    reading of [Date.now()] as id, the trimmed title, not completed, a
    new Date object holding the reading of [new Date()], and a second new
    Date object holding [Date.parse] of the date box exactly when that
    box is not empty; the form is cleared, the tasks and the Date
    objects that were there are as they were. *)
Theorem addTodo_adds now_id now_created st :
  trim (inputValue st) <> [] ->
  exists t,
    todos (addTodo now_id now_created st) = t :: todos st
    /\ id t = now_id
    /\ title t = trim (inputValue st)
    /\ completed t = false
    /\ heap st !! createdAt t = None
    /\ thisTimeValue (heap (addTodo now_id now_created st)) (createdAt t)
       = Some now_created
    /\ match dueDate t with
       | Some l =>
           selectedDate st <> [] /\ heap st !! l = None /\ l <> createdAt t
           /\ thisTimeValue (heap (addTodo now_id now_created st)) l
              = Date_parse (selectedDate st)
       | None => selectedDate st = []
       end
    /\ inputValue (addTodo now_id now_created st) = []
    /\ selectedDate (addTodo now_id now_created st) = []
    /\ forall l, is_Some (heap st !! l) ->
         heap (addTodo now_id now_created st) !! l = heap st !! l.
Proof. apply addTodo_new_task. Qed.

(** X4. [handleKeyPress] adds a task exactly when the key is Enter and
    the trimmed title is not empty; on every other key press, and only
    then, the state is left as it is. *)
Theorem handleKeyPress_adds k now_id now_created st :
  (totalCount (handleKeyPress k now_id now_created st) = S (totalCount st)
   <-> k = js "Enter" /\ trim (inputValue st) <> [])
  /\ (handleKeyPress k now_id now_created st = st
      <-> ~ (k = js "Enter" /\ trim (inputValue st) <> [])).
Proof.
  assert (k = js "Enter" /\ trim (inputValue st) <> [] ->
          totalCount (handleKeyPress k now_id now_created st)
          = S (totalCount st)) as Hadd.
  { intros [-> Hne]. unfold handleKeyPress. rewrite decide_True by reflexivity.
    destruct (addTodo_todos now_id now_created st Hne) as (c & d & h & ->).
    reflexivity. }
  assert (~ (k = js "Enter" /\ trim (inputValue st) <> []) ->
          handleKeyPress k now_id now_created st = st) as Hkeep.
  { intros Hn. unfold handleKeyPress.
    destruct (decide (k = js "Enter")) as [->|]; [|reflexivity].
    unfold addTodo. rewrite decide_False; [reflexivity|].
    intros H. now apply Hn. }
  destruct (decide (k = js "Enter" /\ trim (inputValue st) <> [])) as [H|H].
  - specialize (Hadd H). split; split; try tauto.
    intros E. rewrite E in Hadd. lia.
  - specialize (Hkeep H). split; split; try tauto.
    intros E. rewrite Hkeep in E. lia.
Qed.

End Adding.

(** ** Toggling and removing *)

Lemma toggled_twice x (t : Todo) :
  (let t' := if id t =? x
             then {| id := id t; title := title t;
                     completed := negb (completed t);
                     createdAt := createdAt t; dueDate := dueDate t |}
             else t in
   if id t' =? x
   then {| id := id t'; title := title t'; completed := negb (completed t');
           createdAt := createdAt t'; dueDate := dueDate t' |}
   else t') = t.
Proof.
  cbv zeta. destruct (id t =? x) eqn:E; cbn [id title completed createdAt dueDate].
  - rewrite E, negb_involutive. now destruct t.
  - now rewrite E.
Qed.

(** X5. Toggling the same id twice gives the state back, whether the id
    is carried by no task, by one or by several. *)
Theorem toggleTodo_twice x st : toggleTodo x (toggleTodo x st) = st.
Proof.
  unfold toggleTodo, set_todos. cbn [todos heap inputValue selectedDate].
  rewrite List.map_map.
  rewrite (List.map_ext _ (fun t => t) (toggled_twice x)), List.map_id.
  now destruct st.
Qed.

Lemma toggle_counts x ts t :
  List.NoDup (List.map id ts) -> In t ts -> id t = x ->
  let ts' := List.map (fun todo =>
       if id todo =? x
       then {| id := id todo; title := title todo;
               completed := negb (completed todo);
               createdAt := createdAt todo; dueDate := dueDate todo |}
       else todo) ts in
  (length (List.filter (fun todo => completed todo) ts')
   + (if completed t then 1 else 0)
   = length (List.filter (fun todo => completed todo) ts)
     + (if completed t then 0 else 1))%nat.
Proof.
  intros Hnd Hin Hid. cbv zeta.
  induction ts as [|h ts IH]; [destruct Hin|].
  cbn [List.map] in *. apply List.NoDup_cons_iff in Hnd. destruct Hnd as [Hh Hnd].
  destruct Hin as [->|Hin].
  - rewrite toggleTodo_absent.
    + rewrite Hid, Z.eqb_refl. cbn [List.filter completed].
      destruct (completed t); cbn [negb length]; lia.
    + apply Forall_forall. intros t' Ht' E. apply Hh.
      apply list_elem_of_In in Ht'. apply in_map_iff. exists t'. split; [congruence | exact Ht'].
  - specialize (IH Hnd Hin).
    destruct (Z.eqb_spec (id h) x) as [E|E].
    + exfalso. apply Hh. apply in_map_iff. exists t. split; [congruence | exact Hin].
    + cbn [List.filter]. destruct (completed h); cbn [length]; lia.
Qed.

(** X6. When the ids are pairwise distinct, toggling the id of a task
    moves exactly that task between completed and open: the number of
    completed tasks goes up or down by one, the ids and their order stay. *)
Theorem toggleTodo_one x st t :
  List.NoDup (ids st) -> In t (todos st) -> id t = x ->
  (completedCount (toggleTodo x st) + (if completed t then 1 else 0)
   = completedCount st + (if completed t then 0 else 1))%nat
  /\ ids (toggleTodo x st) = ids st.
Proof.
  intros Hnd Hin Hid. split.
  - exact (toggle_counts x (todos st) t Hnd Hin Hid).
  - unfold ids, toggleTodo, set_todos. cbn [todos]. rewrite List.map_map.
    apply List.map_ext. intros t'. now destruct (id t' =? x).
Qed.

Lemma filter_filter_comm {A} (f g : A -> bool) (l : list A) :
  List.filter f (List.filter g l) = List.filter g (List.filter f l).
Proof.
  induction l as [|x l IH]; [reflexivity|].
  simpl. destruct (f x) eqn:Ef, (g x) eqn:Eg; simpl;
    rewrite ?Ef, ?Eg, IH; reflexivity.
Qed.

Lemma filter_idempotent {A} (f : A -> bool) (l : list A) :
  List.filter f (List.filter f l) = List.filter f l.
Proof.
  induction l as [|x l IH]; [reflexivity|].
  simpl. destruct (f x) eqn:Ef; simpl; rewrite ?Ef, IH; reflexivity.
Qed.

Lemma filter_map_toggle x y (ts : list Todo) :
  List.filter (fun todo => negb (id todo =? y))
    (List.map (fun todo =>
       if id todo =? x
       then {| id := id todo; title := title todo;
               completed := negb (completed todo);
               createdAt := createdAt todo; dueDate := dueDate todo |}
       else todo) ts)
  = List.map (fun todo =>
       if id todo =? x
       then {| id := id todo; title := title todo;
               completed := negb (completed todo);
               createdAt := createdAt todo; dueDate := dueDate todo |}
       else todo)
      (List.filter (fun todo => negb (id todo =? y)) ts).
Proof.
  induction ts as [|t ts IH]; [reflexivity|].
  cbn [List.map List.filter]. rewrite IH.
  assert (id (if id t =? x
              then {| id := id t; title := title t;
                      completed := negb (completed t);
                      createdAt := createdAt t; dueDate := dueDate t |}
              else t) = id t) as -> by (now destruct (id t =? x)).
  now destruct (negb (id t =? y)).
Qed.

(** X7. Deleting is idempotent and commutes with deleting another id,
    with toggling and with clearing the completed tasks. *)
Theorem deleteTodo_commutes x y st :
  deleteTodo x (deleteTodo x st) = deleteTodo x st
  /\ deleteTodo x (deleteTodo y st) = deleteTodo y (deleteTodo x st)
  /\ deleteTodo x (toggleTodo y st) = toggleTodo y (deleteTodo x st)
  /\ deleteTodo x (clearCompleted st) = clearCompleted (deleteTodo x st).
Proof.
  unfold deleteTodo, toggleTodo, clearCompleted, set_todos.
  cbn [todos heap inputValue selectedDate].
  repeat split; f_equal.
  - apply filter_idempotent.
  - apply filter_filter_comm.
  - apply filter_map_toggle.
  - apply filter_filter_comm.
Qed.

(** X8. After the clear-completed click no task is completed, the tasks
    left are as many as were open, a second click changes nothing, and
    the next render shows no clear button. *)
Theorem clearCompleted_clears :
  (forall st, completedCount (clearCompleted st) = 0%nat)
  /\ (forall st, totalCount (clearCompleted st) = openCount st)
  /\ (forall st, clearCompleted (clearCompleted st) = clearCompleted st)
  /\ (forall (host : JsHost) clock st,
        clear_button (fst (render clock (clearCompleted st))) = None).
Proof.
  assert (forall st, completedCount (clearCompleted st) = 0%nat) as Hzero.
  { intros st. unfold completedCount, clearCompleted, set_todos. cbn [todos].
    induction (todos st) as [|t ts IH]; [reflexivity|].
    cbn [List.filter]. destruct (completed t) eqn:E; cbn [negb]; [exact IH|].
    cbn [List.filter]. now rewrite E. }
  split; [exact Hzero|]. split; [reflexivity|]. split.
  - intros st. unfold clearCompleted, set_todos.
    cbn [todos heap inputValue selectedDate]. f_equal. apply filter_idempotent.
  - intros host clock st. unfold render.
    destruct (renderRows clock 0 _ _) as [rs h]. cbn [fst clear_button].
    now rewrite Hzero.
Qed.

(** ** Days *)

(** The date string is read off the day number. *)
Lemma DateString_of_day t1 t2 : Day t1 = Day t2 -> DateString t1 = DateString t2.
Proof.
  intros H.
  assert (YearFromTime t1 = YearFromTime t2) as Hy
    by (unfold YearFromTime; now rewrite H).
  assert (DayWithinYear t1 = DayWithinYear t2) as Hd
    by (unfold DayWithinYear; now rewrite H, Hy).
  assert (InLeapYear t1 = InLeapYear t2) as Hl
    by (unfold InLeapYear; now rewrite Hy).
  assert (MonthFromTime t1 = MonthFromTime t2) as Hm
    by (unfold MonthFromTime; now rewrite Hd, Hl).
  assert (DateFromTime t1 = DateFromTime t2) as Hdt
    by (unfold DateFromTime; now rewrite Hd, Hm, Hl).
  assert (WeekDay t1 = WeekDay t2) as Hw
    by (unfold WeekDay; now rewrite H).
  unfold DateString. now rewrite Hy, Hm, Hdt, Hw.
Qed.

Section Days.
Context {host : JsHost}.

Lemma toDateString_same_day a b :
  toDateString (Some a) = toDateString (Some b)
  <-> Day (LocalTime a) = Day (LocalTime b).
Proof.
  split; [apply DateString_inj|]. intros H. cbn [toDateString].
  now apply DateString_of_day.
Qed.

Lemma isDueToday_days l now (h : Heap) :
  isDueToday (Some l) now h
  = match thisTimeValue h l with
    | Some t => bool_decide (Day (LocalTime t) = Day (LocalTime now))
    | None => false
    end.
Proof.
  cbn [isDueToday]. destruct (thisTimeValue h l) as [t|].
  - apply bool_decide_ext, toDateString_same_day.
  - apply bool_decide_eq_false. intros H. symmetry in H.
    now apply DateString_valid in H.
Qed.

(** X9. [isDueToday] answers [true] exactly when the due date and the
    present instant fall on the same day of the local calendar; an
    invalid due date is never due today, and neither is a task without
    a due date. *)
Theorem isDueToday_same_local_day d now (h : Heap) :
  isDueToday d now h
  = match d with
    | Some l =>
        match thisTimeValue h l with
        | Some t => bool_decide (Day (LocalTime t) = Day (LocalTime now))
        | None => false
        end
    | None => false
    end.
Proof. destruct d as [l|]; [apply isDueToday_days | reflexivity]. Qed.

Lemma setHours0_idempotent tv :
  midnight_on_its_day host -> setHours0 (setHours0 tv) = setHours0 tv.
Proof.
  intros Hmid. destruct tv as [t|]; [|reflexivity].
  rewrite setHours0_midnight.
  destruct (TimeClip (UTC (Day (LocalTime t) * msPerDay))) as [u|] eqn:Eu;
    [|reflexivity].
  apply TimeClip_Some in Eu as Hu. subst u.
  now rewrite setHours0_midnight, Hmid.
Qed.

Lemma thisTimeValue_insert (h : Heap) l tv : thisTimeValue (<[l := tv]> h) l = tv.
Proof. unfold thisTimeValue. now rewrite lookup_insert_eq. Qed.

Lemma thisTimeValue_insert_ne (h : Heap) l l' tv :
  l <> l' -> thisTimeValue (<[l := tv]> h) l' = thisTimeValue h l'.
Proof. intros H. unfold thisTimeValue. now rewrite lookup_insert_ne. Qed.

Lemma isOverdue_idempotent d now now' (h : Heap) :
  midnight_on_its_day host ->
  snd (isOverdue d now' (snd (isOverdue d now h))) = snd (isOverdue d now h)
  /\ fst (isOverdue d now' (snd (isOverdue d now h))) = fst (isOverdue d now' h).
Proof.
  intros Hmid. destruct d as [l|]; [|now split].
  cbn [isOverdue fst snd].
  rewrite thisTimeValue_insert, setHours0_idempotent by exact Hmid.
  split; [apply insert_insert_eq | reflexivity].
Qed.

(** X10. In a zone where midnight falls on its day, a second call of
    [isOverdue] on the same due date changes nothing more and answers
    as the first. *)
Theorem isOverdue_again d now (h : Heap) :
  midnight_on_its_day host ->
  isOverdue d now (snd (isOverdue d now h)) = isOverdue d now h.
Proof.
  intros Hmid. destruct (isOverdue_idempotent d now now h Hmid) as [H1 H2].
  destruct (isOverdue d now (snd (isOverdue d now h))) as [o h'].
  destruct (isOverdue d now h) as [o1 h1]. cbn [fst snd] in *. congruence.
Qed.

(** X11. In such a zone the write of [isOverdue] does not change what
    [isDueToday] answers, as long as the local midnight of the due date
    is a time value in range. *)
Theorem isOverdue_keeps_isDueToday l now now' (h : Heap) :
  midnight_on_its_day host ->
  (forall t, thisTimeValue h l = Some t -> is_Some (setHours0 (Some t))) ->
  isDueToday (Some l) now' (snd (isOverdue (Some l) now h))
  = isDueToday (Some l) now' h.
Proof.
  intros Hmid Hrange. rewrite !isDueToday_days.
  cbn [isOverdue snd]. rewrite thisTimeValue_insert.
  destruct (thisTimeValue h l) as [t|]; [|reflexivity].
  destruct (Hrange t eq_refl) as [u Hu]. rewrite Hu.
  rewrite setHours0_midnight in Hu. apply TimeClip_Some in Hu. subst u.
  now rewrite Hmid.
Qed.

End Days.

Lemma IST_midnight : midnight_on_its_day IST.
Proof. intros d. apply fixed_offset_midnight. Qed.

Lemma isOverdue_again_witness :
  isOverdue (host := IST) (Some 2%positive) 1705300000000
    (snd (isOverdue (host := IST) (Some 2%positive) 1705300000000
            (heap (with_due_date (host := IST)))))
  = isOverdue (host := IST) (Some 2%positive) 1705300000000
      (heap (with_due_date (host := IST))).
Proof.
  apply (isOverdue_again (host := IST) (Some 2%positive) 1705300000000
           (heap (with_due_date (host := IST)))).
  exact IST_midnight.
Defined.

Lemma isOverdue_keeps_isDueToday_witness :
  isDueToday (host := IST) (Some 2%positive) 1705300000000
    (snd (isOverdue (host := IST) (Some 2%positive) 1705300000000
            (heap (with_due_date (host := IST)))))
  = isDueToday (host := IST) (Some 2%positive) 1705300000000
      (heap (with_due_date (host := IST))).
Proof.
  apply (isOverdue_keeps_isDueToday (host := IST) 2%positive 1705300000000
           1705300000000 (heap (with_due_date (host := IST)))).
  - exact IST_midnight.
  - intros t Ht. vm_compute in Ht. injection Ht as <-. now eexists.
Defined.

(** ** Zones at a fixed offset *)

Lemma Day_midnight_bounds t tza :
  t - msPerDay < Day (t + tza) * msPerDay - tza <= t.
Proof. unfold Day, msPerDay. Z.to_euclidean_division_equations. lia. Qed.

Lemma setHours0_fixed tza t :
  Z.abs t <= 8640000000000000 - msPerDay ->
  setHours0 (host := fixed_offset_host tza) (Some t)
  = Some (Day (t + tza) * msPerDay - tza).
Proof.
  intros Ht. rewrite setHours0_midnight. unfold LocalTime, UTC. cbn [LocalTZA fixed_offset_host].
  pose proof (Day_midnight_bounds t tza) as B. unfold TimeClip.
  unfold msPerDay in *.
  destruct (Z.leb_spec (Z.abs (Day (t + tza) * 86400000 - tza)) 8640000000000000);
    [reflexivity | lia].
Qed.

(** X12. In a zone at a fixed offset from UTC, and away from the two
    ends of the range of time values, [isOverdue] answers [true] exactly
    when the local day of the due date is before the local day of the
    present instant. *)
Theorem isOverdue_earlier_local_day tza l now t (h : Heap) :
  thisTimeValue h l = Some t ->
  Z.abs t <= 8640000000000000 - msPerDay ->
  Z.abs now <= 8640000000000000 - msPerDay ->
  fst (isOverdue (host := fixed_offset_host tza) (Some l) now h)
  = (Day (t + tza) <? Day (now + tza)).
Proof.
  intros Ht Rt Rn. cbn [isOverdue fst]. rewrite Ht.
  rewrite !setHours0_fixed by assumption. cbn [date_lt].
  unfold msPerDay.
  destruct (Z.ltb_spec (Day (t + tza)) (Day (now + tza)));
    [apply Z.ltb_lt | apply Z.ltb_ge]; lia.
Qed.

Lemma isOverdue_earlier_local_day_witness :
  fst (isOverdue (host := IST) (Some 2%positive) 1705400000000
         (heap (with_due_date (host := IST))))
  = (Day (1705276800000 + 19800000) <? Day (1705400000000 + 19800000)).
Proof.
  apply (isOverdue_earlier_local_day 19800000 2%positive 1705400000000
           1705276800000 (heap (with_due_date (host := IST))));
    [reflexivity | vm_compute; discriminate | vm_compute; discriminate].
Defined.

(** ** The date box *)

Lemma DayFromYear_range y :
  0 <= y <= 9999 -> -719528 <= DayFromYear y <= 2932532.
Proof. intros Hy. unfold DayFromYear. Z.to_euclidean_division_equations. lia. Qed.

Lemma month_start_range m leap :
  0 <= leap <= 1 -> 0 <= month_start m leap <= 335.
Proof.
  intros Hl. unfold month_start.
  repeat match goal with
         | |- context [?a =? ?b] => destruct (Z.eqb_spec a b)
         end; lia.
Qed.

Section DateBox.
Context {host : JsHost}.

(** The value of a date box is read as midnight UTC of the day it
    names. *)
Lemma Date_parse_date_input y m d :
  0 <= y <= 9999 -> 1 <= m <= 12 -> 1 <= d <= DaysInMonth y (m - 1) ->
  Date_parse (date_input_value y m d) = Some (MakeDay y (m - 1) d * msPerDay).
Proof.
  intros Hy Hm Hd.
  assert (d <= 31) as Hd31.
  { unfold DaysInMonth, month_start in Hd.
    destruct (isLeapYear y);
    repeat match type of Hd with
           | context [?a =? ?b] => destruct (Z.eqb_spec a b)
           end; lia. }
  unfold Date_parse, parse_iso, parse_iso_date, date_input_value.
  pose proof (parse_iso_year_written y
                (js "-" ++ ToZeroPaddedDecimalString m 2 ++ js "-"
                 ++ ToZeroPaddedDecimalString d 2)) as Hyear.
  replace ((0 <=? y) && (y <=? 9999)) with true in Hyear
    by (symmetry; apply andb_true_iff; split; apply Z.leb_le; lia).
  rewrite Hyear by lia.
  repeat change (js "-" ++ ?x) with (45%N :: x).
  cbn [expect N.eqb Pos.eqb mbind option_bind].
  rewrite take_digits_padded by (simpl; lia).
  cbn [expect N.eqb Pos.eqb mbind option_bind].
  rewrite <- (app_nil_r (ToZeroPaddedDecimalString d 2)).
  rewrite take_digits_padded by (simpl; lia).
  cbn [expect N.eqb Pos.eqb mbind option_bind].
  replace ((1 <=? m) && (m <=? 12) && (1 <=? d) && (d <=? DaysInMonth y (m - 1)))
    with true
    by (symmetry; repeat (apply andb_true_iff; split); apply Z.leb_le; lia).
  cbn [mbind option_bind]. unfold MakeDate. rewrite Z.add_0_r.
  unfold TimeClip.
  pose proof (DayFromYear_range y Hy) as B1.
  pose proof (month_start_range (m - 1) (if isLeapYear y then 1 else 0)) as B2.
  assert (0 <= (if isLeapYear y then 1 else 0) <= 1) as B3
    by (destruct (isLeapYear y); lia).
  specialize (B2 B3). unfold MakeDay, msPerDay.
  destruct (Z.leb_spec
              (Z.abs ((DayFromYear y
                       + month_start (m - 1) (if isLeapYear y then 1 else 0)
                       + d - 1) * 86400000)) 8640000000000000);
    [reflexivity | lia].
Qed.

End DateBox.

Section PickedDate.

Lemma date_input_value_nonempty y m d : date_input_value y m d <> [].
Proof.
  unfold date_input_value. intros H. apply app_eq_nil in H.
  destruct H as [H _]. now apply padded_nonempty in H.
Qed.

Lemma addTodo_picked {host : JsHost} now_id now_created st y m d :
  trim (inputValue st) <> [] ->
  selectedDate st = date_input_value y m d ->
  0 <= y <= 9999 -> 1 <= m <= 12 -> 1 <= d <= DaysInMonth y (m - 1) ->
  exists t l,
    todos (addTodo now_id now_created st) = t :: todos st
    /\ dueDate t = Some l
    /\ thisTimeValue (heap (addTodo now_id now_created st)) l
       = Some (MakeDay y (m - 1) d * msPerDay).
Proof.
  intros Hne Hsel Hy Hm Hd.
  destruct (addTodo_new_task now_id now_created st Hne)
    as (t & Ht & _ & _ & _ & _ & _ & Hdue & _).
  exists t. destruct (dueDate t) as [l|].
  - exists l. split; [exact Ht|]. split; [reflexivity|].
    destruct Hdue as (_ & _ & _ & ->).
    rewrite Hsel. now apply Date_parse_date_input.
  - rewrite Hsel in Hdue. now apply date_input_value_nonempty in Hdue.
Qed.

(** X13. A date picked in the date box becomes a due date at midnight
    UTC of that day, whatever the zone of the user. *)
Theorem picked_date_is_UTC_midnight {host : JsHost} now_id now_created st y m d :
  trim (inputValue st) <> [] ->
  selectedDate st = date_input_value y m d ->
  0 <= y <= 9999 -> 1 <= m <= 12 -> 1 <= d <= DaysInMonth y (m - 1) ->
  exists t,
    todos (addTodo now_id now_created st) = t :: todos st
    /\ dueInstant (heap (addTodo now_id now_created st)) t
       = Some (Some (MakeDay y (m - 1) d * msPerDay)).
Proof.
  intros Hne Hsel Hy Hm Hd.
  destruct (addTodo_picked now_id now_created st y m d Hne Hsel Hy Hm Hd)
    as (t & l & Ht & Hl & Hv).
  exists t. split; [exact Ht|]. unfold dueInstant. rewrite Hl. cbn. now rewrite Hv.
Qed.

Lemma local_day_of_UTC_midnight D tza :
  - msPerDay <= tza < msPerDay ->
  Day (D * msPerDay + tza) = D + (if tza <? 0 then -1 else 0).
Proof.
  intros Htza. unfold Day, msPerDay in *.
  destruct (Z.ltb_spec tza 0); Z.to_euclidean_division_equations; lia.
Qed.

(** X14. In a zone at a fixed offset, the task is due today on the local
    day that holds midnight UTC of the day picked: the day picked east
    of Greenwich, the day before it west of Greenwich. *)
Theorem picked_date_due_day tza now_id now_created st y m d :
  - msPerDay <= tza < msPerDay ->
  trim (inputValue st) <> [] ->
  selectedDate st = date_input_value y m d ->
  0 <= y <= 9999 -> 1 <= m <= 12 -> 1 <= d <= DaysInMonth y (m - 1) ->
  exists t,
    todos (addTodo (host := fixed_offset_host tza) now_id now_created st)
    = t :: todos st
    /\ forall now,
         isDueToday (host := fixed_offset_host tza) (dueDate t) now
           (heap (addTodo (host := fixed_offset_host tza) now_id now_created st))
         = bool_decide (Day (now + tza)
                        = MakeDay y (m - 1) d + (if tza <? 0 then -1 else 0)).
Proof.
  intros Htza Hne Hsel Hy Hm Hd.
  destruct (addTodo_picked (host := fixed_offset_host tza)
              now_id now_created st y m d Hne Hsel Hy Hm Hd)
    as (t & l & Ht & Hl & Hv).
  exists t. split; [exact Ht|]. intros now.
  rewrite Hl, isDueToday_days, Hv.
  unfold LocalTime. cbn [LocalTZA fixed_offset_host].
  rewrite local_day_of_UTC_midnight by exact Htza.
  apply bool_decide_ext. split; congruence.
Qed.

End PickedDate.

(** New York in winter, UTC-05:00. *)

(** ** Rendering a row *)

Section Rows.
Context {host : JsHost}.

(** What [isOverdue] leaves in the heap does not depend on the clock. *)
Lemma isOverdue_heap_clock d now now' (h : Heap) :
  snd (isOverdue d now h) = snd (isOverdue d now' h).
Proof. now destruct d. Qed.

Lemma tone_heap done d a b (h : Heap) :
  snd (tone done d a b h) = if done then h else snd (isOverdue d a h).
Proof.
  unfold tone. destruct done; [reflexivity|].
  destruct (isOverdue d a h) as [o h'].
  destruct o; [reflexivity|]. now destruct (isDueToday d b h').
Qed.

Lemma tone_fst done d a b (h : Heap) :
  fst (tone done d a b h)
  = if done then Green
    else if fst (isOverdue d a h) then Red
    else if isDueToday d b (snd (isOverdue d a h)) then Yellow else Blue.
Proof.
  unfold tone. destruct done; [reflexivity|].
  destruct (isOverdue d a h) as [o h']. cbn [fst snd].
  destruct o; [reflexivity|]. now destruct (isDueToday d b h').
Qed.

(** The heap one row leaves, in a zone where midnight falls on its day:
    that of a single call of [isOverdue]. *)
Lemma renderRow_heap_once clk todo now (h : Heap) :
  midnight_on_its_day host ->
  snd (renderRow clk todo h) = snd (isOverdue (dueDate todo) now h).
Proof.
  intros Hmid. unfold renderRow.
  pose proof (tone_heap (completed todo) (dueDate todo)
                (border_overdue clk) (border_today clk) h) as T1.
  destruct (tone (completed todo) (dueDate todo) _ _ h) as [b h1].
  cbn [snd] in T1.
  destruct (dueDate todo) as [l|] eqn:Ed.
  - pose proof (tone_heap (completed todo) (Some l)
                  (badge_overdue clk) (badge_today clk) h1) as T2.
    destruct (tone (completed todo) (Some l) _ _ h1) as [bt h2].
    cbn [snd] in T2.
    destruct (isOverdue (Some l) (label_overdue clk) h2) as [o h3] eqn:E3.
    cbn [snd].
    assert (h3 = snd (isOverdue (Some l) (label_overdue clk) h2)) as ->
      by now rewrite E3.
    subst h2 h1.
    destruct (completed todo).
    + apply isOverdue_heap_clock.
    + rewrite (isOverdue_heap_clock _ (label_overdue clk) now).
      rewrite (proj1 (isOverdue_idempotent _ _ _ _ Hmid)).
      rewrite (isOverdue_heap_clock _ (badge_overdue clk) now).
      rewrite (proj1 (isOverdue_idempotent _ _ _ _ Hmid)).
      apply isOverdue_heap_clock.
  - cbn [snd]. subst h1. now destruct (completed todo).
Qed.

(** X15. In a zone where midnight falls on its day, rendering a row,
    completed or not and whatever the clock reads, leaves the Date
    objects as one call of [isOverdue] on its due date does: the due
    date at its local midnight. *)
Theorem renderRow_moves_dueDate clk todo now (h : Heap) :
  midnight_on_its_day host ->
  snd (renderRow clk todo h) = snd (isOverdue (dueDate todo) now h).
Proof. apply renderRow_heap_once. Qed.

(** X16. A completed task is rendered green, struck through and without
    the labels "Overdue" and "Today", whatever its due date and the
    clock. *)
Theorem renderRow_completed clk todo (h : Heap) :
  completed todo = true ->
  border (fst (renderRow clk todo h)) = Green
  /\ struck (fst (renderRow clk todo h)) = true
  /\ forall b, badge (fst (renderRow clk todo h)) = Some b ->
       badge_tone b = Green /\ overdue_label b = false /\ today_label b = false.
Proof.
  intros Hc. unfold renderRow, tone. rewrite Hc.
  destruct (dueDate todo) as [l|].
  - destruct (isOverdue (Some l) (label_overdue clk) h) as [o h3].
    cbn [fst border struck badge]. repeat split; try reflexivity;
      injection H as <-; cbn; now rewrite ?andb_false_r.
  - cbn [fst border struck badge]. repeat split; try reflexivity; discriminate.
Qed.

(** X17. The two labels of a row are never shown together when the two
    calls behind them read the same instant, in a zone where midnight
    falls on its day. *)
Theorem renderRow_labels_exclusive clk todo (h : Heap) b :
  midnight_on_its_day host ->
  label_overdue clk = label_today clk ->
  badge (fst (renderRow clk todo h)) = Some b ->
  overdue_label b && today_label b = false.
Proof.
  intros Hmid Hclk. unfold renderRow.
  destruct (tone (completed todo) (dueDate todo) _ _ h) as [bo h1].
  destruct (dueDate todo) as [l|]; [|discriminate].
  destruct (tone (completed todo) (Some l) _ _ h1) as [bt h2].
  pose proof (isDueToday_after_isOverdue h2 l (label_overdue clk) Hmid) as X.
  rewrite <- Hclk.
  destruct (isOverdue (Some l) (label_overdue clk) h2) as [o h3].
  cbn [fst snd badge] in *. intros [= <-]. cbn [overdue_label today_label].
  destruct o; [|reflexivity]. cbn [andb] in X |- *.
  replace (bool_decide _) with false by (symmetry; exact X).
  now rewrite andb_false_r.
Qed.

(** X18. With a clock that reads one instant during the row, in such a
    zone, the row is of one piece: the badge has the colour of the
    border, "Overdue" is shown exactly on a red row and "Today" exactly
    on a yellow one. *)
Theorem renderRow_coherent now todo (h : Heap) b :
  midnight_on_its_day host ->
  badge (fst (renderRow (frozen_clock now) todo h)) = Some b ->
  badge_tone b = border (fst (renderRow (frozen_clock now) todo h))
  /\ (overdue_label b = true
      <-> border (fst (renderRow (frozen_clock now) todo h)) = Red)
  /\ (today_label b = true
      <-> border (fst (renderRow (frozen_clock now) todo h)) = Yellow).
Proof.
  intros Hmid. unfold renderRow. cbn [frozen_clock border_overdue border_today
    badge_overdue badge_today label_overdue label_today].
  pose proof (tone_heap (completed todo) (dueDate todo) now now h) as T1.
  pose proof (tone_fst (completed todo) (dueDate todo) now now h) as F1.
  destruct (tone (completed todo) (dueDate todo) now now h) as [bo h1].
  cbn [fst snd] in T1, F1.
  destruct (dueDate todo) as [l|]; [|discriminate].
  pose proof (tone_heap (completed todo) (Some l) now now h1) as T2.
  pose proof (tone_fst (completed todo) (Some l) now now h1) as F2.
  destruct (tone (completed todo) (Some l) now now h1) as [bt h2].
  cbn [fst snd] in T2, F2.
  pose proof (isDueToday_after_isOverdue h l now Hmid) as X.
  destruct (isOverdue_idempotent (Some l) now now h Hmid) as [I1 I2].
  destruct (isOverdue (Some l) now h2) as [o h3] eqn:E3.
  cbn [fst snd badge border]. intros [= <-].
  cbn [badge_tone overdue_label today_label].
  destruct (completed todo).
  - subst. rewrite !andb_false_r. repeat split; try discriminate.
  - subst h1 h2. rewrite I1 in *. rewrite I2 in F2.
    assert (o = fst (isOverdue (Some l) now h)) as ->
      by (rewrite <- I2, E3; reflexivity).
    assert (h3 = snd (isOverdue (Some l) now h)) as ->
      by (rewrite <- I1, E3; reflexivity).
    subst bo bt. rewrite !andb_true_r.
    change (bool_decide _)
      with (isDueToday (Some l) now (snd (isOverdue (Some l) now h))).
    clear E3 I1 I2.
    destruct (fst (isOverdue (Some l) now h)),
      (isDueToday (Some l) now (snd (isOverdue (Some l) now h)));
      try discriminate X; repeat split; try discriminate; reflexivity.
Qed.

End Rows.

(** ** Rendering the list *)

Section Rendering.
Context {host : JsHost}.

Lemma isOverdue_writes d now (h : Heap) l' :
  d <> Some l' -> snd (isOverdue d now h) !! l' = h !! l'.
Proof.
  destruct d as [l|]; [|reflexivity]. intros Hne.
  cbn [isOverdue snd]. apply lookup_insert_ne. congruence.
Qed.

Lemma isOverdue_reads d now (h : Heap) l' :
  d <> Some l' ->
  thisTimeValue (snd (isOverdue d now h)) l' = thisTimeValue h l'.
Proof. intros H. unfold thisTimeValue. now rewrite isOverdue_writes. Qed.

Lemma isOverdue_allocated d now (h : Heap) l' :
  is_Some (h !! l') -> is_Some (snd (isOverdue d now h) !! l').
Proof.
  destruct d as [l|]; [|easy]. intros Hl'. cbn [isOverdue snd].
  destruct (decide (l = l')) as [->|Hne].
  - rewrite lookup_insert_eq. eauto.
  - now rewrite lookup_insert_ne.
Qed.

(** A row writes into the Date object of its due date and into no
    other, in every zone. *)
Lemma renderRow_writes clk todo (h : Heap) l' :
  (dueDate todo <> Some l' -> snd (renderRow clk todo h) !! l' = h !! l')
  /\ (is_Some (h !! l') -> is_Some (snd (renderRow clk todo h) !! l')).
Proof.
  unfold renderRow.
  pose proof (tone_heap (completed todo) (dueDate todo)
                (border_overdue clk) (border_today clk) h) as T1.
  destruct (tone (completed todo) (dueDate todo) _ _ h) as [b h1].
  cbn [snd] in T1.
  assert ((dueDate todo <> Some l' -> h1 !! l' = h !! l')
          /\ (is_Some (h !! l') -> is_Some (h1 !! l'))) as [W1 A1].
  { subst h1. destruct (completed todo); [tauto|].
    split; [apply isOverdue_writes | apply isOverdue_allocated]. }
  destruct (dueDate todo) as [l|] eqn:Ed; [|cbn [snd]; tauto].
  pose proof (tone_heap (completed todo) (Some l)
                (badge_overdue clk) (badge_today clk) h1) as T2.
  destruct (tone (completed todo) (Some l) _ _ h1) as [bt h2].
  cbn [snd] in T2.
  assert ((Some l <> Some l' -> h2 !! l' = h1 !! l')
          /\ (is_Some (h1 !! l') -> is_Some (h2 !! l'))) as [W2 A2].
  { subst h2. destruct (completed todo); [tauto|].
    split; [apply isOverdue_writes | apply isOverdue_allocated]. }
  pose proof (isOverdue_writes (Some l) (label_overdue clk) h2 l') as W3.
  pose proof (isOverdue_allocated (Some l) (label_overdue clk) h2 l') as A3.
  destruct (isOverdue (Some l) (label_overdue clk) h2) as [o h3].
  cbn [snd] in *. split.
  - intros Hne. now rewrite W3, W2, W1.
  - auto.
Qed.

Lemma renderRows_writes clock ts : forall i (h : Heap) l',
  (Forall (fun t => dueDate t <> Some l') ts ->
   snd (renderRows clock i ts h) !! l' = h !! l')
  /\ (is_Some (h !! l') -> is_Some (snd (renderRows clock i ts h) !! l')).
Proof.
  induction ts as [|t ts IH]; intros i h l'; [cbn; tauto|].
  cbn [renderRows].
  destruct (renderRow_writes (clock i) t h l') as [W A].
  destruct (renderRow (clock i) t h) as [r h1]. cbn [snd] in W, A.
  destruct (IH (S i) h1 l') as [W' A'].
  destruct (renderRows clock (S i) ts h1) as [rs h2]. cbn [snd] in *.
  split.
  - intros Hall. apply Forall_cons in Hall. destruct Hall as [Ht Hts].
    now rewrite W', W.
  - auto.
Qed.

(** In a zone where midnight falls on its day, the list leaves every
    due date at its local midnight. *)
Lemma renderRows_due clock ts : forall i (h : Heap) l,
  midnight_on_its_day host ->
  Exists (fun t => dueDate t = Some l) ts ->
  thisTimeValue (snd (renderRows clock i ts h)) l
  = setHours0 (thisTimeValue h l).
Proof.
  induction ts as [|t ts IH]; intros i h l Hmid Hex;
    [now apply Exists_nil in Hex|].
  cbn [renderRows].
  pose proof (renderRow_heap_once (clock i) t 0 h Hmid) as R.
  destruct (renderRow (clock i) t h) as [r h1]. cbn [snd] in R.
  pose proof (IH (S i) h1 l Hmid) as IH'.
  destruct (renderRows_writes clock ts (S i) h1 l) as [W _].
  destruct (renderRows clock (S i) ts h1) as [rs h2]. cbn [snd] in *.
  destruct (decide (Exists (fun t => dueDate t = Some l) ts)) as [Hin|Hout].
  - rewrite (IH' Hin). subst h1.
    destruct (decide (dueDate t = Some l)) as [E|E].
    + rewrite E. cbn [isOverdue snd]. rewrite thisTimeValue_insert.
      now apply setHours0_idempotent.
    + now rewrite isOverdue_reads.
  - apply Exists_cons in Hex. destruct Hex as [E|Hin]; [|contradiction].
    unfold thisTimeValue at 1. rewrite W.
    + subst h1. rewrite E. cbn [isOverdue snd]. apply thisTimeValue_insert.
    + apply Forall_forall. intros t' Ht' E'. apply Hout.
      apply Exists_exists. eauto.
Qed.

Lemma render_state clock st :
  todos (snd (render clock st)) = todos st
  /\ inputValue (snd (render clock st)) = inputValue st
  /\ selectedDate (snd (render clock st)) = selectedDate st
  /\ heap (snd (render clock st))
     = snd (renderRows clock 0 (todos st) (heap st)).
Proof.
  unfold render. now destruct (renderRows clock 0 (todos st) (heap st)).
Qed.

Lemma render_again clock clock' st :
  midnight_on_its_day host ->
  snd (render clock' (snd (render clock st))) = snd (render clock st).
Proof.
  intros Hmid.
  destruct (render_state clock st) as (T1 & I1 & S1 & H1).
  destruct (render_state clock' (snd (render clock st))) as (T2 & I2 & S2 & H2).
  assert (heap (snd (render clock' (snd (render clock st))))
          = heap (snd (render clock st))) as Hh.
  { rewrite H2, T1. apply map_eq. intros l.
    destruct (decide (Exists (fun t => dueDate t = Some l) (todos st)))
      as [Hin|Hout].
    - pose proof (renderRows_due clock' (todos st) 0
                    (heap (snd (render clock st))) l Hmid Hin) as D2.
      pose proof (renderRows_due clock (todos st) 0 (heap st) l Hmid Hin) as D1.
      rewrite <- H1 in D1. rewrite D1, setHours0_idempotent, <- D1 in D2
        by exact Hmid.
      destruct (renderRows_writes clock' (todos st) 0
                  (heap (snd (render clock st))) l) as [_ A2].
      assert (is_Some (heap (snd (render clock st)) !! l)) as [v Hv].
      { rewrite H1.
        apply Exists_exists in Hin. destruct Hin as (t & Ht & Hd).
        clear -Ht Hd. revert Ht. generalize 0%nat (heap st).
        induction (todos st) as [|t' ts IH]; intros i h Ht;
          [now apply elem_of_nil in Ht|].
        cbn [renderRows].
        pose proof (renderRow_writes (clock i) t' h l) as [_ Aa].
        destruct (renderRow (clock i) t' h) as [r h1] eqn:Er. cbn [snd] in Aa.
        pose proof (renderRows_writes clock ts (S i) h1 l) as [_ Ab].
        specialize (IH (S i) h1).
        destruct (renderRows clock (S i) ts h1) as [rs h2]. cbn [snd] in *.
        apply elem_of_cons in Ht. destruct Ht as [<-|Ht]; [|now apply IH].
        apply Ab.
        unfold renderRow in Er. rewrite Hd in Er.
        destruct (tone (completed t) (Some l) _ _ h) as [bo ha].
        destruct (tone (completed t) (Some l) _ _ ha) as [bt hb].
        cbn [isOverdue] in Er. injection Er as _ <-.
        rewrite lookup_insert_eq. eauto. }
      destruct (A2 (ex_intro _ v Hv)) as [v2 Hv2].
      unfold thisTimeValue in D2. rewrite Hv, Hv2 in D2. cbn in D2.
      now rewrite Hv, Hv2, D2.
    - apply renderRows_writes. apply Forall_forall. intros t Ht E.
      apply Hout. apply Exists_exists. eauto. }
  destruct (snd (render clock' (snd (render clock st)))) as [h2 t2 i2 s2].
  destruct (snd (render clock st)) as [h1 t1 i1 s1].
  cbn [todos inputValue selectedDate heap] in *. congruence.
Qed.

(** X19. One evaluation of the component function keeps the tasks and
    the form, writes into no Date object that is not the due date of a
    task and, in a zone where midnight falls on its day, leaves every
    due date at its local midnight; a second evaluation, whatever the
    clock reads by then, changes nothing more. *)
Theorem render_effect clock clock' st :
  midnight_on_its_day host ->
  todos (snd (render clock st)) = todos st
  /\ inputValue (snd (render clock st)) = inputValue st
  /\ selectedDate (snd (render clock st)) = selectedDate st
  /\ (forall t l, In t (todos st) -> dueDate t = Some l ->
        thisTimeValue (heap (snd (render clock st))) l
        = setHours0 (thisTimeValue (heap st) l))
  /\ (forall l, Forall (fun t => dueDate t <> Some l) (todos st) ->
        heap (snd (render clock st)) !! l = heap st !! l)
  /\ snd (render clock' (snd (render clock st))) = snd (render clock st).
Proof.
  intros Hmid. destruct (render_state clock st) as (T1 & I1 & S1 & H1).
  repeat (split; [assumption|]). split; [|split].
  - intros t l Ht Hd. rewrite H1. apply renderRows_due; [exact Hmid|].
    apply Exists_exists. exists t. split; [now apply list_elem_of_In | exact Hd].
  - intros l Hl. rewrite H1. now apply renderRows_writes.
  - now apply render_again.
Qed.

End Rendering.

(** ** Invariants of the state machine *)

Section Invariants.
Context {host : JsHost}.

(** A property of the state that every step keeps holds after every
    run. *)
Lemma run_invariant (P : State -> Prop) :
  (forall e st, P st -> P (step e st)) ->
  forall es st, P st -> P (run es st).
Proof.
  intros Hstep es. induction es as [|e es IH]; intros st Hst; [exact Hst|].
  cbn [run fold_left]. apply IH. now apply Hstep.
Qed.

Lemma addTodo_cases now_id now_created st :
  addTodo now_id now_created st = st
  \/ exists t, todos (addTodo now_id now_created st) = t :: todos st
       /\ id t = now_id /\ title t = trim (inputValue st)
       /\ trim (inputValue st) <> []
       /\ NoDup (date_locs t)
       /\ Forall (fun l => heap st !! l = None
                           /\ is_Some (heap (addTodo now_id now_created st) !! l))
            (date_locs t)
       /\ thisTimeValue (heap (addTodo now_id now_created st)) (createdAt t)
          = Some now_created
       /\ forall l, is_Some (heap st !! l) ->
            heap (addTodo now_id now_created st) !! l = heap st !! l.
Proof.
  destruct (decide (trim (inputValue st) <> [])) as [Hne|Hb].
  - right.
    destruct (addTodo_new_task now_id now_created st Hne)
      as (t & Ht & Hid & Htitle & _ & Hc & Hcv & Hdue & _ & _ & Hkeep).
    exists t. repeat (split; [assumption|]).
    assert (is_Some (heap (addTodo now_id now_created st) !! createdAt t)) as Sc.
    { unfold thisTimeValue in Hcv.
      destruct (heap (addTodo now_id now_created st) !! createdAt t); [eauto|].
      discriminate. }
    split; [|split; [|split; assumption]].
    + unfold date_locs. destruct (dueDate t) as [l|].
      * destruct Hdue as (_ & _ & Hlc & _).
        apply NoDup_cons. split; [|apply NoDup_singleton].
        intros H. apply list_elem_of_singleton in H. congruence.
      * apply NoDup_singleton.
    + unfold date_locs. destruct (dueDate t) as [l|] eqn:Ed.
      * destruct Hdue as (_ & Hl & Hlc & Hlv).
        repeat constructor; try assumption.
        revert Ht Ed. unfold addTodo. rewrite decide_True by exact Hne.
        unfold alloc. destruct (truthy_string (selectedDate st)).
        -- cbn [todos heap]. intros [= <-]. cbn [dueDate]. intros [= <-].
           rewrite lookup_insert_eq. eauto.
        -- cbn [todos]. intros [= <-]. discriminate.
      * repeat constructor; assumption.
  - left. unfold addTodo. now rewrite decide_False by exact Hb.
Qed.

Lemma step_adds e st a b : adds e = Some (a, b) -> step e st = addTodo a b st.
Proof.
  destruct e; cbn [adds step]; try discriminate.
  - now intros [= -> ->].
  - unfold handleKeyPress. destruct (decide _); [|discriminate].
    now intros [= -> ->].
Qed.

(** A step that does not call [addTodo] keeps some of the tasks, in
    their order, with their ids, titles and Date objects, writes into
    due dates only and frees nothing. *)
Lemma step_other e st :
  adds e = None ->
  exists f ts,
    (forall t, id (f t) = id t /\ title (f t) = title t
               /\ createdAt (f t) = createdAt t /\ dueDate (f t) = dueDate t)
    /\ sublist ts (todos st)
    /\ todos (step e st) = List.map f ts
    /\ (forall l, is_Some (heap st !! l) -> is_Some (heap (step e st) !! l))
    /\ (forall l, Forall (fun t => dueDate t <> Some l) (todos st) ->
          heap (step e st) !! l = heap st !! l).
Proof.
  intros He.
  assert (forall st', todos st' = todos st -> heap st' = heap st ->
          exists f ts,
            (forall t, id (f t) = id t /\ title (f t) = title t
               /\ createdAt (f t) = createdAt t /\ dueDate (f t) = dueDate t)
            /\ sublist ts (todos st)
            /\ todos st' = List.map f ts
            /\ (forall l, is_Some (heap st !! l) -> is_Some (heap st' !! l))
            /\ (forall l, Forall (fun t => dueDate t <> Some l) (todos st) ->
                  heap st' !! l = heap st !! l)) as Same.
  { intros st' E Eh. exists (fun t => t), (todos st). split; [easy|].
    split; [reflexivity|]. rewrite List.map_id, Eh. easy. }
  destruct e as [s|s|a b|k a b|x|x| |clock]; cbn [adds step] in *;
    try discriminate.
  - now apply Same.
  - now apply Same.
  - unfold handleKeyPress. destruct (decide _); [discriminate|]. now apply Same.
  - eexists _, (todos st). split; [|split; [reflexivity|split; [reflexivity|easy]]].
    intros t. cbv beta. now destruct (id t =? x).
  - exists (fun t => t). eexists. split; [easy|]. split; [apply filter_sublist|].
    cbn. rewrite List.map_id. easy.
  - exists (fun t => t). eexists. split; [easy|]. split; [apply filter_sublist|].
    cbn. rewrite List.map_id. easy.
  - destruct (render_state clock st) as (T & _ & _ & H).
    exists (fun t => t), (todos st). split; [easy|]. split; [reflexivity|].
    rewrite List.map_id. split; [exact T|]. rewrite H. split.
    + intros l. apply renderRows_writes.
    + intros l. apply renderRows_writes.
Qed.

(** *** Titles *)

Lemma step_titles e st :
  Forall (fun t => trimmed_title (title t)) (todos st) ->
  Forall (fun t => trimmed_title (title t)) (todos (step e st)).
Proof.
  intros Hst. destruct (adds e) as [[a b]|] eqn:He.
  - rewrite (step_adds e st a b He).
    destruct (addTodo_cases a b st) as [->|(t & -> & _ & Ht & Hne & _)];
      [exact Hst|].
    constructor; [|exact Hst]. rewrite Ht. now apply trim_trimmed.
  - destruct (step_other e st He) as (f & ts & Hf & Hsub & -> & _).
    apply Forall_forall. intros t' Ht'. apply list_elem_of_In in Ht'.
    apply in_map_iff in Ht'. destruct Ht' as (t & <- & Ht).
    destruct (Hf t) as (_ & -> & _).
    rewrite Forall_forall in Hst. apply Hst.
    eapply elem_of_sublist; [|exact Hsub]. now apply list_elem_of_In.
Qed.

(** X20. Whatever the user does, every task of the collection has a
    title that is not empty and has no white space at either end. *)
Theorem titles_trimmed es :
  Forall (fun t => trimmed_title (title t)) (todos (run es initial)).
Proof.
  apply (run_invariant
           (fun st => Forall (fun t => trimmed_title (title t)) (todos st))).
  - apply step_titles.
  - constructor.
Qed.

(** *** Date objects *)

Lemma flat_map_sublist {A B} (f : A -> list B) (l k : list A) :
  sublist l k -> sublist (flat_map f l) (flat_map f k).
Proof.
  induction 1 as [|x l k _ IH|x l k _ IH]; cbn [flat_map].
  - constructor.
  - now apply sublist_app.
  - now apply sublist_inserts_l.
Qed.

Lemma flat_map_date_locs f ts :
  (forall t, createdAt (f t) = createdAt t /\ dueDate (f t) = dueDate t) ->
  flat_map date_locs (List.map f ts) = flat_map date_locs ts.
Proof.
  intros Hf. induction ts as [|t ts IH]; [reflexivity|].
  cbn [List.map flat_map]. rewrite IH. unfold date_locs.
  destruct (Hf t) as [-> ->]. reflexivity.
Qed.

Lemma step_unshared e st : dates_unshared st -> dates_unshared (step e st).
Proof.
  intros [Hnd Hex]. destruct (adds e) as [[a b]|] eqn:He.
  - rewrite (step_adds e st a b He).
    destruct (addTodo_cases a b st)
      as [->|(t & Ht & _ & _ & _ & Hndt & Hnew & _ & Hkeep)]; [now split|].
    unfold dates_unshared, all_date_locs. rewrite Ht. cbn [flat_map].
    split.
    + apply NoDup_app. split; [exact Hndt|]. split; [|exact Hnd].
      intros l Hl Hl'.
      rewrite Forall_forall in Hnew, Hex.
      destruct (Hnew l Hl) as [N _]. destruct (Hex l Hl') as [v Hv].
      congruence.
    + apply Forall_app. split.
      * eapply Forall_impl; [exact Hnew|]. now intros l [_ H].
      * eapply Forall_impl; [exact Hex|]. intros l Hl. cbv beta.
        now rewrite Hkeep.
  - destruct (step_other e st He) as (f & ts & Hf & Hsub & Hts & Hsome & _).
    assert (flat_map date_locs (todos (step e st)) = flat_map date_locs ts) as E.
    { rewrite Hts. apply flat_map_date_locs. intros t.
      destruct (Hf t) as (_ & _ & ? & ?). now split. }
    pose proof (flat_map_sublist date_locs _ _ Hsub) as S.
    unfold dates_unshared, all_date_locs. rewrite E. split.
    + eapply sublist_NoDup; [exact Hnd | exact S].
    + apply Forall_forall. intros l Hl. apply Hsome.
      rewrite Forall_forall in Hex. apply Hex.
      eapply elem_of_sublist; [exact Hl | exact S].
Qed.

Lemma run_unshared es : forall st, dates_unshared st -> dates_unshared (run es st).
Proof. apply run_invariant. intros e st. apply step_unshared. Qed.

Lemma initial_unshared : dates_unshared initial.
Proof. split; [apply NoDup_nil_2 | constructor]. Qed.

(** X21. Whatever the user does, every Date object a task of the
    collection refers to exists, and no two references (of one task or
    of two) are to the same object: what [isOverdue] writes into one
    due date shows in no other date. *)
Theorem dates_never_shared es : dates_unshared (run es initial).
Proof. apply run_unshared, initial_unshared. Qed.

Lemma unshared_created_not_due ts :
  NoDup (flat_map date_locs ts) ->
  forall t t', In t ts -> In t' ts -> dueDate t' <> Some (createdAt t).
Proof.
  induction ts as [|a ts IH]; intros Hnd t t' Ht Ht'; [destruct Ht|].
  cbn [flat_map] in Hnd. apply NoDup_app in Hnd.
  destruct Hnd as (Ha & Hdis & Hts).
  assert (forall x l, In x ts -> l ∈ date_locs x -> l ∈ flat_map date_locs ts)
    as Hin.
  { intros x l Hx Hl. apply list_elem_of_In, in_flat_map.
    exists x. split; [exact Hx | now apply list_elem_of_In]. }
  assert (forall x, createdAt x ∈ date_locs x) as Hc
    by (intros x; unfold date_locs; apply list_elem_of_here).
  assert (forall x l, dueDate x = Some l -> l ∈ date_locs x) as Hd.
  { intros x l E. unfold date_locs. rewrite E.
    apply list_elem_of_further, list_elem_of_here. }
  intros E.
  destruct Ht as [<-|Ht], Ht' as [<-|Ht'].
  - unfold date_locs in Ha. rewrite E in Ha.
    apply NoDup_cons in Ha. destruct Ha as [Ha _]. apply Ha.
    apply list_elem_of_here.
  - apply (Hdis (createdAt a) (Hc a)). eapply Hin; [exact Ht'|]. now apply Hd.
  - apply (Hdis (createdAt t)); [now apply Hd|]. eapply Hin; [exact Ht | apply Hc].
  - now apply (IH Hts t t' Ht Ht').
Qed.

(** *** Keys *)

Lemma Forall_sublist {A} (P : A -> Prop) (l k : list A) :
  sublist l k -> Forall P k -> Forall P l.
Proof.
  intros Hs Hk. apply Forall_forall. intros x Hx.
  rewrite Forall_forall in Hk. apply Hk.
  eapply elem_of_sublist; [exact Hx | exact Hs].
Qed.

Lemma strictly_decreasing_sublist l k :
  sublist l k -> strictly_decreasing k -> strictly_decreasing l.
Proof.
  induction 1 as [|x l k Hs IH|x l k Hs IH]; cbn [strictly_decreasing].
  - easy.
  - intros [Hx Hk]. split; [|now apply IH].
    eapply Forall_sublist; [exact Hs | exact Hx].
  - intros [_ Hk]. now apply IH.
Qed.

Lemma strictly_decreasing_NoDup l : strictly_decreasing l -> List.NoDup l.
Proof.
  induction l as [|x l IH]; cbn [strictly_decreasing]; [constructor|].
  intros [Hx Hl]. constructor; [|now apply IH].
  intros Hin. rewrite Forall_forall in Hx.
  apply list_elem_of_In in Hin. specialize (Hx x Hin). lia.
Qed.

Lemma takes_blank e st a b :
  adds e = Some (a, b) -> takes e st = None -> step e st = st.
Proof.
  intros He. unfold takes. rewrite He. rewrite (step_adds e st a b He).
  unfold addTodo. destruct (decide _); [discriminate|reflexivity].
Qed.

Lemma takes_adds e st p : takes e st = Some p -> adds e = Some p.
Proof.
  unfold takes. destruct (adds e); [|discriminate].
  now destruct (decide _).
Qed.

Lemma takes_none e st :
  takes e st = None ->
  sublist (ids (step e st)) (ids st)
  /\ forall t, In t (todos (step e st)) ->
       exists t0, In t0 (todos st) /\ createdAt t = createdAt t0.
Proof.
  intros Hn. destruct (adds e) as [[a b]|] eqn:He.
  - rewrite (takes_blank e st a b He Hn). split; [reflexivity|]. eauto.
  - destruct (step_other e st He) as (f & ts & Hf & Hsub & Hts & _).
    unfold ids. rewrite Hts. split.
    + rewrite List.map_map.
      rewrite (List.map_ext (fun x => id (f x)) id) by (intros t; apply Hf).
      now apply (fmap_sublist id).
    + intros t Ht. apply in_map_iff in Ht. destruct Ht as (t0 & <- & Ht0).
      exists t0. split; [|apply Hf].
      apply list_elem_of_In. eapply elem_of_sublist; [|exact Hsub].
      now apply list_elem_of_In.
Qed.

Lemma run_ids es : forall st lo,
  strictly_decreasing (ids st) -> Forall (fun y => y <= lo) (ids st) ->
  increasing_from lo (List.map fst (readings es st)) ->
  strictly_decreasing (ids (run es st)).
Proof.
  induction es as [|e es IH]; intros st lo Hd Hlo Hinc; [exact Hd|].
  cbn [run fold_left]. cbn [readings] in Hinc.
  destruct (takes e st) as [[a b]|] eqn:Ht.
  - cbn [app List.map fst increasing_from] in Hinc. destruct Hinc as [Hlt Hinc].
    pose proof (takes_adds _ _ _ Ht) as He.
    rewrite (step_adds e st a b He) in *.
    destruct (addTodo_cases a b st) as [E|(t & Hts & Hid & _)].
    + rewrite E in *. apply (IH st a); [exact Hd| |exact Hinc].
      eapply Forall_impl; [exact Hlo|]. intros y Hy. cbv beta in *. lia.
    + assert (Forall (fun y => y < a) (ids st)) as Hlt'.
      { eapply Forall_impl; [exact Hlo|]. intros y Hy. cbv beta in *. lia. }
      apply (IH _ a); [| |exact Hinc]; unfold ids; rewrite Hts;
        cbn [List.map]; rewrite Hid.
      * split; assumption.
      * constructor; [lia|].
        eapply Forall_impl; [exact Hlt'|]. intros y Hy. cbv beta in *. lia.
  - cbn [app] in Hinc. destruct (takes_none e st Ht) as [Hsub _].
    apply (IH _ lo); [| |exact Hinc].
    + eapply strictly_decreasing_sublist; [exact Hsub | exact Hd].
    + eapply Forall_sublist; [exact Hsub | exact Hlo].
Qed.

(** X22. When each reading of [Date.now()] that [addTodo] takes is later
    than the one before, the ids of the collection, from first to last,
    are strictly decreasing, whatever else the user does: no two tasks
    have the same id, and the newest is first. *)
Theorem ids_strictly_decreasing es :
  increasing (List.map fst (readings es initial)) ->
  strictly_decreasing (ids (run es initial))
  /\ List.NoDup (ids (run es initial)).
Proof.
  intros Hinc.
  assert (strictly_decreasing (ids (run es initial))) as H.
  { destruct (List.map fst (readings es initial)) as [|r rs] eqn:E.
    - apply (run_ids es initial 0); [exact I | constructor | now rewrite E].
    - apply (run_ids es initial (r - 1)); [exact I | constructor |].
      rewrite E. cbn [increasing increasing_from] in *. split; [lia | exact Hinc]. }
  split; [exact H | now apply strictly_decreasing_NoDup].
Qed.

(** *** Saving and loading in any reachable state *)

Lemma step_reloadable e st :
  Forall (fun p => Z.abs (snd p) <= 8640000000000000)
    (match takes e st with Some p => [p] | None => [] end) ->
  reloadable st -> reloadable (step e st).
Proof.
  intros Hr [Hu Hc]. split; [now apply step_unshared|].
  destruct Hu as [Hnd Hex].
  destruct (adds e) as [[a b]|] eqn:He.
  - rewrite (step_adds e st a b He).
    destruct (addTodo_cases a b st)
      as [->|(t & Ht & _ & _ & Hne & _ & _ & Hcv & Hkeep)]; [exact Hc|].
    unfold takes in Hr. rewrite He, decide_True in Hr by exact Hne.
    apply Forall_cons in Hr. destruct Hr as [Hb _]. cbn [snd] in Hb.
    rewrite Ht. constructor.
    + exists b. now split.
    + apply Forall_forall. intros t0 Ht0.
      rewrite Forall_forall in Hc. destruct (Hc t0 Ht0) as (z & Hz & Hzr).
      exists z. split; [|exact Hzr].
      unfold thisTimeValue in *. rewrite Hkeep; [exact Hz|].
      rewrite Forall_forall in Hex. apply Hex.
      apply list_elem_of_In, in_flat_map. exists t0.
      split; [now apply list_elem_of_In | now left].
  - destruct (step_other e st He) as (f & ts & Hf & Hsub & Hts & _ & Hsame).
    rewrite Hts. apply Forall_forall. intros t' Ht'.
    apply list_elem_of_In, in_map_iff in Ht'. destruct Ht' as (t & <- & Ht).
    assert (In t (todos st)) as Hin.
    { apply list_elem_of_In. eapply elem_of_sublist; [|exact Hsub].
      now apply list_elem_of_In. }
    rewrite Forall_forall in Hc.
    destruct (Hc t) as (z & Hz & Hzr); [now apply list_elem_of_In|].
    exists z. split; [|exact Hzr].
    destruct (Hf t) as (_ & _ & -> & _).
    unfold thisTimeValue in *. rewrite Hsame; [exact Hz|].
    apply Forall_forall. intros t' Ht'.
    apply (unshared_created_not_due _ Hnd t t' Hin).
    now apply list_elem_of_In.
Qed.

Lemma run_reloadable es : forall st,
  Forall (fun p => Z.abs (snd p) <= 8640000000000000) (readings es st) ->
  reloadable st -> reloadable (run es st).
Proof.
  induction es as [|e es IH]; intros st Hr Hst; [exact Hst|].
  cbn [run fold_left]. cbn [readings] in Hr. apply Forall_app in Hr.
  destruct Hr as [Hr1 Hr2]. apply IH; [exact Hr2|].
  now apply step_reloadable.
Qed.

(** X23. In every state the user can reach, as long as the instants
    [new Date()] gave to [addTodo] are time values in range: what the
    save effect writes, the load effect reads back as one record for
    each task, in order, with [id], [title] and [completed] as they
    were, [createdAt] a new Date of the same instant, and [dueDate],
    when there was one, the text that was stored. *)
Theorem reachable_load_after_save es h0 :
  Forall (fun p => Z.abs (snd p) <= 8640000000000000) (readings es initial) ->
  exists h' vs,
    loadTodos h0 (saveTodos (run es initial)) = (h', vs)
    /\ Forall2 (reloaded (heap (run es initial)) h') (todos (run es initial)) vs.
Proof.
  intros Hr. apply load_after_save.
  apply (run_reloadable es initial Hr).
  split; [apply initial_unshared | constructor].
Qed.

End Invariants.

(** ** Number values *)

(** An integer of at most 53 bits is a Number: it is its own Number
    value, and [new Date] of it holds it when it is a time value in
    range. *)
Lemma TimeClip_binary64_integer n :
  Z.abs n <= 2 ^ 53 -> TimeClip_Number (binary64 n 0) = TimeClip n.
Proof.
  intros Hn.
  destruct (Z.eq_dec (Z.abs n) (2 ^ 53)) as [Hmax|Hmax].
  { assert (n = 2 ^ 53 \/ n = - 2 ^ 53) as [->| ->] by lia;
      vm_compute; reflexivity. }
  unfold binary64.
  destruct (Z.eqb_spec n 0) as [->|Hn0]; [reflexivity|].
  change (Z.max 0 0) with 0. change (Z.max (- 0) 0) with 0.
  change (10 ^ 0) with 1. rewrite Z.mul_1_r.
  change (Z.log2 1) with 0. rewrite Z.sub_0_r.
  set (a := Z.abs n) in *. set (L := Z.log2 a).
  assert (0 < a) as Ha by (unfold a; lia).
  destruct (Z.log2_spec a Ha) as [Hlo Hhi]. fold L in Hlo, Hhi.
  assert (0 <= L) as HL0 by apply Z.log2_nonneg.
  assert (L <= 52) as HL.
  { destruct (Z_le_gt_dec L 52) as [|Hgt]; [assumption|].
    assert (2 ^ 53 <= 2 ^ L) by (apply Z.pow_le_mono_r; lia). lia. }
  rewrite (Z.max_r (- L) 0), (Z.max_l L 0) by lia.
  rewrite Z.pow_0_r, Z.mul_1_r, Z.mul_1_l.
  destruct (Z.ltb_spec a (2 ^ L)) as [Hlt|_]; [lia|].
  assert (Z.max (L - 52) (-1074) = L - 52) as -> by lia.
  rewrite (Z.max_r (L - 52) 0) by lia.
  replace (Z.max (- (L - 52)) 0) with (52 - L) by lia.
  cbv zeta. rewrite Z.pow_0_r, Z.mul_1_l, Z.mod_1_r, Z.div_1_r.
  change (1 <? 2 * 0) with false. change (1 =? 2 * 0) with false.
  cbn [orb andb].
  set (P := 2 ^ (52 - L)).
  assert (0 < P) as HP by (apply Z.pow_pos_nonneg; lia).
  assert ((0 <=? L - 52) && (2 ^ 1024 <=? a * P * 2 ^ (L - 52)) = false) as ->.
  { destruct (Z.leb_spec 0 (L - 52)) as [H|H]; [|reflexivity].
    assert (L = 52) as E by lia. unfold P. rewrite E.
    change (2 ^ (52 - 52)) with 1. rewrite !Z.mul_1_r.
    apply Z.leb_gt.
    assert (2 ^ 53 < 2 ^ 1024) by (apply Z.pow_lt_mono_r; lia). lia. }
  unfold TimeClip_Number, TimeClip.
  rewrite (Z.max_r (L - 52) 0) by lia.
  replace (Z.max (- (L - 52)) 0) with (52 - L) by lia.
  fold P. rewrite Z.pow_0_r, Z.mul_1_r.
  assert (Z.abs (if n <? 0 then - (a * P) else a * P) = a * P) as ->
    by (destruct (n <? 0); lia).
  assert ((a * P <=? 8640000000000000 * P) = (a <=? 8640000000000000)) as ->.
  { destruct (Z.leb_spec a 8640000000000000);
      [apply Z.leb_le | apply Z.leb_gt]; nia. }
  fold a. destruct (a <=? 8640000000000000); [|reflexivity]. f_equal.
  assert ((if n <? 0 then - (a * P) else a * P) = n * P) as ->
    by (unfold a; destruct (Z.ltb_spec n 0); lia).
  destruct (Z.leb_spec 0 (L - 52)) as [H|H].
  - assert (L = 52) as E by lia. unfold P. rewrite E.
    change (2 ^ (52 - 52)) with 1. lia.
  - replace (- (L - 52)) with (52 - L) by lia. fold P.
    apply Z.quot_mul. lia.
Qed.

(** [new Date(n)] for an integer [n] of at most 53 bits. *)
Lemma Date_value_integer {host : JsHost} (h : Heap) n :
  Z.abs n <= 2 ^ 53 -> Date_value h (VNum n 0) = TimeClip n.
Proof. apply TimeClip_binary64_integer. Qed.

(** Numerals that are not Numbers denote the nearest one:
    9007199254740993 denotes 9007199254740992, and [new Date] of
    0.9999999999999999999 is the Date of 1. *)
Lemma binary64_nearest :
  binary64 9007199254740993 0 = Finite (2 ^ 52) 1
  /\ Date_value (host := IST) ∅ (VNum 9999999999999999999 (-19)) = Some 1.
Proof. split; vm_compute; reflexivity. Qed.

(** ** Loading any array *)

Lemma lookup_set_prop_eq k v ps : lookup_prop k (set_prop k v ps) = v.
Proof.
  induction ps as [|[k' v'] ps IH]; cbn [set_prop lookup_prop].
  - now rewrite decide_True.
  - destruct (decide (k' = k)) as [E|N]; cbn [lookup_prop].
    + now rewrite decide_True.
    + now rewrite decide_False.
Qed.

Lemma lookup_set_prop_ne k k' v ps :
  k' <> k -> lookup_prop k' (set_prop k v ps) = lookup_prop k' ps.
Proof.
  intros Hk. induction ps as [|[k0 v0] ps IH]; cbn [set_prop lookup_prop].
  - rewrite decide_False by congruence. reflexivity.
  - destruct (decide (k0 = k)) as [E|N]; cbn [lookup_prop].
    + subst k0. now rewrite !decide_False by congruence.
    + destruct (decide (k0 = k')); [reflexivity | exact IH].
Qed.

(** [JSON.parse] makes no [undefined]. *)
Lemma parse_defined f :
  (forall s v r, parse_value f s = Some (v, r) ->
     v <> VUndefined /\ forall items, v = VArr items -> ~ In VUndefined items)
  /\ (forall s acc v r, parse_elements f s acc = Some (v, r) ->
        ~ In VUndefined acc ->
        exists items, v = VArr items /\ ~ In VUndefined items)
  /\ (forall s acc v r, parse_members f s acc = Some (v, r) ->
        exists ps, v = VObj ps).
Proof.
  induction f as [|f (IHv & IHe & IHm)].
  - repeat split; intros; discriminate.
  - split; [|split].
    + intros s v r. cbn [parse_value]. destruct s as [|c s]; [discriminate|].
      destruct (c =? 110)%N.
      { destruct (expect_word _ _); [|discriminate]. cbn. intros [= <- _].
        split; [discriminate|]. intros items. discriminate. }
      destruct (c =? 116)%N.
      { destruct (expect_word _ _); [|discriminate]. cbn. intros [= <- _].
        split; [discriminate|]. intros items. discriminate. }
      destruct (c =? 102)%N.
      { destruct (expect_word _ _); [|discriminate]. cbn. intros [= <- _].
        split; [discriminate|]. intros items. discriminate. }
      destruct (c =? 34)%N.
      { destruct (parse_string _) as [[str r']|]; [|discriminate]. cbn.
        intros [= <- _]. split; [discriminate|]. intros items. discriminate. }
      destruct (c =? 91)%N.
      { assert (forall r', parse_elements f r' [] = Some (v, r) ->
                v <> VUndefined
                /\ forall items, v = VArr items -> ~ In VUndefined items) as E.
        { intros r' H. destruct (IHe _ _ _ _ H) as (items & -> & Hi); [easy|].
          split; [discriminate|]. now intros items' [= <-]. }
        destruct (skip_ws s) as [|c' r']; [apply E|].
        destruct (N.eq_dec c' 93%N) as [->|Hc].
        - intros [= <- _]. split; [discriminate|]. now intros items [= <-].
        - intros H. apply (E (c' :: r')). revert H.
          destruct c' as [|p]; [easy|].
          do 7 (destruct p as [p|p|]; try easy). }
      destruct (c =? 123)%N.
      { assert (forall r', parse_members f r' [] = Some (v, r) ->
                v <> VUndefined
                /\ forall items, v = VArr items -> ~ In VUndefined items) as E.
        { intros r' H. destruct (IHm _ _ _ _ H) as (ps & ->).
          split; [discriminate|]. intros items. discriminate. }
        destruct (skip_ws s) as [|c' r']; [apply E|].
        destruct (N.eq_dec c' 125%N) as [->|Hc].
        - intros [= <- _]. split; [discriminate|]. intros items. discriminate.
        - intros H. apply (E (c' :: r')). revert H.
          destruct c' as [|p]; [easy|].
          do 7 (destruct p as [p|p|]; try easy). }
      unfold parse_number. destruct (parse_sign _) as [neg s'].
      unfold parse_unsigned. destruct (span_digits s') as [int s''].
      destruct int as [|d ds]; [discriminate|].
      destruct (_ && _); [discriminate|].
      destruct (parse_fraction s'') as [[frac s3]|]; [|discriminate]. cbn.
      destruct (parse_exponent s3) as [[ex s4]|]; [|discriminate]. cbn.
      intros [= <- _]. split; [discriminate|]. intros items. discriminate.
    + intros s acc v r. cbn [parse_elements].
      destruct (parse_value f (skip_ws s)) as [[v0 r0]|] eqn:Ev; [|discriminate].
      cbn [mbind option_bind]. destruct (IHv _ _ _ Ev) as [Hv0 _].
      intros H Hacc.
      assert (~ In VUndefined (v0 :: acc)) as Hacc'
        by (intros [E|E]; [now apply Hv0 | now apply Hacc]).
      destruct (skip_ws r0) as [|c' r']; [discriminate|].
      destruct (N.eq_dec c' 44%N) as [->|Hc44].
      { apply (IHe _ _ _ _ H Hacc'). }
      destruct (N.eq_dec c' 93%N) as [->|Hc93].
      { injection H as <- _. eexists. split; [reflexivity|].
        intros Hin. apply Hacc'. apply in_rev. exact Hin. }
      exfalso. revert H. destruct c' as [|p]; [easy|].
      do 7 (destruct p as [p|p|]; try easy).
    + intros s acc v r. cbn [parse_members].
      destruct (parse_string (skip_ws s)) as [[k r0]|]; [|discriminate].
      cbn [mbind option_bind].
      destruct (expect 58 (skip_ws r0)) as [r1|]; [|discriminate].
      cbn [mbind option_bind].
      destruct (parse_value f (skip_ws r1)) as [[v0 r2]|]; [|discriminate].
      cbn [mbind option_bind].
      destruct (skip_ws r2) as [|c' r']; [discriminate|].
      destruct (N.eq_dec c' 44%N) as [->|Hc44].
      { intros H. apply (IHm _ _ _ _ H). }
      destruct (N.eq_dec c' 125%N) as [->|Hc].
      { intros [= <- _]. eauto. }
      intros H. exfalso. revert H. destruct c' as [|p]; [easy|].
      do 7 (destruct p as [p|p|]; try easy).
Qed.

Lemma JSON_parse_defined s items :
  JSON_parse s = Some (VArr items) -> ~ In VUndefined items.
Proof.
  unfold JSON_parse.
  destruct (parse_value _ _) as [[v r]|] eqn:E; [|discriminate].
  cbn [mbind option_bind]. destruct (skip_ws r); [|discriminate].
  intros [= ->]. destruct (parse_defined (2 * length s + 2)) as (H & _).
  now apply (H _ _ _ E).
Qed.

Section LoadingArrays.
Context {host : JsHost}.

Lemma Date_value_heap h1 h2 c :
  is_Date c = false -> Date_value h1 c = Date_value h2 c.
Proof. destruct c; try reflexivity. discriminate. Qed.

Lemma get_createdAt_prop v :
  v <> VNull -> v <> VUndefined ->
  get_createdAt v = Some (prop "createdAt" v).
Proof. destruct v; try reflexivity; congruence. Qed.

Lemma revive_all_defined h items : forall h0,
  (forall l, h0 !! l = None -> h !! l = None) ->
  ~ In VNull items -> ~ In VUndefined items ->
  Forall (fun v => ToPrimitive_throws (prop "createdAt" v) = false) items ->
  exists h' vs,
    revive_all h0 items = Some (h', vs) /\ Forall2 (revived h h') items vs.
Proof.
  induction items as [|v items IH]; intros h0 Hh0 Hn Hu Ht.
  - exists h0, []. split; [reflexivity | constructor].
  - assert (v <> VNull) as Hvn by (intros ->; apply Hn; now left).
    assert (v <> VUndefined) as Hvu by (intros ->; apply Hu; now left).
    apply Forall_cons in Ht. destruct Ht as [Htv Ht].
    set (c := prop "createdAt" v) in *.
    set (l := fresh (dom h0)).
    assert (h0 !! l = None) as Hl by (apply not_elem_of_dom, is_fresh).
    destruct (IH (<[l := Date_value h0 c]> h0)) as (h' & vs & Hvs & Hall).
    { intros l0 H0. apply Hh0.
      destruct (decide (l0 = l)) as [->|N]; [exact Hl|].
      now rewrite lookup_insert_ne in H0 by congruence. }
    { intros H. apply Hn. now right. }
    { intros H. apply Hu. now right. }
    { exact Ht. }
    exists h', (VObj (set_prop (js "createdAt") (VDate l) (spread v)) :: vs).
    split.
    + cbn [revive_all]. unfold revive.
      rewrite (get_createdAt_prop v Hvn Hvu). cbn [mbind option_bind].
      unfold new_Date. fold c. rewrite Htv. cbn [mbind option_bind].
      unfold alloc. fold l. cbn [mbind option_bind].
      rewrite Hvs. reflexivity.
    + constructor; [|exact Hall].
      exists l. eexists. split; [reflexivity|].
      split; [apply lookup_set_prop_eq|]. split; [now apply Hh0|]. split.
      * intros Hd. unfold thisTimeValue.
        rewrite (revive_all_keeps _ _ _ _ l Hvs)
          by (rewrite lookup_insert_eq; eauto).
        rewrite lookup_insert_eq. cbn [default].
        now apply Date_value_heap.
      * intros k Hk. now apply lookup_set_prop_ne.
Qed.

Lemma loadTodos_array h s items :
  JSON_parse s = Some (VArr items) -> ~ In VNull items ->
  Forall (fun v => ToPrimitive_throws (prop "createdAt" v) = false) items ->
  exists h' vs,
    loadTodos h (Some s) = (h', vs)
    /\ Forall2 (revived h h') items vs
    /\ forall l, is_Some (h !! l) -> h' !! l = h !! l.
Proof.
  intros Hs Hn Ht.
  destruct (revive_all_defined h items h) as (h' & vs & Hvs & Hall);
    [easy | exact Hn | exact (JSON_parse_defined s items Hs) | exact Ht |].
  exists h', vs. split; [|split; [exact Hall|]].
  - unfold loadTodos. destruct s as [|c s]; [discriminate Hs|].
    cbn [truthy_string]. unfold try_load. rewrite Hs.
    cbn [mbind option_bind]. now rewrite Hvs.
  - intros l Hl. now apply (revive_all_keeps _ _ _ _ l Hvs).
Qed.

(** X24. A stored item that is a JSON array with no [null] element and
    no element whose [createdAt] cannot be converted to a primitive is
    not turned down, whatever else its elements are: the load effect
    makes one object of each element, in order, with the properties the
    element has and with [createdAt] a new Date made of the element's
    [createdAt]; the Date objects there were are left as they are. *)
Theorem load_accepts_arrays h s items :
  JSON_parse s = Some (VArr items) -> ~ In VNull items ->
  Forall (fun v => ToPrimitive_throws (prop "createdAt" v) = false) items ->
  exists h' vs,
    loadTodos h (Some s) = (h', vs)
    /\ Forall2 (revived h h') items vs
    /\ forall l, is_Some (h !! l) -> h' !! l = h !! l.
Proof. apply loadTodos_array. Qed.

(** X25. What the save effect writes is always read back by
    [JSON.parse]: as an array with one record for each task, in order,
    holding [id], [title], [completed], [createdAt] as ISO text (or
    [null]), and [dueDate] only when the task has one. *)
Theorem saved_text_parses st :
  exists text,
    saveTodos st = Some text
    /\ JSON_parse text
       = Some (VArr (List.map (stored_record (heap st)) (todos st))).
Proof. eexists. split; [reflexivity | apply JSON_parse_stringify]. Qed.

Lemma loadTodos_rejected h item : rejected item -> loadTodos h item = (h, []).
Proof.
  intros [| |s Hs|s v Hs Hv|s items Hs Hin|s items v Hs Hin Hv]; simpl;
    try reflexivity.
  - destruct (truthy_string s); [|reflexivity].
    unfold try_load. now rewrite Hs.
  - destruct (truthy_string s); [|reflexivity].
    unfold try_load. rewrite Hs. simpl.
    destruct v; try reflexivity. now destruct (Hv items).
  - destruct (truthy_string s); [|reflexivity].
    unfold try_load. rewrite Hs. simpl.
    now rewrite revive_all_null.
  - destruct (truthy_string s); [|reflexivity].
    unfold try_load. rewrite Hs. simpl.
    now rewrite (revive_all_throws h items v).
Qed.

(** X26. Mounting over a stored item the load effect turns down: the
    collection stays empty, no Date object is kept, and the save effect
    of that first render replaces the stored item by the text of the
    empty array. *)
Theorem mount_rejected h item :
  rejected item -> mount h item = ((h, []), Some (js "[]")).
Proof.
  intros R. unfold mount. now rewrite (loadTodos_rejected h item R).
Qed.

End LoadingArrays.

(** A record whose [createdAt] is an object with a property named
    [toString]: [new Date] throws on it, and the load effect leaves the
    collection empty. *)
Lemma load_unconvertible_createdAt :
  rejected unconvertible_item
  /\ loadTodos (host := IST) ∅ unconvertible_item = (∅, []).
Proof.
  split; [|vm_compute; reflexivity].
  eapply rejected_createdAt;
    [vm_compute; reflexivity | left; reflexivity | reflexivity].
Qed.

(** ** The panels *)

Section Panels.
Context {host : JsHost}.

Lemma renderRow_fields clk todo (h : Heap) :
  key (fst (renderRow clk todo h)) = id todo
  /\ text (fst (renderRow clk todo h)) = title todo
  /\ checked (fst (renderRow clk todo h)) = completed todo
  /\ struck (fst (renderRow clk todo h)) = completed todo
  /\ (badge (fst (renderRow clk todo h)) = None <-> dueDate todo = None).
Proof.
  unfold renderRow. destruct (tone _ _ _ _ h) as [b h1].
  destruct (dueDate todo) as [l|].
  - destruct (tone _ _ _ _ h1) as [bt h2].
    destruct (isOverdue _ _ h2) as [over h3]. cbn. now repeat split.
  - cbn. now repeat split.
Qed.

Lemma renderRows_fields clock ts : forall i (h : Heap),
  List.map key (fst (renderRows clock i ts h)) = List.map id ts
  /\ List.map text (fst (renderRows clock i ts h)) = List.map title ts
  /\ List.map checked (fst (renderRows clock i ts h)) = List.map completed ts.
Proof.
  induction ts as [|t ts IH]; intros i h; [now repeat split|].
  cbn [renderRows].
  destruct (renderRow_fields (clock i) t h) as (Hk & Ht & Hc & _).
  destruct (renderRow (clock i) t h) as [r h1].
  destruct (IH (S i) h1) as (IHk & IHt & IHc).
  destruct (renderRows clock (S i) ts h1) as [rs h2].
  cbn [fst List.map] in *. now rewrite Hk, Ht, Hc, IHk, IHt, IHc.
Qed.

(** X27. What one render shows: a row for each task, in the order of
    the collection, keyed by the task's id, with its title and its check
    box checked when it is completed; the placeholder exactly when there
    is no row, the statistics exactly when there is one; the button that
    clears completed tasks exactly when some task is completed, showing
    their number. *)
Theorem render_panels clock st :
  List.map key (rows (fst (render clock st))) = ids st
  /\ List.map text (rows (fst (render clock st))) = List.map title (todos st)
  /\ List.map checked (rows (fst (render clock st)))
     = List.map completed (todos st)
  /\ (placeholder (fst (render clock st)) = true
      <-> rows (fst (render clock st)) = [])
  /\ (stats_panel (fst (render clock st)) = None
      <-> rows (fst (render clock st)) = [])
  /\ (forall n, clear_button (fst (render clock st)) = Some n
      <-> n = completedCount st /\ (0 < n)%nat).
Proof.
  destruct (renderRows_fields clock (todos st) 0%nat (heap st))
    as (Hk & Ht & Hc).
  unfold render.
  destruct (renderRows clock 0 (todos st) (heap st)) as [rs h] eqn:E.
  cbn [fst rows placeholder stats_panel clear_button] in *.
  assert (length rs = length (todos st)) as Hlen.
  { rewrite <- (length_map key rs), Hk. apply length_map. }
  assert (rs = [] <-> length (todos st) = 0%nat) as Hnil.
  { rewrite <- Hlen. destruct rs; cbn; split; intros; (easy || lia). }
  split; [exact Hk|]. split; [exact Ht|]. split; [exact Hc|].
  split; [|split].
  - rewrite Hnil. apply Nat.eqb_eq.
  - rewrite Hnil. unfold totalCount.
    destruct (Nat.ltb_spec 0 (length (todos st))); split; intros;
      (easy || lia).
  - intros n. destruct (Nat.ltb_spec 0 (completedCount st)); split.
    + intros [= <-]. now split.
    + intros [-> _]. reflexivity.
    + discriminate.
    + intros [-> ?]. lia.
Qed.

End Panels.

(** ** Instances of the properties of the rest of the component *)

Lemma addTodo_adds_witness :
  trim (inputValue form_filled) <> []
  /\ exists t,
       todos (addTodo (host := IST) 5 6 form_filled) = t :: todos form_filled
       /\ id t = 5 /\ title t = trim (inputValue form_filled)
       /\ completed t = false.
Proof.
  assert (trim (inputValue form_filled) <> []) as H
    by (vm_compute; discriminate).
  split; [exact H|].
  destruct (addTodo_adds (host := IST) 5 6 form_filled H)
    as (t & Ht & Hid & Htitle & Hdone & _).
  exists t. repeat split; assumption.
Defined.

Lemma toggleTodo_one_witness :
  (completedCount (toggleTodo 1 (A_then_B (host := IST))) + 0
   = completedCount (A_then_B (host := IST)) + 1)%nat
  /\ ids (toggleTodo 1 (A_then_B (host := IST))) = ids (A_then_B (host := IST)).
Proof.
  apply (toggleTodo_one 1 (A_then_B (host := IST))
           {| id := 1; title := js "A"; completed := false;
              createdAt := 1%positive; dueDate := None |}).
  - vm_compute. repeat constructor; simpl; intuition discriminate.
  - vm_compute. right. left. reflexivity.
  - reflexivity.
Defined.

Lemma picked_date_is_UTC_midnight_witness :
  exists t,
    todos (addTodo (host := IST) 5 6 form_filled) = t :: todos form_filled
    /\ dueInstant (heap (addTodo (host := IST) 5 6 form_filled)) t
       = Some (Some (MakeDay 2024 (1 - 1) 15 * msPerDay)).
Proof.
  apply (picked_date_is_UTC_midnight (host := IST) 5 6 form_filled 2024 1 15).
  - vm_compute. discriminate.
  - reflexivity.
  - lia.
  - lia.
  - split; vm_compute; discriminate.
Defined.

Lemma picked_date_due_day_witness :
  exists t,
    todos (addTodo (host := EST) 5 6 form_filled) = t :: todos form_filled
    /\ forall now,
         isDueToday (host := EST) (dueDate t) now
           (heap (addTodo (host := EST) 5 6 form_filled))
         = bool_decide (Day (now + -18000000)
                        = MakeDay 2024 (1 - 1) 15
                          + (if -18000000 <? 0 then -1 else 0)).
Proof.
  apply (picked_date_due_day (-18000000) 5 6 form_filled 2024 1 15).
  - change msPerDay with 86400000. lia.
  - vm_compute. discriminate.
  - reflexivity.
  - lia.
  - lia.
  - split; vm_compute; discriminate.
Defined.

Lemma renderRow_moves_dueDate_witness :
  snd (renderRow (host := IST) (frozen_clock 1705400000000) (task_A false)
         (heap (with_due_date (host := IST))))
  = snd (isOverdue (host := IST) (dueDate (task_A false)) 1705400000000
           (heap (with_due_date (host := IST)))).
Proof.
  apply (renderRow_moves_dueDate (host := IST) (frozen_clock 1705400000000)
           (task_A false) 1705400000000 (heap (with_due_date (host := IST)))).
  exact IST_midnight.
Defined.

Lemma renderRow_completed_witness :
  border (fst (renderRow (host := IST) (frozen_clock 1705400000000)
                 (task_A true) (heap (with_due_date (host := IST))))) = Green
  /\ struck (fst (renderRow (host := IST) (frozen_clock 1705400000000)
                    (task_A true) (heap (with_due_date (host := IST))))) = true
  /\ forall b,
       badge (fst (renderRow (host := IST) (frozen_clock 1705400000000)
                     (task_A true) (heap (with_due_date (host := IST)))))
       = Some b ->
       badge_tone b = Green /\ overdue_label b = false /\ today_label b = false.
Proof.
  apply (renderRow_completed (host := IST) (frozen_clock 1705400000000)
           (task_A true) (heap (with_due_date (host := IST)))).
  reflexivity.
Defined.

Lemma renderRow_labels_exclusive_witness :
  overdue_label {| badge_tone := Red; overdue_label := true;
                   today_label := false |}
  && today_label {| badge_tone := Red; overdue_label := true;
                    today_label := false |} = false.
Proof.
  apply (renderRow_labels_exclusive (host := IST)
           (frozen_clock 1705400000000) (task_A false)
           (heap (with_due_date (host := IST)))).
  - exact IST_midnight.
  - reflexivity.
  - vm_compute. reflexivity.
Defined.

Lemma renderRow_coherent_witness :
  badge_tone {| badge_tone := Yellow; overdue_label := false;
                today_label := true |}
  = border (fst (renderRow (host := IST) (frozen_clock 1705300000000)
                   (task_A false) (heap (with_due_date (host := IST)))))
  /\ (overdue_label {| badge_tone := Yellow; overdue_label := false;
                       today_label := true |} = true
      <-> border (fst (renderRow (host := IST) (frozen_clock 1705300000000)
                         (task_A false) (heap (with_due_date (host := IST)))))
          = Red)
  /\ (today_label {| badge_tone := Yellow; overdue_label := false;
                     today_label := true |} = true
      <-> border (fst (renderRow (host := IST) (frozen_clock 1705300000000)
                         (task_A false) (heap (with_due_date (host := IST)))))
          = Yellow).
Proof.
  apply (renderRow_coherent (host := IST) 1705300000000 (task_A false)
           (heap (with_due_date (host := IST)))).
  - exact IST_midnight.
  - vm_compute. reflexivity.
Defined.

Lemma render_effect_witness :
  snd (render (host := IST) (fun _ => frozen_clock 1705500000000)
         (snd (render (host := IST) (fun _ => frozen_clock 1705400000000)
                 (with_due_date (host := IST)))))
  = snd (render (host := IST) (fun _ => frozen_clock 1705400000000)
           (with_due_date (host := IST))).
Proof.
  destruct (render_effect (host := IST) (fun _ => frozen_clock 1705400000000)
              (fun _ => frozen_clock 1705500000000)
              (with_due_date (host := IST)) IST_midnight)
    as (_ & _ & _ & _ & _ & H).
  exact H.
Defined.

Lemma ids_strictly_decreasing_witness :
  strictly_decreasing (ids (run (host := IST) typing_A_then_B initial))
  /\ List.NoDup (ids (run (host := IST) typing_A_then_B initial)).
Proof.
  apply (ids_strictly_decreasing (host := IST) typing_A_then_B).
  vm_compute. split; [reflexivity | exact I].
Defined.

Lemma reachable_load_after_save_witness :
  exists h' vs,
    loadTodos (host := IST) ∅
      (saveTodos (run (host := IST) typing_A_then_B initial)) = (h', vs)
    /\ Forall2 (reloaded (heap (run (host := IST) typing_A_then_B initial)) h')
         (todos (run (host := IST) typing_A_then_B initial)) vs.
Proof.
  apply (reachable_load_after_save (host := IST) typing_A_then_B ∅).
  assert (readings (host := IST) typing_A_then_B initial = [(1, 1); (2, 2)])
    as -> by (vm_compute; reflexivity).
  repeat constructor; cbn [snd Z.abs]; lia.
Defined.

Lemma load_accepts_arrays_witness :
  exists h' vs,
    loadTodos (host := IST) ∅ (Some (js "[{}]")) = (h', vs)
    /\ Forall2 (revived (host := IST) ∅ h') [VObj []] vs
    /\ forall l, is_Some ((∅ : Heap) !! l) -> h' !! l = (∅ : Heap) !! l.
Proof.
  apply (load_accepts_arrays (host := IST) ∅ (js "[{}]") [VObj []]).
  - reflexivity.
  - intros [H|[]]. discriminate H.
  - repeat constructor.
Defined.

Lemma mount_rejected_witness :
  mount (host := IST) ∅ truncated_item = ((∅, []), Some (js "[]")).
Proof.
  apply (mount_rejected (host := IST) ∅ truncated_item).
  apply rejected_syntax. reflexivity.
Defined.
